(** * Time_Series_Modeler: the parallel fit/predict core

    A shallow embedding of [Utils/ParallelPrinter.py] and of the parallel
    path of [Base/BaseModeler.py], followed by the properties of the
    partitioning, progress-barrier, reporting and merging steps.

    Conventions of the embedding.
    - Python integers are [Z]; positions in a list are [nat] once an
      index has been normalised the way [iloc] does it.
    - A Python exception is a value of [exn]; a call that may raise
      returns a [result].  A method of the shared printer returns the
      printer as it is left behind (also when it raises, as the object is
      mutated in place), the text it wrote and the exception, if any.
    - Time stamps are whole seconds ([replace(microsecond=0)]); the
      readings of the system clock are inputs of the model.
    - [fit_predict] is the abstract method of [BaseModeler]: a parameter.
    - The calls into numpy and pandas ([np.array_split], [np.where],
      [pd.concat], [groupby], [unique], [iloc], arithmetic on object
      arrays) are modelled by what they do on the values the program
      gives them; a data frame of series is the list of its rows.
    - The dtype of the ['id'] column is a flag, [categorical], beside
      the frame: [Main.py] makes the column categorical, and
      [df['id'].unique().to_numpy()] exists on such a column only.  The
      categories are the ids of the frame given to
      [parallel_fit_predict]; [groupby('id')] visits them in increasing
      order, [groupby('id', observed=True)] in a worker visits the ids of
      its frame as they first appear.
    - [groupby.apply] catches a [TypeError] of the function it applies
      and applies it to every group again; an exception of the second
      pass, or another exception of the first, propagates.
    - The shared printer lives in the process of a manager: an exception
      of its constructor reaches the caller as
      [multiprocessing.managers.RemoteError], an exception of one of its
      methods reaches the calling worker as it is.
    - The notifications of [SerialPrinter] are left out: only the output
      of the parallel printer is in the log.
    - The processes of the pool are interleaved at the granularity of
      their calls of [update]: a schedule says which worker finishes its
      next group, and when.
    - The path functions of [Base/BaseReader.py] and the formatting of
      ids and day labels in [M5/SalesTrainValidationReader.py] and
      [Main.py] work on [string]; [str.split] and [str.rsplit] are
      modelled for a separator of one character, as the program calls
      them. *)

From Stdlib Require Import ZArith List String Ascii Bool Lia DecimalString Sorted.
From stdpp Require Import base list strings.
Import ListNotations.

Local Open Scope Z_scope.

(** ** Python results *)

Inductive exn : Set :=
| ValueError
| IndexError
| KeyError
| TypeError
| ZeroDivisionError
| AttributeError
| RemoteError.

Inductive result (A : Type) : Type :=
| Ok (a : A)
| Raise (e : exn).

Arguments Ok {A} a.
Arguments Raise {A} e.

Definition rbind {A B : Type} (c : result A) (k : A -> result B) : result B :=
  match c with
  | Ok a => k a
  | Raise e => Raise e
  end.

Notation "'do' x <- c ; k" := (rbind c (fun x => k))
  (at level 10, x name, c at level 100, k at level 200).

Fixpoint mapM {A B : Type} (f : A -> result B) (l : list A) : result (list B) :=
  match l with
  | [] => Ok []
  | a :: l' => do b <- f a; do bs <- mapM f l'; Ok (b :: bs)
  end.

Definition is_ok {A : Type} (r : result A) : bool :=
  match r with Ok _ => true | Raise _ => false end.

(** ** Strings: [str], and the part of [str.format] the printer uses *)

(** [str(n)] for an integer. *)
Definition str_int (n : Z) : string := NilZero.string_of_int (Z.to_int n).

(** ["%02d" % n]. *)
Definition two_digits (n : Z) : string :=
  if (0 <=? n) && (n <? 10) then "0" +:+ str_int n else str_int n.

(** [str(t)] for a [datetime.time] without microseconds; [t] is a time
    stamp in seconds, of which [.time()] keeps the time of day. *)
Definition str_time (t : Z) : string :=
  let s := t mod 86400 in
  two_digits (s / 3600) +:+ ":" +:+ two_digits ((s / 60) mod 60) +:+ ":"
    +:+ two_digits (s mod 60).

(** [str(d)] for a [datetime.timedelta] of [d] seconds: days are
    normalised so that the seconds are in [0, 86400). *)
Definition str_timedelta (d : Z) : string :=
  let days := d / 86400 in
  let secs := d mod 86400 in
  let s := str_int (secs / 3600) +:+ ":" +:+ two_digits ((secs / 60) mod 60)
             +:+ ":" +:+ two_digits (secs mod 60) in
  if days =? 0 then s
  else str_int days +:+ " day" +:+ (if Z.abs days =? 1 then "" else "s")
         +:+ ", " +:+ s.

Fixpoint str_repeat (c : ascii) (n : nat) : string :=
  match n with
  | O => EmptyString
  | S n' => String c (str_repeat c n')
  end.

(** A format string is a list of literal pieces and replacement fields
    [{:<fill><align><width>}]; the width is the integer the source pastes
    in with [str(...)]. *)
Inductive align : Set := AlignLeft | AlignRight.

Inductive piece : Set :=
| Lit (s : string)
| Field (fill : ascii) (a : align) (width : Z).

Definition fmt : Set := list piece.

(** One field applied to a string argument.  A negative width reads as a
    sign, which a string argument refuses ([ValueError]); otherwise the
    width is a minimum and the argument is never cut. *)
Definition format_field (fill : ascii) (a : align) (width : Z) (s : string)
  : result string :=
  if width <? 0 then Raise ValueError
  else
    let pad := str_repeat fill (Z.to_nat width - String.length s) in
    Ok (match a with
        | AlignLeft => s +:+ pad
        | AlignRight => pad +:+ s
        end).

(** [f.format] on an argument tuple: fields take the arguments in order, a missing one
    is an [IndexError], surplus arguments are ignored. *)
Fixpoint format (f : fmt) (args : list string) : result string :=
  match f with
  | [] => Ok EmptyString
  | Lit s :: f' => do r <- format f' args; Ok (s +:+ r)
  | Field fill a w :: f' =>
      match args with
      | [] => Raise IndexError
      | x :: args' =>
          do y <- format_field fill a w x;
          do r <- format f' args';
          Ok (y +:+ r)
      end
  end.

(** [s * n] on format strings. *)
Definition fmt_times (f : fmt) (n : Z) : fmt := concat (replicate (Z.to_nat n) f).

(** [a // b] and [a % b] (floor division, as [Z.div] and [Z.modulo]). *)
Definition floordiv (a b : Z) : result Z :=
  if b =? 0 then Raise ZeroDivisionError else Ok (a / b).

Definition pymod (a b : Z) : result Z :=
  if b =? 0 then Raise ZeroDivisionError else Ok (a mod b).

(** [range(a, b)]. *)
Definition range (a b : Z) : list Z :=
  map (fun i => a + Z.of_nat i) (seq 0 (Z.to_nat (b - a))).

(** ** Dictionaries with integer keys, in insertion order *)

Definition dict : Set := list (Z * Z).

Definition keys (d : dict) : list Z := map fst d.
Definition values (d : dict) : list Z := map snd d.

Fixpoint dict_get (d : dict) (k : Z) : result Z :=
  match d with
  | [] => Raise KeyError
  | (k', v) :: d' => if k' =? k then Ok v else dict_get d' k
  end.

Fixpoint dict_set (d : dict) (k v : Z) : dict :=
  match d with
  | [] => [(k, v)]
  | (k', v') :: d' => if k' =? k then (k', v) :: d' else (k', v') :: dict_set d' k v
  end.

(** [max(xs)] and [min(xs)]: [ValueError] on an empty sequence. *)
Definition py_max (xs : list Z) : result Z :=
  match xs with
  | [] => Raise ValueError
  | x :: xs' => Ok (fold_left Z.max xs' x)
  end.

Definition py_min (xs : list Z) : result Z :=
  match xs with
  | [] => Raise ValueError
  | x :: xs' => Ok (fold_left Z.min xs' x)
  end.

Definition py_sum (xs : list Z) : Z := fold_left Z.add xs 0.

(** ** Values held by the progress table *)

(** The objects the model needs: [None], the float [nan], an integer, a
    [datetime] (seconds). *)
Inductive pyval : Set :=
| VNone
| VNaN
| VInt (n : Z)
| VTime (t : Z).

(** What a subtraction or [np.where] leaves in the array that is printed:
    [nan], an integer, a [timedelta] (seconds) or a string. *)
Inductive split : Set :=
| SNaN
| SInt (n : Z)
| SDelta (d : Z)
| SStr (s : string).

(** [pd.isnull] on one cell. *)
Definition isnull (v : pyval) : bool :=
  match v with
  | VNone | VNaN => true
  | VInt _ | VTime _ => false
  end.

(** [v != -1]: only the integer [-1] is equal to [-1]. *)
Definition ne_minus_one (v : pyval) : bool :=
  match v with
  | VInt n => negb (n =? -1)
  | VNone | VNaN | VTime _ => true
  end.

(** [a - b] on two objects.  Two datetimes give a timedelta and floats
    subtract as floats; a float and a datetime, or anything and [None],
    have no subtraction ([TypeError]). *)
Definition py_sub (a b : pyval) : result split :=
  match a, b with
  | VTime x, VTime y => Ok (SDelta (x - y))
  | VNaN, VNaN | VNaN, VInt _ | VInt _, VNaN => Ok SNaN
  | VInt x, VInt y => Ok (SInt (x - y))
  | _, _ => Raise TypeError
  end.

(** [str(x)] on an element of the printed array. *)
Definition py_str (x : split) : string :=
  match x with
  | SNaN => "nan"
  | SInt n => str_int n
  | SDelta d => str_timedelta d
  | SStr s => s
  end.

(** [np.where(cond, xs, y)] with a scalar [y]. *)
Definition np_where (cond : list bool) (xs : list split) (y : split) : list split :=
  map (fun cx : bool * split => if cx.1 then cx.2 else y) (combine cond xs).

(** ** The progress table: a [DataFrame] read and written through [iloc] *)

Record DataFrame : Set := {
  columns : list Z;
  cells : list (list pyval)
}.

(** [pd.DataFrame(np.nan, index=range(0, n), columns=cols)]. *)
Definition DataFrame_nan (n : Z) (cols : list Z) : DataFrame :=
  {| columns := cols;
     cells := replicate (Z.to_nat n) (replicate (length cols) VNaN) |}.

(** A position given to [iloc]: negative positions count from the end,
    anything outside [-len, len) is an [IndexError]. *)
Definition norm_index (len : nat) (i : Z) : result nat :=
  if (0 <=? i) && (i <? Z.of_nat len) then Ok (Z.to_nat i)
  else if (- Z.of_nat len <=? i) && (i <? 0) then Ok (Z.to_nat (i + Z.of_nat len))
  else Raise IndexError.

(** [df.iloc[r, :].values]. *)
Definition iloc_row (df : DataFrame) (r : Z) : result (list pyval) :=
  do i <- norm_index (length (cells df)) r;
  match cells df !! i with
  | Some row => Ok row
  | None => Raise IndexError
  end.

(** [df.iloc[r, cs]] for a list of positions [cs]. *)
Definition iloc_row_cols (df : DataFrame) (r : Z) (cs : list Z) : result (list pyval) :=
  do row <- iloc_row df r;
  mapM (fun c =>
          do j <- norm_index (length (columns df)) c;
          match row !! j with
          | Some v => Ok v
          | None => Raise IndexError
          end) cs.

(** [df.iloc[r, c] = v]. *)
Definition iloc_set (df : DataFrame) (r c : Z) (v : pyval) : result DataFrame :=
  do i <- norm_index (length (cells df)) r;
  do j <- norm_index (length (columns df)) c;
  Ok {| columns := columns df;
        cells := alter (fun row => <[j := v]> row) i (cells df) |}.

(** ** [ParallelPrinter] *)

Record ParallelPrinter : Set := {
  prev_print_carriage : bool;
  total_procs : Z;
  proc_job_dict : dict;
  max_jobs : Z;
  min_jobs : Z;
  current_job : Z;
  proc_job_completed_dict : dict;
  start_time : option Z;
  job_time_tracker : DataFrame;
  regular_divider : string;
  parallel_title : string;
  parallel_message : fmt;
  parallel_divider : string
}.

Definition set_prev_print_carriage (self : ParallelPrinter) (b : bool) :=
  {| prev_print_carriage := b;
     total_procs := total_procs self;
     proc_job_dict := proc_job_dict self;
     max_jobs := max_jobs self;
     min_jobs := min_jobs self;
     current_job := current_job self;
     proc_job_completed_dict := proc_job_completed_dict self;
     start_time := start_time self;
     job_time_tracker := job_time_tracker self;
     regular_divider := regular_divider self;
     parallel_title := parallel_title self;
     parallel_message := parallel_message self;
     parallel_divider := parallel_divider self |}.

Definition set_proc_job_completed_dict (self : ParallelPrinter) (d : dict) :=
  {| prev_print_carriage := prev_print_carriage self;
     total_procs := total_procs self;
     proc_job_dict := proc_job_dict self;
     max_jobs := max_jobs self;
     min_jobs := min_jobs self;
     current_job := current_job self;
     proc_job_completed_dict := d;
     start_time := start_time self;
     job_time_tracker := job_time_tracker self;
     regular_divider := regular_divider self;
     parallel_title := parallel_title self;
     parallel_message := parallel_message self;
     parallel_divider := parallel_divider self |}.

Definition set_start_time (self : ParallelPrinter) (t : option Z) :=
  {| prev_print_carriage := prev_print_carriage self;
     total_procs := total_procs self;
     proc_job_dict := proc_job_dict self;
     max_jobs := max_jobs self;
     min_jobs := min_jobs self;
     current_job := current_job self;
     proc_job_completed_dict := proc_job_completed_dict self;
     start_time := t;
     job_time_tracker := job_time_tracker self;
     regular_divider := regular_divider self;
     parallel_title := parallel_title self;
     parallel_message := parallel_message self;
     parallel_divider := parallel_divider self |}.

Definition set_job_time_tracker (self : ParallelPrinter) (df : DataFrame) :=
  {| prev_print_carriage := prev_print_carriage self;
     total_procs := total_procs self;
     proc_job_dict := proc_job_dict self;
     max_jobs := max_jobs self;
     min_jobs := min_jobs self;
     current_job := current_job self;
     proc_job_completed_dict := proc_job_completed_dict self;
     start_time := start_time self;
     job_time_tracker := df;
     regular_divider := regular_divider self;
     parallel_title := parallel_title self;
     parallel_message := parallel_message self;
     parallel_divider := parallel_divider self |}.

(** The strings [configure_prints] assigns. *)
Record prints : Set := {
  process_col_len : Z;
  time_col_len : Z;
  cfg_divider : string;
  cfg_message : fmt;
  cfg_title : string
}.

Definition line_width : Z := 120.
Definition job_col_len : Z := 17.

(** [configure_prints], as a function of [self.total_procs]. *)
Definition configure_prints (total_procs : Z) : result prints :=
  let tup := replicate (Z.to_nat (total_procs + 2)) EmptyString in
  let time_col_len := 12 in
  do process_col_len <- floordiv (line_width - time_col_len - job_col_len) total_procs;
  do extra <- pymod (line_width - time_col_len - job_col_len) total_procs;
  let time_col_len := time_col_len + extra in
  let time_col_div_str := [Lit "+"; Field "-" AlignLeft (time_col_len - 2); Lit "+"] in
  let job_col_div_str := [Field "-" AlignLeft (job_col_len - 1); Lit "+"] in
  let process_col_div_str := [Field "-" AlignLeft (process_col_len - 1); Lit "+"] in
  let parallel_divider_fmt :=
    time_col_div_str ++ job_col_div_str ++ fmt_times process_col_div_str total_procs in
  do parallel_divider <- format parallel_divider_fmt tup;
  let time_col_msg_str := [Lit "| "; Field " " AlignRight (time_col_len - 4); Lit " |"] in
  let job_col_msg_str := [Lit " "; Field " " AlignRight (job_col_len - 3); Lit " |"] in
  let process_col_msg_str := [Lit " "; Field " " AlignRight (process_col_len - 3); Lit " |"] in
  let parallel_message :=
    time_col_msg_str ++ job_col_msg_str ++ fmt_times process_col_msg_str total_procs in
  let process_titles := map (fun i => "P_" +:+ str_int i) (range 1 (total_procs + 1)) in
  do parallel_title <- format parallel_message ("Time" :: "Job # / Total" :: process_titles);
  Ok {| process_col_len := process_col_len;
        time_col_len := time_col_len;
        cfg_divider := parallel_divider;
        cfg_message := parallel_message;
        cfg_title := parallel_title |}.

(** [ParallelPrinter(total_procs, proc_job_dict)]. *)
Definition ParallelPrinter_init (total_procs : Z) (proc_job_dict : dict)
  : result ParallelPrinter :=
  do max_jobs <- py_max (values proc_job_dict);
  do min_jobs <- py_min (values proc_job_dict);
  do cfg <- configure_prints total_procs;
  Ok {| prev_print_carriage := false;
        total_procs := total_procs;
        proc_job_dict := proc_job_dict;
        max_jobs := max_jobs;
        min_jobs := min_jobs;
        current_job := 0;
        proc_job_completed_dict := map (fun kv : Z * Z => (kv.1, 0)) proc_job_dict;
        start_time := None;
        job_time_tracker := DataFrame_nan max_jobs (keys proc_job_dict);
        regular_divider := EmptyString;
        parallel_title := cfg_title cfg;
        parallel_message := cfg_message cfg;
        parallel_divider := cfg_divider cfg |}.

(** *** What a method call leaves behind *)

(** The log of a call: the text written to standard output, and a mark
    for every entry into [print_parallel_message]. *)
Inductive event : Set :=
| Call_print_parallel_message (job_num : Z)
| PrintLn (text : string)      (* print(text) *)
| PrintEnd (text : string).    (* print(text, end='') *)

Record ret : Set := {
  after : ParallelPrinter;
  log : list event;
  raised : option exn
}.

(** The readings of [datetime.datetime.now()] one call of [update] may
    take: in [update] itself, in [print_parallel_message] and in
    [print_jobs_completed]. *)
Record clock : Set := {
  now_update : Z;
  now_message : Z;
  now_status : Z
}.

Definition CR : string := String "013"%char EmptyString.

(** [print_jobs_completed].  The strings are made first; with
    [prev_print_carriage] set, the carriage return is written before the
    line is formatted. *)
Definition print_jobs_completed (self : ParallelPrinter) (now : clock) : ret :=
  let current_time := now_status now in
  let total_jobs := py_sum (values (proc_job_dict self)) in
  let jobs_completed := py_sum (values (proc_job_completed_dict self)) in
  let job_str := str_int jobs_completed +:+ " / " +:+ str_int total_jobs in
  match mapM (fun proc =>
                do c <- dict_get (proc_job_completed_dict self) proc;
                do n <- dict_get (proc_job_dict self) proc;
                Ok (str_int c +:+ " / " +:+ str_int n))
             (keys (proc_job_dict self)) with
  | Raise e => {| after := self; log := []; raised := Some e |}
  | Ok job_strs =>
      let text :=
        format (parallel_message self) (str_time current_time :: job_str :: job_strs) in
      if prev_print_carriage self then
        match text with
        | Raise e => {| after := self; log := [PrintEnd CR]; raised := Some e |}
        | Ok text => {| after := self; log := [PrintEnd CR; PrintEnd text]; raised := None |}
        end
      else
        match text with
        | Raise e => {| after := self; log := []; raised := Some e |}
        | Ok text => {| after := set_prev_print_carriage self true;
                        log := [PrintEnd text]; raised := None |}
        end
  end.

(** The array [splits] of [print_parallel_message]: the row of [job_num]
    minus the start time (job 0) or minus the row before it, with ['-']
    wherever the current cell equals [-1]. *)
Definition job_splits (self : ParallelPrinter) (job_num : Z) : result (list split) :=
  if job_num =? 0 then
    let prev_job_times :=
      match start_time self with Some t => VTime t | None => VNone end in
    do current_job_times <- iloc_row (job_time_tracker self) job_num;
    let cond := map ne_minus_one current_job_times in
    do diffs <- mapM (fun c => py_sub c prev_job_times) current_job_times;
    Ok (np_where cond diffs (SStr "-"))
  else
    do prev_job_times <- iloc_row (job_time_tracker self) (job_num - 1);
    do current_job_times <- iloc_row (job_time_tracker self) job_num;
    let cond := map ne_minus_one current_job_times in
    do diffs <- mapM (fun cp : pyval * pyval => py_sub cp.1 cp.2)
                     (combine current_job_times prev_job_times);
    Ok (np_where cond diffs (SStr "-")).

(** The line [print_parallel_message] formats for [job_num]. *)
Definition message_line (self : ParallelPrinter) (job_num : Z) (now : clock)
  : result string :=
  let current_time := now_message now in
  let job_str := str_int (job_num + 1) +:+ " / " +:+ str_int (max_jobs self) in
  do splits <- job_splits self job_num;
  let job_times := map py_str splits in
  format (parallel_message self) (str_time current_time :: job_str :: job_times).

(** [print_parallel_message(job_num)]. *)
Definition print_parallel_message (self : ParallelPrinter) (job_num : Z) (now : clock)
  : ret :=
  let self := set_prev_print_carriage self false in
  match message_line self job_num now with
  | Raise e => {| after := self; log := [PrintEnd CR]; raised := Some e |}
  | Ok line =>
      let r := print_jobs_completed self now in
      {| after := after r;
         log := PrintEnd CR :: PrintLn line :: log r;
         raised := raised r |}
  end.

(** The barrier test of [update]: the positions [non_min_procs] of the
    processes that have more than [job_num] jobs, and whether none of
    their cells in row [job_num] is null. *)
Definition non_min_procs (self : ParallelPrinter) (job_num : Z) : list Z :=
  List.filter (fun proc =>
                 match dict_get (proc_job_dict self) proc with
                 | Ok n => job_num <? n
                 | Raise _ => false
                 end)
              (keys (proc_job_dict self)).

Definition row_complete (self : ParallelPrinter) (job_num : Z) : result bool :=
  do sel <- iloc_row_cols (job_time_tracker self) job_num (non_min_procs self job_num);
  Ok (negb (existsb isnull sel)).

(** [update(proc_num, job_num)]. *)
Definition update (self : ParallelPrinter) (proc_num job_num : Z) (now : clock) : ret :=
  let time_completed := now_update now in
  match iloc_set (job_time_tracker self) job_num proc_num (VTime time_completed) with
  | Raise e => {| after := self; log := []; raised := Some e |}
  | Ok df =>
      let self := set_job_time_tracker self df in
      match dict_get (proc_job_completed_dict self) proc_num with
      | Raise e => {| after := self; log := []; raised := Some e |}
      | Ok c =>
          let self :=
            set_proc_job_completed_dict self
              (dict_set (proc_job_completed_dict self) proc_num (c + 1)) in
          match row_complete self job_num with
          | Raise e => {| after := self; log := []; raised := Some e |}
          | Ok false => {| after := self; log := []; raised := None |}
          | Ok true =>
              let r := print_parallel_message self job_num now in
              {| after := after r;
                 log := Call_print_parallel_message job_num :: log r;
                 raised := raised r |}
          end
      end
  end.

(** The two halves of [update], for a manager that serves the calls of
    different processes in different threads: the statements that record
    the completion, and the test with the report. *)
Definition update_record (self : ParallelPrinter) (proc_num job_num : Z) (now : clock) : ret :=
  let time_completed := now_update now in
  match iloc_set (job_time_tracker self) job_num proc_num (VTime time_completed) with
  | Raise e => {| after := self; log := []; raised := Some e |}
  | Ok df =>
      let self := set_job_time_tracker self df in
      match dict_get (proc_job_completed_dict self) proc_num with
      | Raise e => {| after := self; log := []; raised := Some e |}
      | Ok c =>
          {| after := set_proc_job_completed_dict self
                        (dict_set (proc_job_completed_dict self) proc_num (c + 1));
             log := []; raised := None |}
      end
  end.

Definition update_report (self : ParallelPrinter) (job_num : Z) (now : clock) : ret :=
  match row_complete self job_num with
  | Raise e => {| after := self; log := []; raised := Some e |}
  | Ok false => {| after := self; log := []; raised := None |}
  | Ok true =>
      let r := print_parallel_message self job_num now in
      {| after := after r;
         log := Call_print_parallel_message job_num :: log r;
         raised := raised r |}
  end.

(** [print_notify_parallel_begin] and [print_notify_parallel_end]. *)
Definition print_notify_parallel_begin (self : ParallelPrinter) (now : Z) : ret :=
  let self := set_start_time self (Some now) in
  {| after := self;
     log := [PrintLn (parallel_divider self); PrintLn (parallel_title self);
             PrintLn (parallel_divider self)];
     raised := None |}.

Definition print_notify_parallel_end (self : ParallelPrinter) : ret :=
  {| after := self; log := [PrintLn (parallel_divider self)]; raised := None |}.

(** A sequence of [update] calls on the shared printer, one after the
    other; a call that raises leaves the printer as it was at the raise
    and the next call goes on from there. *)
Fixpoint updates (self : ParallelPrinter) (calls : list (Z * Z * clock))
  : ParallelPrinter * list event :=
  match calls with
  | [] => (self, [])
  | (proc_num, job_num, now) :: calls' =>
      let r := update self proc_num job_num now in
      let '(self', evs) := updates (after r) calls' in
      (self', log r ++ evs)
  end.

(** How often [print_parallel_message] was entered for [job_num]. *)
Definition reports_of (job_num : Z) (evs : list event) : nat :=
  length (List.filter (fun e =>
                         match e with
                         | Call_print_parallel_message k => k =? job_num
                         | _ => false
                         end) evs).

(** ** Data frames of series, grouped by id *)

(** [np.array_split(ary, n)] on the first axis: [len(ary) % n] sections
    of [len(ary) // n + 1] elements, then sections of [len(ary) // n]
    elements, cut in order; [ValueError] unless [n > 0]. *)
Fixpoint split_sections {A : Type} (sizes : list nat) (ary : list A) : list (list A) :=
  match sizes with
  | [] => []
  | s :: sizes' => take s ary :: split_sections sizes' (drop s ary)
  end.

Definition section_sizes (total sections : nat) : list nat :=
  let each := (total / sections)%nat in
  let extras := (total mod sections)%nat in
  replicate extras (S each) ++ replicate (sections - extras) each.

Definition array_split {A : Type} (ary : list A) (n : Z) : result (list (list A)) :=
  if n <=? 0 then Raise ValueError
  else Ok (split_sections (section_sizes (length ary) (Z.to_nat n)) ary).

(** The ids of a column, in the order [groupby] lists its groups
    (ascending, each id once) ... *)
Fixpoint insert_key (k : Z) (l : list Z) : list Z :=
  match l with
  | [] => [k]
  | x :: l' =>
      if k <? x then k :: l
      else if k =? x then l
      else x :: insert_key k l'
  end.

Definition sorted_keys (l : list Z) : list Z := fold_right insert_key [] l.

(** ... and in the order [Series.unique] lists them (first appearance). *)
Fixpoint unique (l : list Z) : list Z :=
  match l with
  | [] => []
  | x :: l' => x :: List.filter (fun y => negb (y =? x)) (unique l')
  end.

(** [np.where(ids == name)[0][0]]. *)
Fixpoint first_index (ids : list Z) (name : Z) : result Z :=
  match ids with
  | [] => Raise IndexError
  | x :: ids' =>
      if x =? name then Ok 0 else do i <- first_index ids' name; Ok (i + 1)
  end.

Section Modeler.

(** A row of the input frame is its ['id'] and the rest of the row. *)
Variable obs : Type.
(** The prediction [fit_predict] returns for one series. *)
Variable pred : Type.
Variable fit_predict : list (Z * obs) -> pred.

Definition frame : Type := list (Z * obs).

(** [df['id']]. *)
Definition id_column (df : frame) : list Z := map fst df.

(** [df.groupby('id')], as the list of [(name, group)] it iterates. *)
Definition groupby (df : frame) : list (Z * frame) :=
  map (fun k => (k, List.filter (fun r : Z * obs => r.1 =? k) df))
      (sorted_keys (id_column df)).

(** [df['id'].nunique()]. *)
Definition nunique (df : frame) : Z := Z.of_nat (length (unique (id_column df))).

(** [pd.concat(frames)]: [ValueError] when there is nothing to
    concatenate. *)
Definition pd_concat {A : Type} (frames : list (list A)) : result (list A) :=
  match frames with
  | [] => Raise ValueError
  | _ :: _ => Ok (concat frames)
  end.

(** [split[:, 1]] on a section of the array [np.array_split] makes of
    the groups.  The array of [(name, group)] pairs has two dimensions,
    and so has each of its sections, also an empty one; with no group at
    all the array has one dimension, so have its sections, and the two
    indices raise [IndexError]. *)
Definition second_column (groups split : list (Z * frame)) : result (list frame) :=
  match groups with
  | [] => Raise IndexError
  | _ :: _ => Ok (map snd split)
  end.

(** The split of [parallel_fit_predict]: [np.array_split] on the
    groups, then one frame per section. *)
Definition partition (df : frame) (processors : Z) : result (list frame) :=
  let groups := groupby df in
  do list_of_splits <- array_split groups processors;
  mapM (fun split : list (Z * frame) =>
          do column <- second_column groups split;
          pd_concat column)
       list_of_splits.

(** [dict(zip(range(0, processors), [s['id'].nunique() for s in list_of_splits]))]. *)
Definition process_job_dict (processors : Z) (list_of_splits : list frame) : dict :=
  combine (range 0 processors) (map nunique list_of_splits).

(** *** One worker: [iterative_fit_predict] *)

(** [df.groupby('id', observed=True)] on a categorical id column (not
    ordered, as [astype('category')] makes it): the groups come in the
    order in which their ids first appear in the column. *)
Definition groupby_observed (df : frame) : list (Z * frame) :=
  map (fun k => (k, List.filter (fun r : Z * obs => r.1 =? k) df))
      (unique (id_column df)).

(** [df['id'].unique().to_numpy()].  On a categorical column [unique]
    returns a [Categorical], which has [to_numpy]; on any other column it
    returns an [ndarray], which has not: [AttributeError]. *)
Definition unique_to_numpy (categorical : bool) (df : frame) : result (list Z) :=
  if categorical then Ok (unique (id_column df)) else Raise AttributeError.

(** What [groups.apply] does for one group, through
    [fit_predict_wrapper]: the job number is the position of the group's
    name in [ids]; [fit_predict] runs, then [update] is called. *)
Definition fit_predict_wrapper (x : frame) (proc_num job_num : Z)
    (shared_printer : ParallelPrinter) (now : clock) : pred * ret :=
  let predictions := fit_predict x in
  (predictions, update shared_printer proc_num job_num now).

(** The groups of a worker in the order [apply] visits them, each with
    the job number the lambda computes for it; [categorical] says
    whether the id column of the frame is categorical. *)
Definition worker_jobs (categorical : bool) (df : frame)
  : result (list (Z * frame * result Z)) :=
  let groups := groupby_observed df in
  do ids <- unique_to_numpy categorical df;
  Ok (map (fun g : Z * frame => (g.1, g.2, first_index ids g.1)) groups).

(** One pass of [groups.apply] over the groups, from the [n]-th call of
    [update] the worker makes ([clocks n] are the clock readings of that
    call): the printer as it is left, the number of calls made, the
    output, and the predictions or the exception that ended the pass. *)
Fixpoint apply_pass (jobs : list (Z * frame * result Z)) (proc_num : Z)
    (shared_printer : ParallelPrinter) (clocks : nat -> clock) (n : nat)
    (out : list event) (acc : list (Z * pred))
  : ParallelPrinter * nat * list event * result (list (Z * pred)) :=
  match jobs with
  | [] => (shared_printer, n, out, Ok acc)
  | (name, x, job) :: jobs' =>
      match job with
      | Raise e => (shared_printer, n, out, Raise e)
      | Ok job_num =>
          let '(predictions, r) :=
            fit_predict_wrapper x proc_num job_num shared_printer (clocks n) in
          match raised r with
          | Some e => (after r, S n, out ++ log r, Raise e)
          | None =>
              apply_pass jobs' proc_num (after r) clocks (S n) (out ++ log r)
                (acc ++ [(name, predictions)])
          end
      end
  end.

Definition is_TypeError (e : exn) : bool :=
  match e with TypeError => true | _ => false end.

Record worker_run : Type := {
  printer_after : ParallelPrinter;
  calls_made : nat;
  printed : list event;
  result_df : result (list (Z * pred))
}.

(** [groups.apply(f)] for a worker on its own (no other process touches
    the printer).  pandas catches a [TypeError] raised while the function
    is applied and applies the function again to every group, from the
    first; the outcome of this second pass, predictions or exception, is
    the outcome of [apply].  Any other exception ends [apply] at once. *)
Definition groupby_apply (jobs : list (Z * frame * result Z)) (proc_num : Z)
    (shared_printer : ParallelPrinter) (clocks : nat -> clock) : worker_run :=
  let '(printer1, n1, out1, res1) :=
    apply_pass jobs proc_num shared_printer clocks 0 [] [] in
  match res1 with
  | Raise TypeError =>
      let '(printer2, n2, out2, res2) :=
        apply_pass jobs proc_num printer1 clocks n1 out1 [] in
      {| printer_after := printer2; calls_made := n2; printed := out2; result_df := res2 |}
  | _ =>
      {| printer_after := printer1; calls_made := n1; printed := out1; result_df := res1 |}
  end.

Definition iterative_fit_predict (categorical : bool) (df : frame) (proc_num : Z)
    (shared_printer : ParallelPrinter) (clocks : nat -> clock) : worker_run :=
  match worker_jobs categorical df with
  | Raise e =>
      {| printer_after := shared_printer; calls_made := 0; printed := [];
         result_df := Raise e |}
  | Ok jobs => groupby_apply jobs proc_num shared_printer clocks
  end.

(** *** The pool: workers interleaved on the shared printer *)

(** A worker of the pool: all its groups, the groups still to take in
    the current pass, the predictions of the pass, whether the pass is
    the second one, and the exception that ended the worker, if any. *)
Record worker : Type := {
  jobs : list (Z * frame * result Z);
  todo : list (Z * frame * result Z);
  predictions_df : list (Z * pred);
  retried : bool;
  failure : option exn
}.

Record pool : Type := {
  shared_printer : ParallelPrinter;
  workers : list worker;
  pool_log : list event;
  first_failure : option exn
}.

Definition finished (w : worker) : bool :=
  match failure w, todo w with
  | Some _, _ => true
  | None, [] => true
  | None, _ :: _ => false
  end.

(** The worker as [iterative_fit_predict] starts it on its frame; it has
    failed at once when the ids cannot be made an array. *)
Definition start_worker (categorical : bool) (df : frame) : worker :=
  match worker_jobs categorical df with
  | Ok js =>
      {| jobs := js; todo := js; predictions_df := []; retried := false;
         failure := None |}
  | Raise e =>
      {| jobs := []; todo := []; predictions_df := []; retried := false;
         failure := Some e |}
  end.

(** The exception of the first worker, in the order of the tasks, that
    has failed. *)
Fixpoint first_failed (ws : list worker) : option exn :=
  match ws with
  | [] => None
  | w :: ws' =>
      match failure w with
      | Some e => Some e
      | None => first_failed ws'
      end
  end.

(** The worker in [slot] finishes its next group: it has run
    [fit_predict] and now calls [update].  A [TypeError] of the call in
    the first pass makes [apply] start over with the first group; any
    other exception, or an exception in the second pass, ends the
    worker.  A worker that is done, or has failed, does nothing more. *)
Definition pool_step (p : pool) (slot : nat) (now : clock) : pool :=
  match workers p !! slot with
  | None => p
  | Some w =>
      match failure w, todo w with
      | Some _, _ => p
      | None, [] => p
      | None, (name, x, job) :: todo' =>
          match job with
          | Raise e =>
              {| shared_printer := shared_printer p;
                 workers := <[slot := {| jobs := jobs w; todo := todo';
                                         predictions_df := predictions_df w;
                                         retried := retried w;
                                         failure := Some e |}]> (workers p);
                 pool_log := pool_log p;
                 first_failure := match first_failure p with
                                  | Some e' => Some e' | None => Some e end |}
          | Ok job_num =>
              let '(predictions, r) :=
                fit_predict_wrapper x (Z.of_nat slot) job_num (shared_printer p) now in
              let w' :=
                match raised r with
                | None =>
                    {| jobs := jobs w; todo := todo';
                       predictions_df := predictions_df w ++ [(name, predictions)];
                       retried := retried w; failure := None |}
                | Some e =>
                    if is_TypeError e && negb (retried w) then
                      {| jobs := jobs w; todo := jobs w; predictions_df := [];
                         retried := true; failure := None |}
                    else
                      {| jobs := jobs w; todo := todo';
                         predictions_df := predictions_df w;
                         retried := retried w; failure := Some e |}
                end in
              {| shared_printer := after r;
                 workers := <[slot := w']> (workers p);
                 pool_log := pool_log p ++ log r;
                 first_failure := match first_failure p with
                                  | Some e' => Some e'
                                  | None => failure w' end |}
          end
      end
  end.

Definition pool_run (p : pool) (schedule : list (nat * clock)) : pool :=
  fold_left (fun p sc => pool_step p sc.1 sc.2) schedule p.

(** [pool.starmap(self.iterative_fit_predict, ...)] under a schedule
    (which worker reaches its next [update], and when).  [None] when the
    schedule stops before every worker is done: the call has not
    returned.  Otherwise the results in the order of the tasks, or the
    exception of a worker. *)
Definition starmap (categorical : bool) (printer : ParallelPrinter)
    (list_of_splits : list frame) (schedule : list (nat * clock))
  : ParallelPrinter * list event * option (result (list (list (Z * pred)))) :=
  let ws := map (start_worker categorical) list_of_splits in
  let p0 := {| shared_printer := printer;
               workers := ws;
               pool_log := [];
               first_failure := first_failed ws |} in
  let p := pool_run p0 schedule in
  (shared_printer p, pool_log p,
   if forallb finished (workers p) then
     Some match first_failure p with
          | Some e => Raise e
          | None => Ok (map predictions_df (workers p))
          end
   else None).

(** *** [parallel_fit_predict] *)

Record run : Type := {
  run_log : list event;
  workers_started : bool;
  returned : option (result (list (Z * pred)))
}.

(** [parallel_fit_predict(df)] with [self.processors] processors;
    [categorical] says whether the id column of [df] is categorical.
    The printer is made in the process of the manager: an exception of
    its constructor reaches the caller as
    [multiprocessing.managers.RemoteError].  The methods of the printer
    are called through the proxy, which raises their exceptions as they
    are. *)
Definition parallel_fit_predict (categorical : bool) (df : frame) (processors : Z)
    (begin_time : Z) (schedule : list (nat * clock)) : run :=
  match partition df processors with
  | Raise e => {| run_log := []; workers_started := false; returned := Some (Raise e) |}
  | Ok list_of_splits =>
      let process_job_dict := process_job_dict processors list_of_splits in
      match ParallelPrinter_init processors process_job_dict with
      | Raise _ =>
          {| run_log := []; workers_started := false;
             returned := Some (Raise RemoteError) |}
      | Ok sharable_printer =>
          let r0 := print_notify_parallel_begin sharable_printer begin_time in
          let '(printer, evs, res) :=
            starmap categorical (after r0) list_of_splits schedule in
          match res with
          | None => {| run_log := log r0 ++ evs; workers_started := true; returned := None |}
          | Some (Raise e) =>
              {| run_log := log r0 ++ evs; workers_started := true;
                 returned := Some (Raise e) |}
          | Some (Ok predictions_df_list) =>
              let r1 := print_notify_parallel_end printer in
              {| run_log := log r0 ++ evs ++ log r1; workers_started := true;
                 returned := Some (pd_concat predictions_df_list) |}
          end
      end
  end.

End Modeler.

Arguments groupby {obs} df.
Arguments groupby_observed {obs} df.
Arguments nunique {obs} df.
Arguments id_column {obs} df.
Arguments second_column {obs} groups split.
Arguments partition {obs} df processors.
Arguments process_job_dict {obs} processors list_of_splits.
Arguments unique_to_numpy {obs} categorical df.
Arguments worker_jobs {obs} categorical df.
Arguments apply_pass {obs pred} fit_predict jobs proc_num shared_printer clocks n out acc.
Arguments groupby_apply {obs pred} fit_predict jobs proc_num shared_printer clocks.
Arguments fit_predict_wrapper {obs pred} fit_predict x proc_num job_num shared_printer now.
Arguments iterative_fit_predict {obs pred} fit_predict categorical df proc_num shared_printer clocks.
Arguments starmap {obs pred} fit_predict categorical printer list_of_splits schedule.
Arguments parallel_fit_predict {obs pred} fit_predict categorical df processors begin_time schedule.
Arguments pd_concat {A} frames.
Arguments printer_after {pred} w.
Arguments calls_made {pred} w.
Arguments printed {pred} w.
Arguments result_df {pred} w.
Arguments jobs {obs pred} w.
Arguments todo {obs pred} w.
Arguments predictions_df {obs pred} w.
Arguments retried {obs pred} w.
Arguments failure {obs pred} w.
Arguments start_worker {obs pred} categorical df.
Arguments first_failed {obs pred} ws.
Arguments shared_printer {obs pred} p.
Arguments workers {obs pred} p.
Arguments pool_log {obs pred} p.
Arguments first_failure {obs pred} p.
Arguments finished {obs pred} w.
Arguments pool_step {obs pred} fit_predict p slot now.
Arguments pool_run {obs pred} fit_predict p schedule.
Arguments run_log {pred} r.
Arguments workers_started {pred} r.
Arguments returned {pred} r.

(** *** [multi_fit_predict] *)

(** [multi_fit_predict(df)].  With [parallelize] unset the method calls
    [self.iterative_fit_predict(df)]: the parameters [proc_num] and
    [shared_printer] have no default, so Python raises [TypeError] at the
    call, before the body runs. *)
Definition multi_fit_predict {obs pred : Type} (fit_predict : list (Z * obs) -> pred)
    (parallelize categorical : bool) (df : frame obs) (processors begin_time : Z)
    (schedule : list (nat * clock)) : run pred :=
  if parallelize then
    let predictions :=
      parallel_fit_predict fit_predict categorical df processors begin_time schedule in
    predictions
  else
    {| run_log := []; workers_started := false; returned := Some (Raise TypeError) |}.

(** ** Paths and ids *)

(** [s.split(sep)] for a separator of one character: the pieces between
    the separators, [len = count + 1]; [s.rsplit(sep)], without a limit,
    gives the same list. *)
Fixpoint str_split (sep : ascii) (s : string) : list string :=
  match s with
  | EmptyString => [EmptyString]
  | String c s' =>
      if Ascii.eqb c sep then EmptyString :: str_split sep s'
      else match str_split sep s' with
           | [] => [String c EmptyString]
           | x :: xs => String c x :: xs
           end
  end.

Definition str_rsplit (sep : ascii) (s : string) : list string := str_split sep s.

(** The text before and after the last [sep] of [s], if there is one. *)
Fixpoint rsplit_last (sep : ascii) (s : string) : option (string * string) :=
  match s with
  | EmptyString => None
  | String c s' =>
      match rsplit_last sep s' with
      | Some (a, b) => Some (String c a, b)
      | None => if Ascii.eqb c sep then Some (EmptyString, s') else None
      end
  end.

(** [s.rsplit(sep, 1)]: at most one split, at the last separator. *)
Definition str_rsplit1 (sep : ascii) (s : string) : list string :=
  match rsplit_last sep s with
  | Some (a, b) => [a; b]
  | None => [s]
  end.

(** [l[i]] on a list, negative positions counted from the end. *)
Definition py_index {A : Type} (l : list A) (i : Z) : result A :=
  do n <- norm_index (length l) i;
  match l !! n with
  | Some x => Ok x
  | None => Raise IndexError
  end.

(** [BaseReader.get_file_directory] and [BaseReader.get_file_name]. *)
Definition get_file_directory (file_path : string) : result string :=
  do first <- py_index (str_rsplit "/" file_path) 0;
  Ok (first +:+ "/").

Definition get_file_name (file_path : string) : result string :=
  py_index (str_split "/" file_path) (-1).

(** The path [read] saves the sample to:
    [self.file_directory + 'sample_' + self.file_name]. *)
Definition sample_path (file_path : string) : result string :=
  do file_directory <- get_file_directory file_path;
  do file_name <- get_file_name file_path;
  Ok (file_directory +:+ "sample_" +:+ file_name).

(** [SalesTrainValidationReader.process] on one id,
    [str(val).rsplit('_', 1)[0]], and on one day label,
    [str(x).split('_')[1]]; ids and labels are strings. *)
Definition format_id (val : string) : result string :=
  py_index (str_rsplit1 "_" val) 0.

Definition format_d (x : string) : result string :=
  py_index (str_split "_" x) 1.

(** The ids [main] writes to the submission: [str(x) + '_validation'] and
    [str(x) + '_evaluation']. *)
Definition validation_id (x : string) : string := x +:+ "_validation".
Definition evaluation_id (x : string) : string := x +:+ "_evaluation".


(** * Vocabulary of the properties *)

(** The cell of the table at row [job_num] and column [proc_num]. *)
Definition cell_at (self : ParallelPrinter) (job_num proc_num : Z) : option pyval :=
  match cells (job_time_tracker self) !! Z.to_nat job_num with
  | Some row => row !! Z.to_nat proc_num
  | None => None
  end.

(** Process [proc_num] has a completion time recorded for [job_num]. *)
Definition stamped (self : ParallelPrinter) (job_num proc_num : Z) : Prop :=
  exists t, cell_at self job_num proc_num = Some (VTime t).

Definition nan_or_time (v : pyval) : Prop := v = VNaN \/ exists t, v = VTime t.

(** The shape of a printer made for processes [0 .. N-1]: the keys of
    the job dictionary are these positions, the table has [max_jobs] rows
    of [N] cells, and a cell holds [nan] or a time. *)
Record wf (self : ParallelPrinter) : Prop := {
  wf_keys : forall k, In k (keys (proc_job_dict self)) <->
                      0 <= k < Z.of_nat (length (proc_job_dict self));
  wf_completed : keys (proc_job_completed_dict self) = keys (proc_job_dict self);
  wf_columns : length (columns (job_time_tracker self)) = length (proc_job_dict self);
  wf_rows : length (cells (job_time_tracker self)) = Z.to_nat (max_jobs self);
  wf_row_len : Forall (fun row => length row = length (proc_job_dict self))
                      (cells (job_time_tracker self));
  wf_cells : Forall (Forall nan_or_time) (cells (job_time_tracker self));
  wf_max : Forall (fun n => n <= max_jobs self) (values (proc_job_dict self))
}.

(** An event that is text written to standard output. *)
Definition is_text (e : event) : Prop :=
  match e with Call_print_parallel_message _ => False | _ => True end.


(** Clock readings that all fall in second [t]. *)
Definition tick (t : Z) : clock :=
  {| now_update := t; now_message := t; now_status := t |}.

(** A call [update(proc_num, job_num)] a worker can make: [proc_num] is a
    process of the dictionary and [job_num] is one of its jobs. *)
Definition valid_call (d : dict) (c : Z * Z * clock) : Prop :=
  exists n, dict_get d c.1.1 = Ok n /\ 0 <= c.1.2 < n.

(** Every time in the table was written by a call of the history [H]
    (pairs of process and job). *)
Definition written_by (self : ParallelPrinter) (H : list (Z * Z)) : Prop :=
  forall j p, 0 <= j -> 0 <= p -> stamped self j p -> In (p, j) H.

(** The barrier of [job_num]: every process with more than [job_num]
    jobs has a time in row [job_num]. *)
Definition barrier (self : ParallelPrinter) (job_num : Z) : Prop :=
  forall slot n, dict_get (proc_job_dict self) slot = Ok n -> n > job_num ->
                 stamped self job_num slot.

(** The value [print_parallel_message] subtracts from the cell of
    [proc_num] in row [job_num]: the start time for job 0, else the cell
    of the row before. *)
Definition prev_cell (self : ParallelPrinter) (job_num proc_num : Z) : option pyval :=
  if job_num =? 0 then
    Some (match start_time self with Some t => VTime t | None => VNone end)
  else cell_at self (job_num - 1) proc_num.

(** The width a format string lays out: its literal text and the widths
    of its fields. *)
Fixpoint fmt_width (f : fmt) : Z :=
  match f with
  | [] => 0
  | Lit s :: f' => Z.of_nat (String.length s) + fmt_width f'
  | Field _ _ w :: f' => w + fmt_width f'
  end.

(** Every argument is no longer than the field it goes to. *)
Fixpoint fits (f : fmt) (args : list string) : Prop :=
  match f with
  | [] => True
  | Lit _ :: f' => fits f' args
  | Field _ _ w :: f' =>
      match args with
      | [] => True
      | x :: args' => Z.of_nat (String.length x) <= w /\ fits f' args'
      end
  end.

(** A job dictionary for processes [0 .. N-1] with [n] jobs each. *)
Definition even_jobs (N n : Z) : dict :=
  combine (range 0 N) (replicate (Z.to_nat N) n).

(** A group as [groupby] yields it: not empty, every row with the name
    of the group as its id. *)
Definition group_ok {obs : Type} (g : Z * frame obs) : Prop :=
  g.2 <> [] /\ Forall (fun r : Z * obs => r.1 = g.1) g.2.

(** A frame that is the concatenation of the groups [sec], whose names
    increase: what [parallel_fit_predict] hands to a worker. *)
Definition grouped {obs : Type} (part : frame obs) (sec : list (Z * frame obs)) : Prop :=
  part = concat (map snd sec)
  /\ StronglySorted Z.lt (map fst sec)
  /\ Forall group_ok sec.

(** The number of groups of a frame. *)
Definition n_groups {obs : Type} (df : frame obs) : Z := Z.of_nat (length (groupby df)).

(** The job entries of the groups numbered from [start]. *)
Fixpoint numbered_from {obs : Type} (start : nat) (groups : list (Z * frame obs))
  : list (Z * frame obs * result Z) :=
  match groups with
  | [] => []
  | g :: groups' => (g.1, g.2, Ok (Z.of_nat start)) :: numbered_from (S start) groups'
  end.

(** The predictions of a list of jobs: the name of each group with what
    [fit_predict] returns on it. *)
Definition job_predictions {obs pred : Type} (fit_predict : list (Z * obs) -> pred)
    (jobs : list (Z * frame obs * result Z)) : list (Z * pred) :=
  map (fun j : Z * frame obs * result Z => (j.1.1, fit_predict j.1.2)) jobs.

(** A worker of the pool on the jobs [js]: it keeps all its jobs, and
    while it has not failed, the predictions of its current pass and the
    jobs still to take make up the predictions of all its jobs. *)
Definition worker_inv {obs pred : Type} (fit_predict : list (Z * obs) -> pred)
    (w : worker obs pred) (js : list (Z * frame obs * result Z)) : Prop :=
  jobs w = js
  /\ (failure w = None ->
      predictions_df w ++ job_predictions fit_predict (todo w)
      = job_predictions fit_predict js).

(** The number of replacement fields of a format string. *)
Fixpoint n_fields (f : fmt) : nat :=
  match f with
  | [] => 0
  | Lit _ :: f' => n_fields f'
  | Field _ _ _ :: f' => S (n_fields f')
  end.

(** The value subtracted for [proc_num] in row [job_num] is a time. *)
Definition prev_is_time (self : ParallelPrinter) (job_num proc_num : Z) : Prop :=
  exists p, prev_cell self job_num proc_num = Some (VTime p).

(** The cell of [proc_num] in row [job_num] and the value subtracted from
    it cannot be subtracted: one is a time and the other is not. *)
Definition unsubtractable (self : ParallelPrinter) (job_num proc_num : Z) : Prop :=
  (stamped self job_num proc_num /\ ~ prev_is_time self job_num proc_num)
  \/ (~ stamped self job_num proc_num /\ prev_is_time self job_num proc_num).

(** How many calls of a history were made by process [proc_num]. *)
Definition calls_of (proc_num : Z) (calls : list (Z * Z * clock)) : Z :=
  Z.of_nat (length (List.filter (fun c : Z * Z * clock => c.1.1 =? proc_num) calls)).

(** A history in which every process reports its jobs in order: each
    call is for a job its process has, and a call for job [j > 0] comes
    after the call of the same process for job [j - 1]. *)
Definition in_order (d : dict) (calls : list (Z * Z * clock)) : Prop :=
  forall pre c post, calls = pre ++ c :: post ->
    valid_call d c /\ (0 < c.1.2 -> In (c.1.1, c.1.2 - 1) (map fst pre)).

(** How many turns a schedule gives to the worker in [slot]. *)
Definition turns_of (slot : nat) (schedule : list (nat * clock)) : nat :=
  length (List.filter (fun sc : nat * clock => Nat.eqb sc.1 slot) schedule).

(** The pool after the turns [done], when no call has raised: the shared
    printer has seen the in-order history [calls], and the worker in
    [slot], whose groups are [sec], is in its first pass, has taken one
    group per turn, as long as it had any, and reported each. *)
Definition pool_inv {obs pred : Type} (printer0 : ParallelPrinter) (d : dict)
    (secs : list (list (Z * frame obs))) (done : list (nat * clock))
    (p : pool obs pred) (calls : list (Z * Z * clock)) : Prop :=
  shared_printer p = (updates printer0 calls).1
  /\ first_failure p = None
  /\ length (workers p) = length secs
  /\ in_order d calls
  /\ (forall c, In c calls -> exists slot, c.1.1 = Z.of_nat slot /\ (slot < length secs)%nat)
  /\ forall slot w sec, workers p !! slot = Some w -> secs !! slot = Some sec ->
       let k := Nat.min (turns_of slot done) (length sec) in
       failure w = None
       /\ retried w = false
       /\ jobs w = numbered_from 0 sec
       /\ todo w = numbered_from k (drop k sec)
       /\ forall j, In (Z.of_nat slot, j) (map fst calls) <-> 0 <= j < Z.of_nat k.

(** How often the character [c] occurs in [s]. *)
Fixpoint count_char (c : ascii) (s : string) : nat :=
  match s with
  | EmptyString => 0
  | String x s' => (if Ascii.eqb x c then 1 else 0) + count_char c s'
  end.

(** The strings of [l] with [sep] between them. *)
Fixpoint str_join (sep : ascii) (l : list string) : string :=
  match l with
  | [] => EmptyString
  | [x] => x
  | x :: l' => x +:+ String sep (str_join sep l')
  end.

(** The calls of one pass of a worker over [n] groups numbered from
    [job0]: the job numbers in order, the [i]-th with the clock readings
    of the worker's call number [first + i]. *)
Definition pass_calls (proc_num : Z) (clocks : nat -> clock) (job0 first n : nat)
  : list (Z * Z * clock) :=
  map (fun i => (proc_num, Z.of_nat (job0 + i), clocks (first + i)%nat)) (seq 0 n).

(** The first call of a sequence that raises, made one after the other
    on the printer: its position and its exception. *)
Fixpoint first_raise (self : ParallelPrinter) (calls : list (Z * Z * clock))
  : option (nat * exn) :=
  match calls with
  | [] => None
  | (proc_num, job_num, now) :: calls' =>
      let r := update self proc_num job_num now in
      match raised r with
      | Some e => Some (0%nat, e)
      | None =>
          match first_raise (after r) calls' with
          | Some (m, e) => Some (S m, e)
          | None => None
          end
      end
  end.

(** The pool while worker 0 goes through its groups a second time, after
    a [TypeError] in its first pass: the printer has seen [calls], no
    worker has failed, worker 0 has reported [k] groups again, and the
    other workers are [others]. *)
Definition retry_inv {obs pred : Type} (printer0 : ParallelPrinter) (d : dict)
    (sec0 : list (Z * frame obs)) (others : list (worker obs pred))
    (calls : list (Z * Z * clock)) (k : nat) (p : pool obs pred) : Prop :=
  shared_printer p = (updates printer0 calls).1
  /\ first_failure p = None
  /\ in_order d calls
  /\ length (workers p) = length others
  /\ (exists w, workers p !! 0%nat = Some w /\ failure w = None /\ retried w = true
                /\ todo w = numbered_from k (drop k sec0))
  /\ forall slot, slot <> 0%nat -> workers p !! slot = others !! slot.

(** * Properties *)

(** ** Results and dictionaries *)

Lemma mapM_ok_map {A B : Type} (f : A -> result B) (g : A -> B) (l : list A) :
  (forall x, In x l -> f x = Ok (g x)) -> mapM f l = Ok (map g l).
Proof.
  induction l as [|a l IH]; intros Hf; simpl; [reflexivity|].
  rewrite (Hf a) by (left; reflexivity). simpl.
  rewrite IH by (intros x Hx; apply Hf; right; exact Hx).
  reflexivity.
Qed.

Lemma mapM_ok_length {A B : Type} (f : A -> result B) (l : list A) (bs : list B) :
  mapM f l = Ok bs -> length bs = length l.
Proof.
  revert bs. induction l as [|a l IH]; intros bs; simpl.
  - intros [= <-]. reflexivity.
  - destruct (f a) as [b|e]; simpl; [|discriminate].
    destruct (mapM f l) as [bs'|e]; simpl; [|discriminate].
    intros [= <-]. simpl. f_equal. apply IH. reflexivity.
Qed.

Lemma dict_get_key (d : dict) (k : Z) :
  In k (keys d) -> exists v, dict_get d k = Ok v.
Proof.
  induction d as [|[k' v'] d IH]; simpl; [intros []|].
  intros [->|Hin].
  - rewrite Z.eqb_refl. eauto.
  - destruct (k' =? k); eauto.
Qed.

Lemma dict_get_In (d : dict) (k v : Z) :
  dict_get d k = Ok v -> In (k, v) d.
Proof.
  induction d as [|[k' v'] d IH]; simpl; [discriminate|].
  destruct (k' =? k) eqn:E.
  - apply Z.eqb_eq in E as ->. intros [= ->]. left; reflexivity.
  - intros H. right. apply IH, H.
Qed.

Lemma dict_get_is_key (d : dict) (k v : Z) :
  dict_get d k = Ok v -> In k (keys d).
Proof.
  intros H. apply dict_get_In in H. unfold keys.
  change k with (fst (k, v)). apply in_map, H.
Qed.

Lemma keys_dict_set (d : dict) (k v : Z) :
  In k (keys d) -> keys (dict_set d k v) = keys d.
Proof.
  induction d as [|[k' v'] d IH]; simpl; [intros []|].
  destruct (k' =? k) eqn:E; simpl; [reflexivity|].
  intros [->|Hin]; [rewrite Z.eqb_refl in E; discriminate|].
  f_equal. apply IH, Hin.
Qed.

(** ** The progress table *)

Lemma norm_index_nonneg (len : nat) (i : Z) :
  0 <= i < Z.of_nat len -> norm_index len i = Ok (Z.to_nat i).
Proof.
  intros H. unfold norm_index.
  destruct (0 <=? i) eqn:E1; [|lia].
  destruct (i <? Z.of_nat len) eqn:E2; [reflexivity|lia].
Qed.

Lemma norm_index_lt (len : nat) (i : Z) (n : nat) :
  norm_index len i = Ok n -> (n < len)%nat.
Proof.
  unfold norm_index.
  destruct ((0 <=? i) && (i <? Z.of_nat len)) eqn:E1.
  - intros [= <-]. lia.
  - destruct ((- Z.of_nat len <=? i) && (i <? 0)) eqn:E2; [|discriminate].
    intros [= <-]. lia.
Qed.

Lemma isnull_nan_or_time (v : pyval) :
  nan_or_time v -> (isnull v = false <-> exists t, v = VTime t).
Proof.
  intros [->|[t ->]]; simpl; split; eauto; try discriminate.
  intros [t [=]].
Qed.

Lemma print_jobs_completed_tracker self now :
  job_time_tracker (after (print_jobs_completed self now)) = job_time_tracker self
  /\ proc_job_dict (after (print_jobs_completed self now)) = proc_job_dict self
  /\ proc_job_completed_dict (after (print_jobs_completed self now)) = proc_job_completed_dict self
  /\ max_jobs (after (print_jobs_completed self now)) = max_jobs self
  /\ start_time (after (print_jobs_completed self now)) = start_time self.
Proof.
  unfold print_jobs_completed.
  destruct (mapM _ _); [|simpl; auto].
  destruct (prev_print_carriage self), (format _ _); simpl; auto.
Qed.

Lemma print_jobs_completed_fields self now :
  total_procs (after (print_jobs_completed self now)) = total_procs self
  /\ parallel_message (after (print_jobs_completed self now)) = parallel_message self.
Proof.
  unfold print_jobs_completed.
  destruct (mapM _ _); [|simpl; auto].
  destruct (prev_print_carriage self), (format _ _); simpl; auto.
Qed.

(** [print_jobs_completed] writes without a newline. *)
Lemma print_jobs_completed_log self now :
  Forall (fun e => exists text, e = PrintEnd text) (log (print_jobs_completed self now)).
Proof.
  unfold print_jobs_completed.
  destruct (mapM _ _); [|constructor].
  destruct (prev_print_carriage self), (format _ _); simpl; repeat constructor; eauto.
Qed.

Lemma print_parallel_message_tracker self job_num now :
  job_time_tracker (after (print_parallel_message self job_num now)) = job_time_tracker self
  /\ proc_job_dict (after (print_parallel_message self job_num now)) = proc_job_dict self
  /\ proc_job_completed_dict (after (print_parallel_message self job_num now))
     = proc_job_completed_dict self
  /\ max_jobs (after (print_parallel_message self job_num now)) = max_jobs self
  /\ start_time (after (print_parallel_message self job_num now)) = start_time self.
Proof.
  unfold print_parallel_message.
  destruct (message_line _ _ _); simpl; [|auto].
  apply (print_jobs_completed_tracker (set_prev_print_carriage self false) now).
Qed.

Lemma wf_same_fields self self' :
  proc_job_dict self' = proc_job_dict self ->
  proc_job_completed_dict self' = proc_job_completed_dict self ->
  job_time_tracker self' = job_time_tracker self ->
  max_jobs self' = max_jobs self ->
  wf self -> wf self'.
Proof.
  intros Hd Hc Ht Hm [H1 H2 H3 H4 H5 H6 H7].
  split; rewrite ?Hd, ?Hc, ?Ht, ?Hm; assumption.
Qed.

Lemma fold_left_max_ge (xs : list Z) (a : Z) :
  a <= fold_left Z.max xs a /\ Forall (fun n => n <= fold_left Z.max xs a) xs.
Proof.
  revert a. induction xs as [|x xs IH]; intros a; simpl.
  - split; [lia|constructor].
  - destruct (IH (Z.max a x)) as [H1 H2]. split; [lia|].
    constructor; [lia|exact H2].
Qed.

Lemma py_max_ge (xs : list Z) (m : Z) :
  py_max xs = Ok m -> Forall (fun n => n <= m) xs.
Proof.
  destruct xs as [|x xs]; simpl; [discriminate|].
  intros [= <-]. destruct (fold_left_max_ge xs x) as [H1 H2].
  constructor; assumption.
Qed.

(** The constructor makes a well-shaped printer with an empty table. *)
Lemma ParallelPrinter_init_wf (N : Z) (d : dict) (self : ParallelPrinter) :
  (forall k, In k (keys d) <-> 0 <= k < Z.of_nat (length d)) ->
  ParallelPrinter_init N d = Ok self ->
  wf self /\ proc_job_dict self = d /\ total_procs self = N
  /\ start_time self = None
  /\ Forall (Forall (fun v => v = VNaN)) (cells (job_time_tracker self)).
Proof.
  intros Hk. unfold ParallelPrinter_init.
  destruct (py_max (values d)) as [mx|] eqn:Hmax; simpl; [|discriminate].
  destruct (py_min (values d)) as [mn|]; simpl; [|discriminate].
  destruct (configure_prints N) as [cfg|]; simpl; [|discriminate].
  intros [= <-].
  split; [|repeat split; simpl; try reflexivity;
            apply Forall_replicate, Forall_replicate; reflexivity].
  split; simpl.
  - exact Hk.
  - unfold keys. rewrite !map_map. reflexivity.
  - unfold keys. apply length_map.
  - apply length_replicate.
  - apply Forall_replicate. rewrite length_replicate. unfold keys. apply length_map.
  - apply Forall_replicate, Forall_replicate. left; reflexivity.
  - apply py_max_ge, Hmax.
Qed.

Lemma iloc_set_wf self job_num proc_num t df :
  wf self ->
  iloc_set (job_time_tracker self) job_num proc_num (VTime t) = Ok df ->
  wf (set_job_time_tracker self df).
Proof.
  intros [H1 H2 H3 H4 H5 H6 H7]. unfold iloc_set.
  destruct (norm_index _ job_num) as [i|]; simpl; [|discriminate].
  destruct (norm_index _ proc_num) as [j|]; simpl; [|discriminate].
  intros [= <-]. split; simpl; try assumption.
  - rewrite length_alter. exact H4.
  - apply Forall_alter; [exact H5|].
    intros row _ Hrow. rewrite length_insert. exact Hrow.
  - apply Forall_alter; [exact H6|].
    intros row _ Hrow. apply Forall_insert; [exact Hrow|]. right; eauto.
Qed.

(** [update] keeps the shape, whatever its arguments and whether or not
    it raises. *)
Lemma update_wf self proc_num job_num now :
  wf self -> wf (after (update self proc_num job_num now)).
Proof.
  intros Hwf. unfold update.
  destruct (iloc_set _ _ _ _) as [df|] eqn:Hset; simpl; [|exact Hwf].
  pose proof (iloc_set_wf _ _ _ _ _ Hwf Hset) as Hwf1.
  destruct (dict_get _ proc_num) as [c|] eqn:Hget; simpl; [|exact Hwf1].
  assert (Hwf2 : wf (set_proc_job_completed_dict (set_job_time_tracker self df)
                       (dict_set (proc_job_completed_dict self) proc_num (c + 1)))).
  { destruct Hwf1 as [H1 H2 H3 H4 H5 H6 H7]. split; simpl in *; try assumption.
    rewrite keys_dict_set; [exact H2|]. eapply dict_get_is_key, Hget. }
  destruct (row_complete _ job_num) as [[|]|]; simpl; try exact Hwf2.
  destruct (print_parallel_message_tracker
              (set_proc_job_completed_dict (set_job_time_tracker self df)
                 (dict_set (proc_job_completed_dict self) proc_num (c + 1)))
              job_num now) as (Ht & Hd & Hc & Hm & _).
  eapply wf_same_fields; eauto.
Qed.

(** ** The barrier of [update] *)

Lemma wf_row self job_num :
  wf self -> 0 <= job_num < max_jobs self ->
  exists row, cells (job_time_tracker self) !! Z.to_nat job_num = Some row
              /\ length row = length (proc_job_dict self)
              /\ Forall nan_or_time row.
Proof.
  intros Hwf Hj.
  destruct (lookup_lt_is_Some_2 (cells (job_time_tracker self)) (Z.to_nat job_num))
    as [row Hrow].
  { rewrite (wf_rows _ Hwf). lia. }
  exists row. split; [exact Hrow|]. split.
  - eapply (Forall_lookup_1 _ _ _ _ (wf_row_len _ Hwf) Hrow).
  - eapply (Forall_lookup_1 _ _ _ _ (wf_cells _ Hwf) Hrow).
Qed.

Lemma iloc_row_ok self job_num :
  wf self -> 0 <= job_num < max_jobs self ->
  exists row, iloc_row (job_time_tracker self) job_num = Ok row
              /\ cells (job_time_tracker self) !! Z.to_nat job_num = Some row
              /\ length row = length (proc_job_dict self)
              /\ Forall nan_or_time row.
Proof.
  intros Hwf Hj. destruct (wf_row _ _ Hwf Hj) as (row & Hrow & Hlen & Hcells).
  exists row. split; [|auto]. unfold iloc_row.
  rewrite norm_index_nonneg by (rewrite (wf_rows _ Hwf); lia).
  simpl. rewrite Hrow. reflexivity.
Qed.

Lemma non_min_procs_In self job_num proc :
  In proc (non_min_procs self job_num) <->
  exists n, dict_get (proc_job_dict self) proc = Ok n /\ n > job_num.
Proof.
  unfold non_min_procs. rewrite filter_In. split.
  - intros [_ H]. destruct (dict_get _ proc) as [n|]; [|discriminate].
    exists n. split; [reflexivity|]. apply Z.ltb_lt in H. lia.
  - intros (n & Hn & Hgt). split; [eapply dict_get_is_key, Hn|].
    rewrite Hn. apply Z.ltb_lt. lia.
Qed.

(** The test of [update] is exactly the barrier: in a well-shaped printer
    it does not raise, and it is true when every process with more than
    [job_num] jobs has a time in row [job_num]. *)
Lemma row_complete_spec self job_num :
  wf self -> 0 <= job_num < max_jobs self ->
  exists b, row_complete self job_num = Ok b /\
    (b = true <->
     forall slot n, dict_get (proc_job_dict self) slot = Ok n -> n > job_num ->
                    stamped self job_num slot).
Proof.
  intros Hwf Hj.
  destruct (iloc_row_ok _ _ Hwf Hj) as (row & Hiloc & Hrow & Hlen & Hcells).
  pose (g := fun c : Z => default VNone (row !! Z.to_nat c)).
  assert (Hsel : iloc_row_cols (job_time_tracker self) job_num (non_min_procs self job_num)
                 = Ok (map g (non_min_procs self job_num))).
  { unfold iloc_row_cols. rewrite Hiloc. simpl. apply mapM_ok_map.
    intros c Hc. apply non_min_procs_In in Hc as (n & Hn & _).
    apply dict_get_is_key, (wf_keys _ Hwf) in Hn.
    rewrite norm_index_nonneg by (rewrite (wf_columns _ Hwf); lia). simpl.
    destruct (lookup_lt_is_Some_2 row (Z.to_nat c)) as [v Hv]; [lia|].
    unfold g. rewrite Hv. reflexivity. }
  exists (negb (existsb isnull (map g (non_min_procs self job_num)))).
  split; [unfold row_complete; rewrite Hsel; reflexivity|].
  rewrite negb_true_iff. split.
  - intros Hex slot n Hn Hgt.
    assert (Hin : In slot (non_min_procs self job_num))
      by (apply non_min_procs_In; eauto).
    pose proof (dict_get_is_key _ _ _ Hn) as Hkey. apply (wf_keys _ Hwf) in Hkey.
    destruct (lookup_lt_is_Some_2 row (Z.to_nat slot)) as [v Hv]; [lia|].
    assert (Hnull : isnull v = false).
    { destruct (isnull v) eqn:E; [|reflexivity]. exfalso.
      assert (existsb isnull (map g (non_min_procs self job_num)) = true); [|congruence].
      apply existsb_exists. exists v. split; [|exact E].
      apply in_map_iff. exists slot. split; [|exact Hin]. unfold g. rewrite Hv. reflexivity. }
    apply isnull_nan_or_time in Hnull as [t ->].
    + exists t. unfold cell_at. rewrite Hrow. exact Hv.
    + eapply (Forall_lookup_1 _ _ _ _ Hcells Hv).
  - intros Hall. destruct (existsb _ _) eqn:E; [|reflexivity]. exfalso.
    apply existsb_exists in E as (v & Hv & Hnull).
    apply in_map_iff in Hv as (c & <- & Hc).
    apply non_min_procs_In in Hc as (n & Hn & Hgt).
    destruct (Hall c n Hn Hgt) as [t Ht]. unfold cell_at in Ht. rewrite Hrow in Ht.
    unfold g in Hnull. rewrite Ht in Hnull. discriminate.
Qed.

Lemma print_parallel_message_text self job_num now :
  Forall is_text (log (print_parallel_message self job_num now)).
Proof.
  unfold print_parallel_message.
  destruct (message_line _ _ _); simpl; [|repeat constructor].
  constructor; [exact I|]. constructor; [exact I|].
  eapply Forall_impl; [apply print_jobs_completed_log|].
  intros e [text ->]. exact I.
Qed.


Lemma row_complete_same_fields self self' job_num :
  proc_job_dict self' = proc_job_dict self ->
  job_time_tracker self' = job_time_tracker self ->
  row_complete self' job_num = row_complete self job_num.
Proof.
  intros Hd Ht. unfold row_complete, non_min_procs. rewrite Hd, Ht. reflexivity.
Qed.

(** What a call [update(proc_num, job_num)] with positions inside the
    table does: it writes the time into its cell, changes no other cell,
    and enters [print_parallel_message] when the test on the new table
    is true. *)
Lemma update_valid_eq self proc_num job_num now :
  wf self ->
  0 <= proc_num < Z.of_nat (length (proc_job_dict self)) ->
  0 <= job_num < max_jobs self ->
  exists self2 b,
    wf self2
    /\ cells (job_time_tracker self2)
       = alter (fun row => <[Z.to_nat proc_num := VTime (now_update now)]> row)
               (Z.to_nat job_num) (cells (job_time_tracker self))
    /\ proc_job_dict self2 = proc_job_dict self
    /\ max_jobs self2 = max_jobs self
    /\ start_time self2 = start_time self
    /\ parallel_message self2 = parallel_message self
    /\ row_complete self2 job_num = Ok b
    /\ update self proc_num job_num now
       = if b then
           let r := print_parallel_message self2 job_num now in
           {| after := after r;
              log := Call_print_parallel_message job_num :: log r;
              raised := raised r |}
         else {| after := self2; log := []; raised := None |}.
Proof.
  intros Hwf Hp Hj.
  set (df := {| columns := columns (job_time_tracker self);
                cells := alter (fun row => <[Z.to_nat proc_num := VTime (now_update now)]> row)
                               (Z.to_nat job_num) (cells (job_time_tracker self)) |}).
  assert (Hset : iloc_set (job_time_tracker self) job_num proc_num (VTime (now_update now))
                 = Ok df).
  { unfold iloc_set.
    rewrite norm_index_nonneg by (rewrite (wf_rows _ Hwf); lia).
    rewrite norm_index_nonneg by (rewrite (wf_columns _ Hwf); lia).
    reflexivity. }
  pose proof (iloc_set_wf _ _ _ _ _ Hwf Hset) as Hwf1.
  destruct (dict_get_key (proc_job_completed_dict (set_job_time_tracker self df)) proc_num)
    as [c Hc].
  { rewrite (wf_completed _ Hwf1). apply (wf_keys _ Hwf1). exact Hp. }
  set (self2 := set_proc_job_completed_dict (set_job_time_tracker self df)
                  (dict_set (proc_job_completed_dict (set_job_time_tracker self df))
                            proc_num (c + 1))).
  assert (Hwf2 : wf self2).
  { destruct Hwf1 as [H1 H2 H3 H4 H5 H6 H7]. split; simpl in *; try assumption.
    rewrite keys_dict_set; [exact H2|]. eapply dict_get_is_key, Hc. }
  destruct (row_complete_spec self2 job_num Hwf2 Hj) as (b & Hb & _).
  exists self2, b. split; [exact Hwf2|].
  repeat (split; [reflexivity || assumption|]).
  unfold update. cbv zeta. rewrite Hset, Hc. unfold self2 in Hb. rewrite Hb.
  destruct b; reflexivity.
Qed.

Lemma update_valid self proc_num job_num now :
  wf self ->
  0 <= proc_num < Z.of_nat (length (proc_job_dict self)) ->
  0 <= job_num < max_jobs self ->
  let r := update self proc_num job_num now in
  cells (job_time_tracker (after r))
  = alter (fun row => <[Z.to_nat proc_num := VTime (now_update now)]> row)
          (Z.to_nat job_num) (cells (job_time_tracker self))
  /\ proc_job_dict (after r) = proc_job_dict self
  /\ max_jobs (after r) = max_jobs self
  /\ start_time (after r) = start_time self
  /\ exists b, row_complete (after r) job_num = Ok b /\
       ((b = true /\ exists rest,
            log r = Call_print_parallel_message job_num :: rest /\ Forall is_text rest)
        \/ (b = false /\ log r = [] /\ raised r = None)).
Proof.
  intros Hwf Hp Hj r. subst r.
  destruct (update_valid_eq self proc_num job_num now Hwf Hp Hj)
    as (self2 & b & Hwf2 & Hcells & Hd & Hm & Hs & _ & Hb & ->).
  destruct b; cbn [after log raised].
  - destruct (print_parallel_message_tracker self2 job_num now) as (Ht & Hd' & _ & Hm' & Hs').
    rewrite Ht, Hd', Hm', Hs'. repeat split; try assumption.
    exists true. split.
    + rewrite <- Hb. apply row_complete_same_fields; assumption.
    + left. split; [reflexivity|]. eexists. split; [reflexivity|].
      apply print_parallel_message_text.
  - repeat split; try assumption. exists false. split; [exact Hb|].
    right. repeat split; reflexivity.
Qed.

Lemma cell_at_cells self self' job_num proc_num :
  cells (job_time_tracker self') = cells (job_time_tracker self) ->
  cell_at self' job_num proc_num = cell_at self job_num proc_num.
Proof. intros H. unfold cell_at. rewrite H. reflexivity. Qed.

Lemma cell_at_update self proc_num job_num now j p :
  wf self ->
  0 <= proc_num < Z.of_nat (length (proc_job_dict self)) ->
  0 <= job_num < max_jobs self ->
  0 <= j -> 0 <= p ->
  cell_at (after (update self proc_num job_num now)) j p
  = if bool_decide (j = job_num /\ p = proc_num) then Some (VTime (now_update now))
    else cell_at self j p.
Proof.
  intros Hwf Hp Hj Hj0 Hp0.
  destruct (update_valid self proc_num job_num now Hwf Hp Hj) as (Hcells & _).
  destruct (wf_row _ _ Hwf Hj) as (row & Hrow & Hlen & _).
  unfold cell_at. rewrite Hcells.
  destruct (decide (Z.to_nat j = Z.to_nat job_num)) as [Ej|Ej].
  - rewrite Ej, list_lookup_alter_eq, Hrow. simpl.
    assert (j = job_num) as -> by lia.
    destruct (decide (p = proc_num)) as [->|Ep].
    + rewrite bool_decide_eq_true_2 by auto.
      apply list_lookup_insert_eq. lia.
    + rewrite bool_decide_eq_false_2 by (intros [_ ?]; contradiction).
      apply list_lookup_insert_ne. lia.
  - rewrite list_lookup_alter_ne by congruence.
    rewrite bool_decide_eq_false_2; [reflexivity|].
    intros [-> _]. contradiction.
Qed.

Lemma update_fields self proc_num job_num now :
  proc_job_dict (after (update self proc_num job_num now)) = proc_job_dict self
  /\ max_jobs (after (update self proc_num job_num now)) = max_jobs self
  /\ start_time (after (update self proc_num job_num now)) = start_time self
  /\ total_procs (after (update self proc_num job_num now)) = total_procs self
  /\ parallel_message (after (update self proc_num job_num now)) = parallel_message self.
Proof.
  unfold update.
  destruct (iloc_set _ _ _ _) as [df|]; cbn [after]; [|auto].
  destruct (dict_get _ proc_num) as [c|]; cbn [after]; [|auto].
  destruct (row_complete _ job_num) as [[|]|]; cbn [after]; auto.
  unfold print_parallel_message.
  destruct (message_line _ _ _); cbn [after]; auto.
  destruct (print_jobs_completed_tracker (set_prev_print_carriage
              (set_proc_job_completed_dict (set_job_time_tracker self df)
                 (dict_set (proc_job_completed_dict (set_job_time_tracker self df))
                           proc_num (c + 1))) false) now) as (_ & H1 & _ & H2 & H3).
  destruct (print_jobs_completed_fields (set_prev_print_carriage
              (set_proc_job_completed_dict (set_job_time_tracker self df)
                 (dict_set (proc_job_completed_dict (set_job_time_tracker self df))
                           proc_num (c + 1))) false) now) as (H4 & H5).
  rewrite H1, H2, H3, H4, H5. auto.
Qed.

Lemma updates_wf calls : forall self,
  wf self ->
  wf (updates self calls).1
  /\ proc_job_dict (updates self calls).1 = proc_job_dict self
  /\ max_jobs (updates self calls).1 = max_jobs self
  /\ start_time (updates self calls).1 = start_time self.
Proof.
  induction calls as [|[[p j] now] calls IH]; intros self Hwf; simpl; [auto|].
  destruct (updates (after (update self p j now)) calls) as [self' evs] eqn:E.
  destruct (IH (after (update self p j now)) (update_wf _ _ _ _ Hwf))
    as (H1 & H2 & H3 & H4).
  rewrite E in *. simpl in *.
  destruct (update_fields self p j now) as (F1 & F2 & F3 & _).
  rewrite H2, H3, H4. auto.
Qed.

Lemma In_range (a b k : Z) : In k (range a b) <-> a <= k < b.
Proof.
  unfold range. rewrite in_map_iff. split.
  - intros (i & <- & Hi). apply in_seq in Hi. lia.
  - intros H. exists (Z.to_nat (k - a)). split; [lia|]. apply in_seq. lia.
Qed.

Lemma length_range (a b : Z) : length (range a b) = Z.to_nat (b - a).
Proof. unfold range. rewrite length_map, length_seq. reflexivity. Qed.

Lemma keys_range_slots (N : Z) (d : dict) :
  keys d = range 0 N ->
  Z.of_nat (length d) = Z.max 0 N
  /\ forall k, In k (keys d) <-> 0 <= k < Z.of_nat (length d).
Proof.
  intros Hk.
  assert (Hlen : length d = Z.to_nat N).
  { rewrite <- (length_map fst d). fold (keys d). rewrite Hk, length_range. f_equal; lia. }
  split; [lia|]. intros k. rewrite Hk, In_range. lia.
Qed.

Lemma print_parallel_message_log_head self job_num now :
  exists rest, log (print_parallel_message self job_num now) = PrintEnd CR :: rest.
Proof.
  unfold print_parallel_message. destruct (message_line _ _ _); cbn [log]; eauto.
Qed.

(** A call [update(proc_num, job_num)] on a printer made for [N >= 1]
    processes with any job dictionary, after any earlier calls, records
    the time of the call and enters [print_parallel_message] for [job_num]
    if and only if, after the call, every process that has more than
    [job_num] jobs has a completion time in row [job_num]; processes with
    [job_num] or fewer jobs are not looked at.  When it does not, nothing
    is written; when it does, the carriage return of
    [print_parallel_message] is written, whether or not the line of the
    job follows. *)
Lemma update_enters_iff_barrier
    (N : Z) (d : dict) (self0 : ParallelPrinter) (calls : list (Z * Z * clock))
    (proc_num job_num : Z) (now : clock) :
  1 <= N ->
  keys d = range 0 N ->
  ParallelPrinter_init N d = Ok self0 ->
  0 <= proc_num < N ->
  0 <= job_num < max_jobs self0 ->
  let self := (updates self0 calls).1 in
  let r := update self proc_num job_num now in
  stamped (after r) job_num proc_num
  /\ (In (Call_print_parallel_message job_num) (log r) <->
      forall slot n, dict_get d slot = Ok n -> n > job_num ->
                     stamped (after r) job_num slot)
  /\ (log r = [] /\ raised r = None
      \/ exists rest, log r = Call_print_parallel_message job_num :: PrintEnd CR :: rest).
Proof.
  intros HN Hk Hinit Hp Hj self r.
  destruct (keys_range_slots N d Hk) as [Hlen Hkeys].
  destruct (ParallelPrinter_init_wf N d self0 Hkeys Hinit) as (Hwf0 & Hd0 & _).
  destruct (updates_wf calls self0 Hwf0) as (Hwf & Hd & Hm & _). fold self in Hwf, Hd, Hm.
  assert (Hp' : 0 <= proc_num < Z.of_nat (length (proc_job_dict self))).
  { rewrite Hd, Hd0. lia. }
  assert (Hj' : 0 <= job_num < max_jobs self) by (rewrite Hm; exact Hj).
  split; [|split].
  - exists (now_update now). subst r.
    rewrite cell_at_update by (auto; lia).
    rewrite bool_decide_eq_true_2; auto.
  - pose proof (update_wf self proc_num job_num now Hwf) as Hwf'.
    destruct (update_valid self proc_num job_num now Hwf Hp' Hj')
      as (_ & Hd' & Hm' & _ & b & Hb & Hlog). fold r in Hwf', Hd', Hm', Hb, Hlog.
    assert (Hj'' : 0 <= job_num < max_jobs (after r)) by (rewrite Hm'; exact Hj').
    destruct (row_complete_spec (after r) job_num Hwf' Hj'') as (b' & Hb' & Hspec).
    rewrite Hb in Hb'. injection Hb' as <-.
    rewrite Hd', Hd, Hd0 in Hspec. rewrite <- Hspec.
    destruct Hlog as [(-> & rest & -> & _)|(-> & -> & _)].
    + split; [reflexivity|]. intros _. left; reflexivity.
    + split; [intros []|discriminate].
  - destruct (update_valid_eq self proc_num job_num now Hwf Hp' Hj')
      as (self2 & b & _ & _ & _ & _ & _ & _ & _ & Hupd).
    subst r. rewrite Hupd. destruct b; cbn [log raised]; [right|left; auto].
    destruct (print_parallel_message_log_head self2 job_num now) as [rest ->]. eauto.
Qed.

(** C1, at an input the code does not handle: two processes with 3 and 2
    jobs that report their jobs in order.  The call [update(0, 2)]
    completes row 2, as process 1 has no job there, and
    [print_parallel_message(2)] is entered; it writes its carriage return
    and raises [TypeError] where it subtracts the time process 1 has in
    row 1 from the [nan] it has in row 2.  The call prints no line for
    job 2, though every process with more than 2 jobs has its time in
    the row.  The call before, [update(1, 1)], completes row 1 and prints
    its line. *)
Theorem complete_row_without_report :
  exists self0,
    ParallelPrinter_init 2 [(0, 3); (1, 2)] = Ok self0
    /\ let started := after (print_notify_parallel_begin self0 100) in
       let self1 := (updates started [(0, 0, tick 105); (1, 0, tick 106);
                                      (0, 1, tick 107)]).1 in
       let r1 := update self1 1 1 (tick 108) in
       let r := update (after r1) 0 2 (tick 109) in
       barrier (after r1) 1
       /\ raised r1 = None
       /\ (exists line rest,
             log r1 = Call_print_parallel_message 1 :: PrintEnd CR :: PrintLn line :: rest)
       /\ barrier (after r) 2
       /\ row_complete (after r) 2 = Ok true
       /\ log r = [Call_print_parallel_message 2; PrintEnd CR]
       /\ raised r = Some TypeError.
Proof.
  eexists. split; [vm_compute; reflexivity|].
  cbv zeta.
  assert (Hbar : forall (self : ParallelPrinter) (K : Z),
             proc_job_dict self = [(0, 3); (1, 2)] ->
             (forall slot, slot = 0 \/ (slot = 1 /\ 2 > K) -> stamped self K slot) ->
             barrier self K).
  { intros self K Hd Hst slot n Hn Hgt. rewrite Hd in Hn. cbn [dict_get] in Hn.
    apply Hst.
    destruct (0 =? slot) eqn:E0; [apply Z.eqb_eq in E0; auto|].
    destruct (1 =? slot) eqn:E1; [|discriminate].
    apply Z.eqb_eq in E1. injection Hn as <-. right. split; [auto|lia]. }
  split; [|split; [|split; [|split; [|split; [|split]]]]].
  - apply Hbar; [vm_compute; reflexivity|].
    intros slot [->|[-> _]]; eexists; vm_compute; reflexivity.
  - vm_compute; reflexivity.
  - eexists. eexists. vm_compute. reflexivity.
  - apply Hbar; [vm_compute; reflexivity|].
    intros slot [->|[-> H]]; [eexists; vm_compute; reflexivity|lia].
  - vm_compute; reflexivity.
  - vm_compute; reflexivity.
  - vm_compute; reflexivity.
Qed.


(** ** At most one report per job *)

Lemma reports_of_app K evs1 evs2 :
  reports_of K (evs1 ++ evs2) = (reports_of K evs1 + reports_of K evs2)%nat.
Proof. unfold reports_of. rewrite List.filter_app, length_app. reflexivity. Qed.

Lemma reports_of_text K evs : Forall is_text evs -> reports_of K evs = 0%nat.
Proof.
  unfold reports_of. induction 1 as [|e evs He _ IH]; simpl; [reflexivity|].
  destruct e; simpl in *; [contradiction|exact IH|exact IH].
Qed.

Lemma valid_call_in_table self c :
  wf self -> valid_call (proc_job_dict self) c ->
  0 <= c.1.1 < Z.of_nat (length (proc_job_dict self)) /\ 0 <= c.1.2 < max_jobs self.
Proof.
  intros Hwf (n & Hn & Hj). split.
  - apply (wf_keys _ Hwf). eapply dict_get_is_key, Hn.
  - pose proof (wf_max _ Hwf) as Hmax. rewrite Forall_forall in Hmax.
    assert (n <= max_jobs self); [|lia].
    apply Hmax. apply list_elem_of_In. unfold values.
    change n with (snd (c.1.1, n)). apply in_map. apply dict_get_In, Hn.
Qed.

Lemma stamped_update self proc_num job_num now j p :
  wf self ->
  0 <= proc_num < Z.of_nat (length (proc_job_dict self)) ->
  0 <= job_num < max_jobs self ->
  0 <= j -> 0 <= p ->
  stamped (after (update self proc_num job_num now)) j p <->
  stamped self j p \/ (j = job_num /\ p = proc_num).
Proof.
  intros Hwf Hp Hj Hj0 Hp0. unfold stamped.
  rewrite cell_at_update by assumption.
  destruct (decide (j = job_num /\ p = proc_num)) as [E|E].
  - rewrite bool_decide_eq_true_2 by exact E. split; eauto.
  - rewrite bool_decide_eq_false_2 by exact E. split; [auto|].
    intros [H|H]; [exact H|contradiction].
Qed.

Lemma written_by_update self H proc_num job_num now :
  wf self ->
  0 <= proc_num < Z.of_nat (length (proc_job_dict self)) ->
  0 <= job_num < max_jobs self ->
  written_by self H ->
  written_by (after (update self proc_num job_num now)) (H ++ [(proc_num, job_num)]).
Proof.
  intros Hwf Hp Hj Hinv j p Hj0 Hp0 Hst. apply in_or_app.
  apply stamped_update in Hst as [Hst|[-> ->]]; auto.
  right. left. reflexivity.
Qed.

Lemma barrier_update self K proc_num job_num now :
  wf self ->
  0 <= proc_num < Z.of_nat (length (proc_job_dict self)) ->
  0 <= job_num < max_jobs self ->
  0 <= K ->
  barrier self K -> barrier (after (update self proc_num job_num now)) K.
Proof.
  intros Hwf Hp Hj HK Hbar slot n Hn Hgt.
  destruct (update_fields self proc_num job_num now) as (Hd & _).
  rewrite Hd in Hn.
  pose proof (dict_get_is_key _ _ _ Hn) as Hkey. apply (wf_keys _ Hwf) in Hkey.
  apply stamped_update; try assumption; try lia. left. eauto.
Qed.

(** Once the barrier of [K] holds and every time in the table comes from
    a call of the history, no later call reports [K]: a call for [K] by a
    process that has such a job would repeat a pair of the history. *)
Lemma no_report_after_barrier K calls : forall self H,
  wf self ->
  Forall (valid_call (proc_job_dict self)) calls ->
  NoDup (H ++ map fst calls) ->
  written_by self H ->
  barrier self K ->
  reports_of K (updates self calls).2 = 0%nat.
Proof.
  induction calls as [|[[p j] now] calls IH]; intros self H Hwf Hvalid Hnodup Hinv Hbar;
    simpl; [reflexivity|].
  apply Forall_cons in Hvalid as [Hv Hvalid].
  destruct (valid_call_in_table self _ Hwf Hv) as [Hp Hj]. simpl in Hp, Hj.
  destruct (updates (after (update self p j now)) calls) as [self' evs] eqn:E. simpl.
  rewrite reports_of_app.
  destruct (update_fields self p j now) as (Hd & _).
  assert (Hrest : reports_of K evs = 0%nat).
  { destruct (decide (0 <= K)) as [HK|HK].
    - replace evs with (updates (after (update self p j now)) calls).2 by (rewrite E; reflexivity).
      apply (IH _ (H ++ [(p, j)])).
      + apply update_wf, Hwf.
      + rewrite Hd. exact Hvalid.
      + rewrite <- app_assoc. exact Hnodup.
      + apply written_by_update; assumption.
      + apply barrier_update; assumption.
    - replace evs with (updates (after (update self p j now)) calls).2 by (rewrite E; reflexivity).
      clear -HK Hvalid Hwf Hd.
      assert (Hwf' := update_wf self p j now Hwf).
      rewrite <- Hd in Hvalid.
      revert Hwf' Hvalid. generalize (after (update self p j now)). clear -HK.
      induction calls as [|[[p' j'] now'] calls IH]; intros self Hwf Hvalid; simpl;
        [reflexivity|].
      apply Forall_cons in Hvalid as [Hv Hvalid].
      destruct (valid_call_in_table self _ Hwf Hv) as [Hp Hj]. simpl in Hp, Hj.
      destruct (updates (after (update self p' j' now')) calls) as [self' evs] eqn:E. simpl.
      rewrite reports_of_app.
      destruct (update_fields self p' j' now') as (Hd & _).
      specialize (IH (after (update self p' j' now')) (update_wf _ _ _ _ Hwf)).
      rewrite Hd, E in IH. simpl in IH. rewrite (IH Hvalid).
      destruct (update_valid self p' j' now' Hwf Hp Hj) as (_ & _ & _ & _ & b & _ & Hlog).
      destruct Hlog as [(_ & rest & -> & Htext)|(_ & -> & _)]; [|reflexivity].
      unfold reports_of in *. simpl. destruct (j' =? K) eqn:EK; [lia|].
      fold (reports_of K rest). rewrite reports_of_text by exact Htext. reflexivity. }
  rewrite Hrest, Nat.add_0_r.
  destruct (update_valid self p j now Hwf Hp Hj) as (_ & _ & _ & _ & b & _ & Hlog).
  destruct Hlog as [(_ & rest & -> & Htext)|(_ & -> & _)]; [|reflexivity].
  unfold reports_of. simpl. destruct (j =? K) eqn:EK.
  - exfalso. apply Z.eqb_eq in EK as ->.
    destruct Hv as (n & Hn & Hjn). simpl in Hn, Hjn.
    assert (Hst : stamped self K p) by (apply (Hbar p n Hn); lia).
    apply Hinv in Hst; [|lia|lia].
    simpl in Hnodup. apply NoDup_app in Hnodup as (_ & Hdisj & _).
    apply (Hdisj (p, K)); [apply list_elem_of_In, Hst|left].
  - fold (reports_of K rest). apply reports_of_text, Htext.
Qed.

Lemma reports_at_most_once_from K calls : forall self H,
  wf self ->
  Forall (valid_call (proc_job_dict self)) calls ->
  NoDup (H ++ map fst calls) ->
  written_by self H ->
  (reports_of K (updates self calls).2 <= 1)%nat.
Proof.
  induction calls as [|[[p j] now] calls IH]; intros self H Hwf Hvalid Hnodup Hinv;
    simpl; [unfold reports_of; simpl; lia|].
  pose proof Hvalid as Hvalid0.
  apply Forall_cons in Hvalid as [Hv Hvalid].
  destruct (valid_call_in_table self _ Hwf Hv) as [Hp Hj]. simpl in Hp, Hj.
  destruct (updates (after (update self p j now)) calls) as [self' evs] eqn:E. simpl.
  rewrite reports_of_app.
  destruct (update_fields self p j now) as (Hd & _).
  pose proof (update_wf self p j now Hwf) as Hwf'.
  assert (Hvalid' : Forall (valid_call (proc_job_dict (after (update self p j now)))) calls)
    by (rewrite Hd; exact Hvalid).
  assert (Hnodup' : NoDup ((H ++ [(p, j)]) ++ map fst calls))
    by (rewrite <- app_assoc; exact Hnodup).
  pose proof (written_by_update self H p j now Hwf Hp Hj Hinv) as Hinv'.
  replace evs with (updates (after (update self p j now)) calls).2 by (rewrite E; reflexivity).
  destruct (update_valid self p j now Hwf Hp Hj) as (_ & _ & Hm & _ & b & Hb & Hlog).
  destruct Hlog as [(-> & rest & -> & Htext)|(_ & -> & _)].
  - unfold reports_of at 1. simpl. destruct (j =? K) eqn:EK.
    + apply Z.eqb_eq in EK as ->. simpl. fold (reports_of K rest).
      rewrite (reports_of_text K rest Htext).
      rewrite (no_report_after_barrier K calls _ _ Hwf' Hvalid' Hnodup' Hinv'); [lia|].
      assert (HK : 0 <= K < max_jobs (after (update self p K now))) by (rewrite Hm; exact Hj).
      destruct (row_complete_spec _ K Hwf' HK) as (b' & Hb' & Hspec).
      rewrite Hb in Hb'. injection Hb' as <-. unfold barrier. apply Hspec. reflexivity.
    + fold (reports_of K rest). rewrite (reports_of_text K rest Htext). simpl.
      apply (IH _ _ Hwf' Hvalid' Hnodup' Hinv').
  - simpl. apply (IH _ _ Hwf' Hvalid' Hnodup' Hinv').
Qed.

Lemma written_by_init N d self :
  (forall k, In k (keys d) <-> 0 <= k < Z.of_nat (length d)) ->
  ParallelPrinter_init N d = Ok self -> written_by self [].
Proof.
  intros Hk Hinit j p _ _ [t Ht].
  destruct (ParallelPrinter_init_wf N d self Hk Hinit) as (_ & _ & _ & _ & Hnan).
  unfold cell_at in Ht.
  destruct (cells (job_time_tracker self) !! Z.to_nat j) as [row|] eqn:Hrow; [|discriminate].
  pose proof (Forall_lookup_1 _ _ _ _ Hnan Hrow) as Hr.
  pose proof (Forall_lookup_1 _ _ _ _ Hr Ht) as Hv. discriminate.
Qed.

(** C2. On a printer made for [N >= 1] processes, in any sequence of
    [update] calls in which every call is for a job its process has and no
    pair of process and job occurs twice, [print_parallel_message] is
    entered at most once for any job index. *)
Theorem report_at_most_once
    (N : Z) (d : dict) (self0 : ParallelPrinter) (calls : list (Z * Z * clock)) (K : Z) :
  1 <= N ->
  keys d = range 0 N ->
  ParallelPrinter_init N d = Ok self0 ->
  Forall (valid_call d) calls ->
  NoDup (map fst calls) ->
  (reports_of K (updates self0 calls).2 <= 1)%nat.
Proof.
  intros HN Hk Hinit Hvalid Hnodup.
  destruct (keys_range_slots N d Hk) as [_ Hkeys].
  destruct (ParallelPrinter_init_wf N d self0 Hkeys Hinit) as (Hwf0 & Hd0 & _).
  apply (reports_at_most_once_from K calls self0 []).
  - exact Hwf0.
  - rewrite Hd0. exact Hvalid.
  - exact Hnodup.
  - eapply written_by_init; eassumption.
Qed.

Lemma report_at_most_once_witness :
  exists self0,
    ParallelPrinter_init 2 [(0, 3); (1, 2)] = Ok self0 /\
    (reports_of 0%Z (updates self0 ([(0, 0, tick 5); (1, 0, tick 7); (0, 1, tick 9);
                                     (1, 1, tick 11)])%Z).2 <= 1)%nat.
Proof.
  eexists. split; [vm_compute; reflexivity|].
  apply (report_at_most_once 2 [(0, 3); (1, 2)]).
  - lia.
  - reflexivity.
  - vm_compute; reflexivity.
  - repeat constructor; unfold valid_call; simpl; eexists; (split; [reflexivity|lia]).
  - apply (bool_decide_unpack _). vm_compute. exact I.
Defined.

(** The hypothesis on the job is needed: a call for a job index the
    process does not have is accepted by the table and reports the row
    again. *)
Example report_twice_outside_partition :
  exists self0,
    ParallelPrinter_init 2 [(0, 3); (1, 2)] = Ok self0 /\
    reports_of 2 (updates self0 [(0, 2, tick 5); (1, 2, tick 7)]).2 = 2%nat.
Proof. eexists. split; [vm_compute; reflexivity|]. vm_compute. reflexivity. Qed.

(** ** Calls that are not serialized *)

(** [update] is its two halves one after the other. *)
Lemma update_record_then_report self proc_num job_num now :
  update self proc_num job_num now
  = match raised (update_record self proc_num job_num now) with
    | Some _ => update_record self proc_num job_num now
    | None => update_report (after (update_record self proc_num job_num now)) job_num now
    end.
Proof.
  unfold update, update_record, update_report.
  destruct (iloc_set _ _ _ _) as [df|]; cbn [raised after]; [|reflexivity].
  destruct (dict_get _ proc_num) as [c|]; cbn [raised after]; reflexivity.
Qed.

(** Nothing in [update] keeps two calls apart.  If the manager runs the
    recording half of two calls for the same job before the test of
    either, both tests find the row complete and both report it. *)
Example interleaved_updates_report_twice :
  exists self0,
    ParallelPrinter_init 2 [(0, 1); (1, 1)] = Ok self0 /\
    let s0 := after (print_notify_parallel_begin self0 100) in
    let s1 := after (update_record s0 0 0 (tick 105)) in
    let s2 := after (update_record s1 1 0 (tick 105)) in
    let r3 := update_report s2 0 (tick 105) in
    let r4 := update_report (after r3) 0 (tick 106) in
    reports_of 0 (log r3 ++ log r4) = 2%nat.
Proof. eexists. split; [vm_compute; reflexivity|]. vm_compute. reflexivity. Qed.

(** ** What [print_parallel_message] computes *)

Lemma mapM_lookup {A B : Type} (f : A -> result B) (l : list A) (bs : list B) :
  mapM f l = Ok bs ->
  forall i a, l !! i = Some a -> exists b, bs !! i = Some b /\ f a = Ok b.
Proof.
  revert bs. induction l as [|a0 l IH]; intros bs; simpl.
  - intros _ i a Hi. rewrite lookup_nil in Hi. discriminate.
  - destruct (f a0) as [b0|] eqn:Hb0; simpl; [|discriminate].
    destruct (mapM f l) as [bs'|] eqn:Hbs; simpl; [|discriminate].
    intros [= <-] i a Hi. destruct i as [|i]; simpl in *.
    + injection Hi as <-. eauto.
    + eapply IH; eauto.
Qed.

Lemma mapM_In {A B : Type} (f : A -> result B) (l : list A) (bs : list B) :
  mapM f l = Ok bs ->
  forall b, In b bs -> exists a, In a l /\ f a = Ok b.
Proof.
  revert bs. induction l as [|a0 l IH]; intros bs; simpl.
  - intros [= <-] b [].
  - destruct (f a0) as [b0|] eqn:Hb0; simpl; [|discriminate].
    destruct (mapM f l) as [bs'|] eqn:Hbs; simpl; [|discriminate].
    intros [= <-] b [<-|Hb]; [eauto|].
    destruct (IH bs' eq_refl b Hb) as (a & Ha & Hfa). eauto.
Qed.

Lemma np_where_all_true (cond : list bool) (xs : list split) (y : split) :
  Forall (fun b => b = true) cond -> (length xs <= length cond)%nat ->
  np_where cond xs y = xs.
Proof.
  unfold np_where. revert xs. induction cond as [|b cond IH]; intros xs Hc Hlen.
  - destruct xs; [reflexivity|simpl in Hlen; lia].
  - apply Forall_cons in Hc as [-> Hc]. destruct xs as [|x xs]; [reflexivity|].
    simpl. f_equal. apply IH; [exact Hc|simpl in Hlen; lia].
Qed.

Lemma py_sub_not_str (a b : pyval) (x : split) (s : string) :
  py_sub a b = Ok x -> x <> SStr s.
Proof. destruct a, b; simpl; intros [= <-]; discriminate. Qed.


Lemma py_sub_nan (b : pyval) (x : split) :
  py_sub VNaN b = Ok x -> x = SNaN.
Proof. destruct b; simpl; intros [= <-]; reflexivity. Qed.

Lemma ne_minus_one_nan_or_time (v : pyval) : nan_or_time v -> ne_minus_one v = true.
Proof. intros [->|[t ->]]; reflexivity. Qed.

Lemma iloc_row_In (df : DataFrame) (r : Z) (row : list pyval) :
  iloc_row df r = Ok row -> In row (cells df).
Proof.
  unfold iloc_row. destruct (norm_index _ r) as [i|]; simpl; [|discriminate].
  destruct (cells df !! i) as [row'|] eqn:E; [|discriminate].
  intros [= <-]. apply list_elem_of_In. eapply list_elem_of_lookup_2, E.
Qed.

(** The guard [current_job_times != -1] is true on every cell of every
    row of a well-shaped table. *)
Lemma guard_true self job_num row :
  wf self -> iloc_row (job_time_tracker self) job_num = Ok row ->
  Forall (fun b => b = true) (map ne_minus_one row).
Proof.
  intros Hwf Hrow. apply iloc_row_In in Hrow.
  pose proof (wf_cells _ Hwf) as Hc. rewrite Forall_forall in Hc.
  specialize (Hc row (proj2 (list_elem_of_In _ _) Hrow)).
  apply Forall_map. eapply Forall_impl; [exact Hc|].
  intros v Hv. apply ne_minus_one_nan_or_time, Hv.
Qed.

(** So [np.where] keeps every difference: [splits] is the list of the
    differences themselves. *)
Lemma job_splits_diffs self job_num splits :
  wf self -> job_splits self job_num = Ok splits ->
  exists cur,
    iloc_row (job_time_tracker self) job_num = Ok cur /\
    if job_num =? 0 then
      mapM (fun c => py_sub c (match start_time self with
                               | Some t => VTime t | None => VNone end)) cur = Ok splits
    else
      exists prev, iloc_row (job_time_tracker self) (job_num - 1) = Ok prev /\
        mapM (fun cp : pyval * pyval => py_sub cp.1 cp.2) (combine cur prev) = Ok splits.
Proof.
  intros Hwf. unfold job_splits. destruct (job_num =? 0).
  - destruct (iloc_row _ job_num) as [cur|] eqn:Hcur; simpl; [|discriminate].
    destruct (mapM _ cur) as [diffs|] eqn:Hd; simpl; [|discriminate].
    intros [= <-]. exists cur. split; [reflexivity|].
    rewrite np_where_all_true; [exact Hd|eapply guard_true; eauto|].
    rewrite length_map. apply mapM_ok_length in Hd. lia.
  - destruct (iloc_row _ (job_num - 1)) as [prev|] eqn:Hprev; simpl; [|discriminate].
    destruct (iloc_row _ job_num) as [cur|] eqn:Hcur; simpl; [|discriminate].
    destruct (mapM _ (combine cur prev)) as [diffs|] eqn:Hd; simpl; [|discriminate].
    intros [= <-]. exists cur. split; [reflexivity|]. exists prev. split; [reflexivity|].
    rewrite np_where_all_true; [exact Hd|eapply guard_true; eauto|].
    rewrite length_map. apply mapM_ok_length in Hd. rewrite length_combine in Hd. lia.
Qed.

Lemma job_splits_no_placeholder self job_num splits :
  wf self -> job_splits self job_num = Ok splits -> ~ In (SStr "-") splits.
Proof.
  intros Hwf Hs Hin.
  destruct (job_splits_diffs _ _ _ Hwf Hs) as (cur & _ & H).
  destruct (job_num =? 0).
  - destruct (mapM_In _ _ _ H _ Hin) as (a & _ & Ha).
    eapply py_sub_not_str; eauto.
  - destruct H as (prev & _ & H).
    destruct (mapM_In _ _ _ H _ Hin) as (a & _ & Ha).
    eapply py_sub_not_str; eauto.
Qed.

(** Cell by cell, for a row inside the table. *)
Lemma job_splits_lookup self job_num splits :
  wf self -> 0 <= job_num < max_jobs self ->
  job_splits self job_num = Ok splits ->
  length splits = length (proc_job_dict self) /\
  forall slot, 0 <= slot < Z.of_nat (length (proc_job_dict self)) ->
    exists c p x,
      cell_at self job_num slot = Some c /\ prev_cell self job_num slot = Some p /\
      py_sub c p = Ok x /\ splits !! Z.to_nat slot = Some x.
Proof.
  intros Hwf Hj Hs.
  destruct (job_splits_diffs _ _ _ Hwf Hs) as (cur & Hcur & H).
  destruct (iloc_row_ok _ _ Hwf Hj) as (cur' & Hcur' & Hrow & Hlen & _).
  rewrite Hcur in Hcur'. injection Hcur' as <-.
  unfold prev_cell, cell_at. rewrite Hrow.
  destruct (job_num =? 0) eqn:E0.
  - split; [apply mapM_ok_length in H; lia|]. intros slot Hslot.
    destruct (lookup_lt_is_Some_2 cur (Z.to_nat slot)) as [c Hc]; [lia|].
    destruct (mapM_lookup _ _ _ H _ _ Hc) as (x & Hx & Hsub).
    eauto 10.
  - destruct H as (prev & Hprev & H).
    assert (Hj' : 0 <= job_num - 1 < max_jobs self) by (apply Z.eqb_neq in E0; lia).
    destruct (iloc_row_ok _ _ Hwf Hj') as (prev' & Hprev' & Hrowp & Hlenp & _).
    rewrite Hprev in Hprev'. injection Hprev' as <-. rewrite Hrowp.
    split; [apply mapM_ok_length in H; rewrite length_combine in H; lia|].
    intros slot Hslot.
    destruct (lookup_lt_is_Some_2 cur (Z.to_nat slot)) as [c Hc]; [lia|].
    destruct (lookup_lt_is_Some_2 prev (Z.to_nat slot)) as [p Hp]; [lia|].
    assert (Hcp : combine cur prev !! Z.to_nat slot = Some (c, p)).
    { change (zip cur prev !! Z.to_nat slot = Some (c, p)).
      rewrite lookup_zip_with, Hc. simpl. rewrite Hp. reflexivity. }
    destruct (mapM_lookup _ _ _ H _ _ Hcp) as (x & Hx & Hsub).
    eauto 10.
Qed.

Lemma written_by_updates calls : forall self H,
  wf self ->
  Forall (valid_call (proc_job_dict self)) calls ->
  written_by self H ->
  written_by (updates self calls).1 (H ++ map fst calls).
Proof.
  induction calls as [|[[p j] now] calls IH]; intros self H Hwf Hvalid Hinv; simpl.
  - rewrite app_nil_r. exact Hinv.
  - apply Forall_cons in Hvalid as [Hv Hvalid].
    destruct (valid_call_in_table self _ Hwf Hv) as [Hp Hj]. simpl in Hp, Hj.
    destruct (update_fields self p j now) as (Hd & _).
    specialize (IH (after (update self p j now)) (H ++ [(p, j)])
                   (update_wf _ _ _ _ Hwf)).
    rewrite Hd in IH. specialize (IH Hvalid (written_by_update _ _ _ _ _ Hwf Hp Hj Hinv)).
    destruct (updates (after (update self p j now)) calls) as [self' evs].
    simpl in *. rewrite <- app_assoc in IH. exact IH.
Qed.

Lemma print_notify_parallel_begin_wf self now :
  wf self -> wf (after (print_notify_parallel_begin self now)).
Proof. intros H. eapply wf_same_fields; [..|exact H]; reflexivity. Qed.

(** The states of the shared printer between two calls: made by the
    constructor for processes [0 .. N-1], started, then updated. *)
Lemma started_printer N d self0 t0 calls :
  1 <= N -> keys d = range 0 N -> ParallelPrinter_init N d = Ok self0 ->
  let self := (updates (after (print_notify_parallel_begin self0 t0)) calls).1 in
  wf self /\ proc_job_dict self = d /\ max_jobs self = max_jobs self0
  /\ start_time self = Some t0 /\ Z.of_nat (length d) = N
  /\ (Forall (valid_call d) calls -> written_by self (map fst calls)).
Proof.
  intros HN Hk Hinit self.
  destruct (keys_range_slots N d Hk) as [Hlen Hkeys].
  destruct (ParallelPrinter_init_wf N d self0 Hkeys Hinit) as (Hwf0 & Hd0 & _).
  pose proof (print_notify_parallel_begin_wf self0 t0 Hwf0) as Hwf1.
  destruct (updates_wf calls _ Hwf1) as (Hwf & Hd & Hm & Hs). fold self in Hwf, Hd, Hm, Hs.
  split; [exact Hwf|]. split; [rewrite Hd; exact Hd0|]. split; [exact Hm|].
  split; [exact Hs|]. split; [lia|].
  intros Hvalid.
  apply (written_by_updates calls (after (print_notify_parallel_begin self0 t0)) []).
  - exact Hwf1.
  - simpl. rewrite Hd0. exact Hvalid.
  - intros j p Hj0 Hp0 Hst.
    exact (written_by_init N d self0 Hkeys Hinit j p Hj0 Hp0 Hst).
Qed.

(** C10. In every state the shared printer can be in when
    [print_parallel_message] runs, the guard [current_job_times != -1] is
    true on every cell of the row, as a cell holds [nan] or a time; so
    [np.where] never takes the ['-'] branch; and a process that has no job
    at the reported index has [nan] in its cell, from which its entry is
    computed ([nan] when the line is printed), not ['-']. *)
Theorem placeholder_branch_unreachable
    (N : Z) (d : dict) (self0 : ParallelPrinter) (t0 : Z)
    (calls : list (Z * Z * clock)) (job_num : Z) :
  1 <= N ->
  keys d = range 0 N ->
  ParallelPrinter_init N d = Ok self0 ->
  let self := (updates (after (print_notify_parallel_begin self0 t0)) calls).1 in
  (forall row, iloc_row (job_time_tracker self) job_num = Ok row ->
     Forall nan_or_time row /\ Forall (fun b => b = true) (map ne_minus_one row))
  /\ (forall splits, job_splits self job_num = Ok splits -> ~ In (SStr "-") splits)
  /\ (Forall (valid_call d) calls -> 0 <= job_num < max_jobs self0 ->
      forall slot n, dict_get d slot = Ok n -> n <= job_num ->
        cell_at self job_num slot = Some VNaN /\
        forall splits, job_splits self job_num = Ok splits ->
                       splits !! Z.to_nat slot = Some SNaN).
Proof.
  intros HN Hk Hinit self.
  destruct (started_printer N d self0 t0 calls HN Hk Hinit)
    as (Hwf & Hd & Hm & Hs & Hlen & Hwritten). fold self in Hwf, Hd, Hm, Hs, Hwritten.
  split; [|split].
  - intros row Hrow. split; [|eapply guard_true; eauto].
    apply iloc_row_In in Hrow.
    pose proof (wf_cells _ Hwf) as Hc. rewrite Forall_forall in Hc.
    apply Hc, list_elem_of_In, Hrow.
  - intros splits. apply job_splits_no_placeholder, Hwf.
  - intros Hvalid Hj slot n Hn Hle.
    assert (Hslot : 0 <= slot < Z.of_nat (length (proc_job_dict self))).
    { rewrite Hd. apply (keys_range_slots N d Hk). eapply dict_get_is_key, Hn. }
    assert (Hj' : 0 <= job_num < max_jobs self) by (rewrite Hm; exact Hj).
    destruct (wf_row _ _ Hwf Hj') as (row & Hrow & Hrlen & Hcells).
    destruct (lookup_lt_is_Some_2 row (Z.to_nat slot)) as [v Hv]; [lia|].
    assert (Hcell : cell_at self job_num slot = Some v)
      by (unfold cell_at; rewrite Hrow; exact Hv).
    assert (v = VNaN) as ->.
    { destruct (Forall_lookup_1 _ _ _ _ Hcells Hv) as [->|[t ->]]; [reflexivity|].
      exfalso.
      assert (Hin : In (slot, job_num) (map fst calls)).
      { apply (Hwritten Hvalid); [lia|lia|]. exists t. exact Hcell. }
      apply in_map_iff in Hin as (c & Hc & Hin).
      rewrite Forall_forall in Hvalid.
      destruct (Hvalid c (proj2 (list_elem_of_In _ _) Hin)) as (n' & Hn' & Hjn).
      rewrite Hc in Hn', Hjn. simpl in Hn', Hjn. rewrite Hn in Hn'.
      injection Hn' as <-. lia. }
    split; [exact Hcell|]. intros splits Hsplits.
    destruct (job_splits_lookup _ _ _ Hwf Hj' Hsplits) as (_ & Hall).
    destruct (Hall slot Hslot) as (c & p & x & Hc & _ & Hsub & Hx).
    rewrite Hcell in Hc. injection Hc as <-.
    apply py_sub_nan in Hsub as ->. exact Hx.
Qed.

Lemma placeholder_branch_unreachable_witness :
  exists self0,
    ParallelPrinter_init 2 [(0, 3); (1, 1)] = Ok self0 /\
    let self := (updates (after (print_notify_parallel_begin self0 100))
                         [(0, 0, tick 105); (0, 1, tick 110); (0, 2, tick 120)]).1 in
    (forall row, iloc_row (job_time_tracker self) 2 = Ok row ->
       Forall nan_or_time row /\ Forall (fun b => b = true) (map ne_minus_one row))
    /\ (forall splits, job_splits self 2 = Ok splits -> ~ In (SStr "-") splits)
    /\ (Forall (valid_call [(0, 3); (1, 1)])
               [(0, 0, tick 105); (0, 1, tick 110); (0, 2, tick 120)] ->
        0 <= 2 < max_jobs self0 ->
        forall slot n, dict_get [(0, 3); (1, 1)] slot = Ok n -> n <= 2 ->
          cell_at self 2 slot = Some VNaN /\
          forall splits, job_splits self 2 = Ok splits ->
                         splits !! Z.to_nat slot = Some SNaN).
Proof.
  eexists. split; [vm_compute; reflexivity|].
  apply (placeholder_branch_unreachable 2 [(0, 3); (1, 1)] _ 100
           [(0, 0, tick 105); (0, 1, tick 110); (0, 2, tick 120)] 2).
  - lia.
  - reflexivity.
  - vm_compute; reflexivity.
Defined.

(** The row of job 2 in that state is printed with [nan] for the process
    that has a single job ... *)
Example nan_is_printed :
  exists self0,
    ParallelPrinter_init 2 [(0, 3); (1, 1)] = Ok self0 /\
    let self := (updates (after (print_notify_parallel_begin self0 100))
                         [(0, 0, tick 105); (0, 1, tick 110); (0, 2, tick 120)]).1 in
    job_splits self 2 = Ok [SDelta 10; SNaN] /\
    map py_str [SDelta 10; SNaN] = ["0:00:10"; "nan"]%string.
Proof. eexists. split; [vm_compute; reflexivity|]. vm_compute. split; reflexivity. Qed.

(** ... while the row of job 1 cannot be printed once that process has
    finished its job: [nan] minus a time. *)
Example nan_minus_time_raises :
  exists self0,
    ParallelPrinter_init 2 [(0, 3); (1, 1)] = Ok self0 /\
    let r := update (updates (after (print_notify_parallel_begin self0 100))
                             [(0, 0, tick 105); (1, 0, tick 107)]).1
                    0 1 (tick 110) in
    log r = [Call_print_parallel_message 1; PrintEnd CR] /\ raised r = Some TypeError.
Proof. eexists. split; [vm_compute; reflexivity|]. vm_compute. split; reflexivity. Qed.

(** ** The progress line *)

Lemma format_ok_same_length (f : fmt) : forall args args' : list string,
  length args = length args' -> is_ok (format f args) = is_ok (format f args').
Proof.
  induction f as [|[s|fill a w] f IH]; intros args args' Hlen; simpl; [reflexivity| |].
  - specialize (IH args args' Hlen).
    destruct (format f args), (format f args'); simpl in *; congruence.
  - destruct args as [|x args], args' as [|x' args']; simpl in Hlen; try discriminate;
      [reflexivity|].
    unfold format_field. destruct (w <? 0); simpl; [reflexivity|].
    assert (Hl : length args = length args') by lia.
    specialize (IH args args' Hl).
    destruct (format f args), (format f args'); simpl in *; congruence.
Qed.

Lemma mapM_ok_of_lookup {A B : Type} (f : A -> result B) (l : list A) :
  (forall i a, l !! i = Some a -> exists b, f a = Ok b) -> exists bs, mapM f l = Ok bs.
Proof.
  induction l as [|a l IH]; intros H; simpl; [eauto|].
  destruct (H 0%nat a eq_refl) as [b ->]. simpl.
  destruct IH as [bs ->]; [|simpl; eauto].
  intros i a' Hi. apply (H (S i) a' Hi).
Qed.

Lemma rbind_ok {A B : Type} (c : result A) (k : A -> result B) (b : B) :
  rbind c k = Ok b -> exists a, c = Ok a /\ k a = Ok b.
Proof. destruct c as [a|]; simpl; [eauto|discriminate]. Qed.

Lemma configure_prints_title N cfg :
  configure_prints N = Ok cfg ->
  format (cfg_message cfg)
         ("Time" :: "Job # / Total"
            :: map (fun i => "P_" +:+ str_int i) (range 1 (N + 1)))%string
  = Ok (cfg_title cfg).
Proof.
  unfold configure_prints. cbv zeta. intros H.
  apply rbind_ok in H as (p & _ & H).
  apply rbind_ok in H as (e & _ & H).
  apply rbind_ok in H as (dv & _ & H).
  apply rbind_ok in H as (title & Htitle & H).
  injection H as <-. cbn [cfg_message cfg_title]. exact Htitle.
Qed.

(** The message format of a printer the constructor returned takes any
    [total_procs + 2] strings: it has just formatted the title. *)
Lemma init_message_format N d self0 (args : list string) :
  ParallelPrinter_init N d = Ok self0 ->
  length args = (2 + Z.to_nat N)%nat ->
  exists line, format (parallel_message self0) args = Ok line.
Proof.
  unfold ParallelPrinter_init. intros H Hlen.
  apply rbind_ok in H as (mx & _ & H).
  apply rbind_ok in H as (mn & _ & H).
  apply rbind_ok in H as (cfg & Hcfg & H).
  injection H as <-. cbn [parallel_message].
  apply configure_prints_title in Hcfg.
  match type of Hcfg with
  | format ?f ?a = _ => pose proof (format_ok_same_length f args a) as Hsame
  end.
  rewrite Hcfg in Hsame. destruct (format (cfg_message cfg) args) as [line|]; [eauto|].
  exfalso. assert (Hft : false = true); [apply Hsame|discriminate Hft].
  rewrite Hlen. simpl. rewrite length_map, length_range. do 2 f_equal. lia.
Qed.

Lemma updates_parallel_message calls : forall self,
  parallel_message (updates self calls).1 = parallel_message self.
Proof.
  induction calls as [|[[p j] now] calls IH]; intros self; simpl; [reflexivity|].
  specialize (IH (after (update self p j now))).
  destruct (updates (after (update self p j now)) calls) as [self' evs]. simpl in *.
  rewrite IH. apply update_fields.
Qed.


Lemma job_splits_same_fields self self' job_num :
  job_time_tracker self' = job_time_tracker self ->
  start_time self' = start_time self ->
  job_splits self' job_num = job_splits self job_num.
Proof. intros Ht Hs. unfold job_splits. rewrite Ht, Hs. reflexivity. Qed.

Lemma prev_cell_same_fields self self' job_num slot :
  job_time_tracker self' = job_time_tracker self ->
  start_time self' = start_time self ->
  prev_cell self' job_num slot = prev_cell self job_num slot.
Proof. intros Ht Hs. unfold prev_cell, cell_at. rewrite Ht, Hs. reflexivity. Qed.




(** The line of that call, as printed. *)
Example progress_line_example :
  exists self0,
    ParallelPrinter_init 2 [(0, 2); (1, 2)] = Ok self0 /\
    let self := (updates (after (print_notify_parallel_begin self0 100))
                         [(0, 0, tick 105)]).1 in
    nth 2 (log (update self 1 0 (tick 107))) (PrintEnd EmptyString)
    = PrintLn ("|  00:01:47 |          1 / 2 |                                    0:00:05 |"
                 +:+ "                                    0:00:07 |").
Proof. eexists. split; [vm_compute; reflexivity|]. vm_compute. reflexivity. Qed.

(** ** Column widths *)

Lemma string_length_append (s1 s2 : string) :
  String.length (s1 +:+ s2) = (String.length s1 + String.length s2)%nat.
Proof. induction s1 as [|c s1 IH]; simpl; [reflexivity|]. rewrite IH. reflexivity. Qed.

Lemma string_length_repeat (c : ascii) (n : nat) : String.length (str_repeat c n) = n.
Proof. induction n as [|n IH]; simpl; [reflexivity|]. rewrite IH. reflexivity. Qed.

Lemma format_field_length fill a w x y :
  format_field fill a w x = Ok y ->
  0 <= w /\ Z.of_nat (String.length y) = Z.max w (Z.of_nat (String.length x)).
Proof.
  unfold format_field. destruct (w <? 0) eqn:E; [discriminate|].
  apply Z.ltb_ge in E. intros [= <-]. split; [exact E|].
  destruct a; rewrite string_length_append, string_length_repeat; lia.
Qed.

(** A line whose arguments fit their fields is as wide as the format. *)
Lemma format_length_fits (f : fmt) : forall (args : list string) (line : string),
  format f args = Ok line -> fits f args ->
  Z.of_nat (String.length line) = fmt_width f.
Proof.
  induction f as [|[s|fill a w] f IH]; intros args line; simpl.
  - intros [= <-] _. reflexivity.
  - intros H Hfit. apply rbind_ok in H as (r & Hr & [= <-]).
    rewrite string_length_append, Nat2Z.inj_add, (IH _ _ Hr Hfit). reflexivity.
  - destruct args as [|x args]; [discriminate|].
    intros H [Hx Hfit].
    apply rbind_ok in H as (y & Hy & H). apply rbind_ok in H as (r & Hr & [= <-]).
    apply format_field_length in Hy as [Hw Hy].
    rewrite string_length_append, Nat2Z.inj_add, (IH _ _ Hr Hfit), Hy. lia.
Qed.

(** An argument that does not fit makes the line wider. *)
Lemma format_length_ge (f : fmt) : forall (args : list string) (line : string),
  format f args = Ok line -> fmt_width f <= Z.of_nat (String.length line).
Proof.
  induction f as [|[s|fill a w] f IH]; intros args line; simpl.
  - intros [= <-]. reflexivity.
  - intros H. apply rbind_ok in H as (r & Hr & [= <-]).
    rewrite string_length_append, Nat2Z.inj_add. specialize (IH _ _ Hr). lia.
  - destruct args as [|x args]; [discriminate|].
    intros H.
    apply rbind_ok in H as (y & Hy & H). apply rbind_ok in H as (r & Hr & [= <-]).
    apply format_field_length in Hy as [Hw Hy]. specialize (IH _ _ Hr).
    rewrite string_length_append, Nat2Z.inj_add, Hy. lia.
Qed.

Lemma format_ok_fits_empty (f : fmt) : forall (args : list string) (line : string),
  format f args = Ok line -> Forall (fun x => x = EmptyString) args -> fits f args.
Proof.
  induction f as [|[s|fill a w] f IH]; intros args line; simpl; [auto| |].
  - intros H Hall. apply rbind_ok in H as (r & Hr & _). eauto.
  - destruct args as [|x args]; [auto|].
    intros H Hall. apply Forall_cons in Hall as [-> Hall].
    apply rbind_ok in H as (y & Hy & H). apply rbind_ok in H as (r & Hr & _).
    apply format_field_length in Hy as [Hw _]. simpl. split; [lia|eauto].
Qed.

Lemma fmt_width_app (f g : fmt) : fmt_width (f ++ g) = fmt_width f + fmt_width g.
Proof.
  induction f as [|[s|fill a w] f IH]; simpl; [reflexivity| |]; rewrite IH; lia.
Qed.

Lemma fmt_width_times (f : fmt) (n : Z) :
  0 <= n -> fmt_width (fmt_times f n) = n * fmt_width f.
Proof.
  intros Hn. unfold fmt_times.
  rewrite <- (Z2Nat.id n Hn) at 2. induction (Z.to_nat n) as [|k IH]; simpl; [lia|].
  rewrite fmt_width_app, IH. lia.
Qed.

Lemma fits_process_columns (w : Z) (cols : list string) : forall k : nat,
  Forall (fun c => Z.of_nat (String.length c) <= w) cols ->
  fits (concat (replicate k [Lit " "; Field " " AlignRight w; Lit " |"])) cols.
Proof.
  intros k. revert cols. induction k as [|k IH]; intros cols Hcols; simpl; [exact I|].
  destruct cols as [|c cols]; [exact I|].
  apply Forall_cons in Hcols as [Hc Hcols]. split; [exact Hc|]. apply IH, Hcols.
Qed.

Lemma configure_prints_inv N cfg :
  configure_prints N = Ok cfg ->
  N <> 0
  /\ process_col_len cfg = (line_width - 12 - job_col_len) / N
  /\ time_col_len cfg = 12 + (line_width - 12 - job_col_len) mod N
  /\ format ([Lit "+"; Field "-" AlignLeft (time_col_len cfg - 2); Lit "+"]
               ++ [Field "-" AlignLeft (job_col_len - 1); Lit "+"]
               ++ fmt_times [Field "-" AlignLeft (process_col_len cfg - 1); Lit "+"] N)
            (replicate (Z.to_nat (N + 2)) EmptyString) = Ok (cfg_divider cfg)
  /\ cfg_message cfg
     = [Lit "| "; Field " " AlignRight (time_col_len cfg - 4); Lit " |"]
         ++ [Lit " "; Field " " AlignRight (job_col_len - 3); Lit " |"]
         ++ fmt_times [Lit " "; Field " " AlignRight (process_col_len cfg - 3); Lit " |"] N.
Proof.
  unfold configure_prints. cbv zeta. intros H.
  apply rbind_ok in H as (p & Hp & H).
  apply rbind_ok in H as (e & He & H).
  apply rbind_ok in H as (dv & Hdv & H).
  apply rbind_ok in H as (title & _ & H).
  injection H as <-. cbn [process_col_len time_col_len cfg_divider cfg_message].
  unfold floordiv in Hp. unfold pymod in He.
  destruct (N =? 0) eqn:E; [discriminate|]. apply Z.eqb_neq in E.
  injection Hp as <-. injection He as <-.
  repeat split; try reflexivity; assumption.
Qed.

(** C6, as the code has it.  For [N >= 1] processes every process column
    is [(120 - 12 - 17) // N] wide, the time column takes the remainder, and
    the widths add up to 120; when [configure_prints] returns, the divider
    has exactly 120 characters, and so has every message line whose
    strings fit their columns; a string longer than its column is not cut
    and makes the line longer. *)
Theorem column_widths (N : Z) (cfg : prints) :
  1 <= N ->
  configure_prints N = Ok cfg ->
  process_col_len cfg = (120 - 12 - 17) / N
  /\ time_col_len cfg = 12 + (120 - 12 - 17) mod N
  /\ time_col_len cfg + job_col_len + N * process_col_len cfg = 120
  /\ String.length (cfg_divider cfg) = 120%nat
  /\ forall (time job : string) (cols : list string) (line : string),
       format (cfg_message cfg) (time :: job :: cols) = Ok line ->
       Z.of_nat (String.length time) <= time_col_len cfg - 4 ->
       Z.of_nat (String.length job) <= job_col_len - 3 ->
       Forall (fun c => Z.of_nat (String.length c) <= process_col_len cfg - 3) cols ->
       String.length line = 120%nat.
Proof.
  intros HN Hcfg.
  destruct (configure_prints_inv N cfg Hcfg) as (HN0 & Hp & Ht & Hdiv & Hmsg).
  unfold line_width, job_col_len in *.
  assert (Hsum : time_col_len cfg + 17 + N * process_col_len cfg = 120).
  { rewrite Hp, Ht. pose proof (Z.div_mod (120 - 12 - 17) N HN0). lia. }
  split; [exact Hp|]. split; [exact Ht|]. split; [exact Hsum|]. split.
  - apply Nat2Z.inj. rewrite (format_length_fits _ _ _ Hdiv).
    + rewrite !fmt_width_app, fmt_width_times by lia. simpl. lia.
    + eapply format_ok_fits_empty; [exact Hdiv|]. apply Forall_replicate. reflexivity.
  - intros time job cols line Hline Htime Hjob Hcols.
    apply Nat2Z.inj. rewrite (format_length_fits _ _ _ Hline).
    + rewrite Hmsg, !fmt_width_app, fmt_width_times by lia. simpl. lia.
    + rewrite Hmsg. simpl. split; [exact Htime|]. split; [exact Hjob|].
      apply fits_process_columns, Hcols.
Qed.

Lemma column_widths_witness :
  exists cfg,
    configure_prints 4 = Ok cfg /\
    (process_col_len cfg = (120 - 12 - 17) / 4
     /\ time_col_len cfg = 12 + (120 - 12 - 17) mod 4
     /\ time_col_len cfg + job_col_len + 4 * process_col_len cfg = 120
     /\ String.length (cfg_divider cfg) = 120%nat
     /\ forall (time job : string) (cols : list string) (line : string),
          format (cfg_message cfg) (time :: job :: cols) = Ok line ->
          Z.of_nat (String.length time) <= time_col_len cfg - 4 ->
          Z.of_nat (String.length job) <= job_col_len - 3 ->
          Forall (fun c => Z.of_nat (String.length c) <= process_col_len cfg - 3) cols ->
          String.length line = 120%nat).
Proof.
  eexists. split; [vm_compute; reflexivity|].
  apply (column_widths 4); [lia|vm_compute; reflexivity].
Defined.

(** With 14 processes the column of a process is 6 wide, 3 for its
    text: the titles [P_10] to [P_14] do not fit and the title line,
    printed by [print_notify_parallel_begin], has 125 characters. *)
Lemma title_line_of_14 :
  exists self0,
    ParallelPrinter_init 14 (even_jobs 14 1) = Ok self0 /\
    log (print_notify_parallel_begin self0 0)
    = [PrintLn (parallel_divider self0); PrintLn (parallel_title self0);
       PrintLn (parallel_divider self0)] /\
    String.length (parallel_divider self0) = 120%nat /\
    String.length (parallel_title self0) = 125%nat /\
    String.length (parallel_title self0) <> 120%nat.
Proof.
  eexists. split; [vm_compute; reflexivity|]. split; [reflexivity|].
  split; [vm_compute; reflexivity|]. split; [vm_compute; reflexivity|].
  vm_compute. discriminate.
Qed.

(** With 10 processes the text of a process column is 6 wide, less than
    a duration such as [0:00:05]: a progress line has 130 characters. *)
Example column_overflow :
  exists self0,
    ParallelPrinter_init 10 (even_jobs 10 1) = Ok self0 /\
    exists line,
      format (parallel_message self0)
             (str_time 105 :: "1 / 1"%string :: replicate 10 (str_timedelta 5)) = Ok line
      /\ String.length line = 130%nat.
Proof.
  eexists. split; [vm_compute; reflexivity|].
  eexists. split; vm_compute; reflexivity.
Qed.

(** From 31 processes on, a process column is narrower than the 3
    characters its frame takes and the constructor raises. *)
Example no_printer_for_31 :
  ParallelPrinter_init 31 (even_jobs 31 1) = Raise ValueError.
Proof. vm_compute. reflexivity. Qed.

(** ** For which numbers of processes a printer can be made *)

Lemma format_ok_widths (f : fmt) : forall (args : list string) (line : string),
  format f args = Ok line ->
  Forall (fun p => match p with Field _ _ w => 0 <= w | Lit _ => True end) f.
Proof.
  induction f as [|[s|fill a w] f IH]; intros args line; simpl; [constructor| |].
  - intros H. apply rbind_ok in H as (r & Hr & _). constructor; [exact I|eauto].
  - destruct args as [|x args]; [discriminate|].
    intros H. apply rbind_ok in H as (y & Hy & H). apply rbind_ok in H as (r & Hr & _).
    apply format_field_length in Hy as [Hw _]. constructor; [exact Hw|eauto].
Qed.

(** [configure_prints], and with it the constructor, returns for 1 to 30
    processes and raises from 31 on: the text of a process column would
    have a negative width. *)
Lemma configure_prints_returns_iff (N : Z) :
  1 <= N -> (is_ok (configure_prints N) = true <-> N <= 30).
Proof.
  intros HN. split.
  - destruct (configure_prints N) as [cfg|] eqn:Hcfg; [intros _|discriminate].
    destruct (configure_prints_inv N cfg Hcfg) as (_ & Hp & _ & _ & Hmsg).
    pose proof (format_ok_widths _ _ _ (configure_prints_title N cfg Hcfg)) as Hw.
    rewrite Hmsg, !Forall_app in Hw. destruct Hw as (_ & _ & Hw).
    unfold fmt_times in Hw. destruct (Z.to_nat N) as [|k] eqn:Ek; [lia|].
    simpl in Hw. apply Forall_cons in Hw as [_ Hw]. apply Forall_cons in Hw as [Hw _].
    unfold line_width, job_col_len in Hp. rewrite Hp in Hw.
    destruct (Z.leb_spec N 30) as [Hle|Hgt]; [exact Hle|exfalso].
    assert ((120 - 12 - 17) / N < 3) by (apply Z.div_lt_upper_bound; lia). lia.
  - intros Hle.
    assert (Hall : forallb (fun n => is_ok (configure_prints n)) (range 1 31) = true)
      by (vm_compute; reflexivity).
    rewrite forallb_forall in Hall. apply Hall, In_range. lia.
Qed.

(** ** Splitting the groups *)

Lemma mapM_Forall2 {A B : Type} (f : A -> result B) (l : list A) (bs : list B) :
  mapM f l = Ok bs <-> Forall2 (fun b a => f a = Ok b) bs l.
Proof.
  revert bs. induction l as [|a l IH]; intros bs; simpl.
  - split; [intros [= <-]; constructor|]. intros H. inversion H. reflexivity.
  - split.
    + intros H. apply rbind_ok in H as (b & Hb & H).
      apply rbind_ok in H as (bs' & Hbs & [= <-]).
      constructor; [exact Hb|]. apply IH, Hbs.
    + intros H. inversion H as [|b a' bs' l' Hb Hbs]; subst.
      rewrite Hb. simpl. apply IH in Hbs. rewrite Hbs. reflexivity.
Qed.

Lemma length_split_sections {A : Type} (sizes : list nat) : forall ary : list A,
  length (split_sections sizes ary) = length sizes.
Proof.
  induction sizes as [|s sizes IH]; intros ary; simpl; [reflexivity|].
  rewrite IH. reflexivity.
Qed.

Lemma concat_split_sections {A : Type} (sizes : list nat) : forall ary : list A,
  (length ary <= sum_list sizes)%nat -> concat (split_sections sizes ary) = ary.
Proof.
  induction sizes as [|s sizes IH]; intros ary Hlen; simpl in *.
  - destruct ary; [reflexivity|simpl in Hlen; lia].
  - rewrite IH by (rewrite length_drop; lia). apply take_drop.
Qed.

Lemma split_sections_lengths {A : Type} (sizes : list nat) : forall ary : list A,
  (sum_list sizes <= length ary)%nat ->
  Forall2 (fun sec s => length sec = s) (split_sections sizes ary) sizes.
Proof.
  induction sizes as [|s sizes IH]; intros ary Hlen; simpl in *; constructor.
  - apply length_take_le. lia.
  - apply IH. rewrite length_drop. lia.
Qed.

Lemma section_sizes_spec (total sections : nat) :
  (0 < sections)%nat ->
  length (section_sizes total sections) = sections
  /\ sum_list (section_sizes total sections) = total
  /\ Forall (fun s => s = (total / sections)%nat \/ s = S (total / sections))
            (section_sizes total sections).
Proof.
  intros Hpos. unfold section_sizes.
  pose proof (Nat.mod_upper_bound total sections ltac:(lia)) as Hmod.
  pose proof (Nat.div_mod_eq total sections) as Hdm.
  split; [|split].
  - rewrite length_app, !length_replicate. lia.
  - rewrite sum_list_with_app, !sum_list_replicate. nia.
  - apply Forall_app. split; apply Forall_replicate; auto.
Qed.

(** [np.array_split] into [n >= 1] sections: [n] sections that cut the
    array in order and whose lengths are [len // n] or [len // n + 1]. *)
Lemma array_split_spec {A : Type} (ary : list A) (n : Z) :
  1 <= n ->
  exists secs,
    array_split ary n = Ok secs
    /\ Z.of_nat (length secs) = n
    /\ concat secs = ary
    /\ Forall (fun sec => length sec = (length ary / Z.to_nat n)%nat
                          \/ length sec = S (length ary / Z.to_nat n)) secs.
Proof.
  intros Hn. unfold array_split.
  destruct (n <=? 0) eqn:E; [lia|].
  destruct (section_sizes_spec (length ary) (Z.to_nat n) ltac:(lia)) as (Hlen & Hsum & Hsz).
  eexists. split; [reflexivity|]. split; [|split].
  - rewrite length_split_sections, Hlen. lia.
  - apply concat_split_sections. lia.
  - pose proof (split_sections_lengths (section_sizes (length ary) (Z.to_nat n)) ary
                  ltac:(lia)) as HF.
    revert HF Hsz. generalize (section_sizes (length ary) (Z.to_nat n)).
    generalize (split_sections (section_sizes (length ary) (Z.to_nat n)) ary).
    intros secs0 sizes0 HF. induction HF as [|sec s secs sizes Hs _ IH]; intros Hsz.
    + constructor.
    + apply Forall_cons in Hsz as [Hs1 Hsz]. constructor; [lia|apply IH, Hsz].
Qed.

(** With fewer elements than sections, the last section is empty. *)
Lemma array_split_short {A : Type} (ary : list A) (n : Z) (secs : list (list A)) :
  Z.of_nat (length ary) < n ->
  array_split ary n = Ok secs -> In [] secs.
Proof.
  intros Hlt. unfold array_split. destruct (n <=? 0) eqn:E; [discriminate|].
  intros [= <-]. apply Z.leb_gt in E.
  destruct (section_sizes_spec (length ary) (Z.to_nat n) ltac:(lia)) as (Hlen & Hsum & Hsz).
  pose proof (split_sections_lengths (section_sizes (length ary) (Z.to_nat n)) ary
                ltac:(lia)) as HF.
  assert (Hin0 : In 0%nat (section_sizes (length ary) (Z.to_nat n))).
  { unfold section_sizes. rewrite Nat.div_small, Nat.mod_small by lia.
    apply in_or_app. right.
    destruct (Z.to_nat n - length ary)%nat as [|k] eqn:Ek; [lia|]. left; reflexivity. }
  revert HF Hin0. generalize (section_sizes (length ary) (Z.to_nat n)).
  generalize (split_sections (section_sizes (length ary) (Z.to_nat n)) ary).
  intros secs0 sizes0 HF. induction HF as [|sec s secs sizes Hs _ IH]; intros Hin; [destruct Hin|].
  destruct Hin as [->|Hin].
  - left. destruct sec; [reflexivity|discriminate].
  - right. apply IH, Hin.
Qed.

(** With at least as many elements as sections, no section is empty. *)
Lemma array_split_nonempty {A : Type} (ary : list A) (n : Z) (secs : list (list A)) :
  1 <= n <= Z.of_nat (length ary) ->
  array_split ary n = Ok secs -> Forall (fun sec => sec <> []) secs.
Proof.
  intros Hn Hsplit.
  destruct (array_split_spec ary n ltac:(lia)) as (secs' & Hs & _ & _ & Hsz).
  rewrite Hsplit in Hs. injection Hs as <-.
  eapply Forall_impl; [exact Hsz|]. intros sec Hsec ->. simpl in Hsec.
  assert (0 < length ary / Z.to_nat n)%nat; [|lia].
  apply Nat.div_str_pos. lia.
Qed.

(** ** Groups *)

Lemma insert_key_In (k x : Z) (l : list Z) :
  In x (insert_key k l) <-> x = k \/ In x l.
Proof.
  induction l as [|y l IH]; simpl; [intuition|].
  destruct (k <? y) eqn:E1; simpl; [intuition|].
  destruct (k =? y) eqn:E2; simpl.
  - apply Z.eqb_eq in E2 as ->. intuition.
  - rewrite IH. intuition.
Qed.

Lemma insert_key_sorted (k : Z) (l : list Z) :
  StronglySorted Z.lt l -> StronglySorted Z.lt (insert_key k l).
Proof.
  induction 1 as [|y l Hl IH Hy]; simpl; [repeat constructor|].
  destruct (k <? y) eqn:E1.
  - apply Z.ltb_lt in E1. constructor; [constructor; assumption|].
    constructor; [exact E1|]. eapply Forall_impl; [exact Hy|]. intros z Hz. lia.
  - destruct (k =? y) eqn:E2; [constructor; assumption|].
    apply Z.ltb_ge in E1. apply Z.eqb_neq in E2.
    constructor; [exact IH|]. apply Forall_forall. intros z Hz.
    apply list_elem_of_In, insert_key_In in Hz as [->|Hz]; [lia|].
    rewrite Forall_forall in Hy. apply Hy, list_elem_of_In, Hz.
Qed.

Lemma sorted_keys_spec (l : list Z) :
  StronglySorted Z.lt (sorted_keys l) /\ forall k, In k (sorted_keys l) <-> In k l.
Proof.
  unfold sorted_keys. induction l as [|x l [IH1 IH2]]; simpl.
  - split; [constructor|reflexivity].
  - split; [apply insert_key_sorted, IH1|].
    intros k. rewrite insert_key_In, IH2. intuition.
Qed.

(** Two increasing lists with the same elements are the same list. *)
Lemma increasing_ext (l1 l2 : list Z) :
  StronglySorted Z.lt l1 -> StronglySorted Z.lt l2 ->
  (forall k, In k l1 <-> In k l2) -> l1 = l2.
Proof.
  intros H1. revert l2. induction H1 as [|x l1 Hl1 IH Hx]; intros l2 H2 Hin.
  - destruct l2 as [|y l2]; [reflexivity|]. exfalso. apply (Hin y). left; reflexivity.
  - destruct H2 as [|y l2 Hl2 Hy].
    + exfalso. apply (Hin x). left; reflexivity.
    + rewrite Forall_forall in Hx, Hy.
      assert (x = y) as ->.
      { destruct (proj1 (Hin x) (or_introl eq_refl)) as [->|Hx2]; [reflexivity|].
        destruct (proj2 (Hin y) (or_introl eq_refl)) as [->|Hy1]; [reflexivity|].
        apply list_elem_of_In in Hx2, Hy1. specialize (Hx _ Hy1). specialize (Hy _ Hx2). lia. }
      f_equal. apply IH; [exact Hl2|]. intros k. split; intros Hk.
      * destruct (proj1 (Hin k) (or_intror Hk)) as [<-|Hk2]; [|exact Hk2].
        apply list_elem_of_In in Hk. specialize (Hx _ Hk). lia.
      * destruct (proj2 (Hin k) (or_intror Hk)) as [<-|Hk1]; [|exact Hk1].
        apply list_elem_of_In in Hk. specialize (Hy _ Hk). lia.
Qed.

Lemma increasing_NoDup (l : list Z) : StronglySorted Z.lt l -> NoDup l.
Proof.
  induction 1 as [|x l Hl IH Hx]; constructor; [|exact IH].
  intros Hin. rewrite Forall_forall in Hx. specialize (Hx _ Hin). lia.
Qed.

Lemma unique_In (l : list Z) (k : Z) : In k (unique l) <-> In k l.
Proof.
  induction l as [|x l IH]; simpl; [reflexivity|].
  rewrite filter_In, IH. destruct (Z.eq_dec k x) as [->|Hne].
  - intuition.
  - assert (negb (k =? x) = true) by (apply negb_true_iff, Z.eqb_neq, Hne). intuition.
Qed.

Lemma filter_ne_absent (k : Z) (l : list Z) :
  ~ In k l -> List.filter (fun y => negb (y =? k)) l = l.
Proof.
  induction l as [|x l IH]; simpl; [reflexivity|]. intros Hin.
  destruct (x =? k) eqn:E; simpl.
  - apply Z.eqb_eq in E. exfalso. apply Hin. left. exact E.
  - rewrite IH; [reflexivity|]. intros H. apply Hin. right. exact H.
Qed.

(** [unique] on a run of [k] followed by values other than [k]. *)
Lemma unique_run (k : Z) (run rest : list Z) :
  run <> [] -> Forall (fun x => x = k) run -> ~ In k rest ->
  unique (run ++ rest) = k :: unique rest.
Proof.
  intros Hne Hrun Hrest. induction Hrun as [|x run -> Hrun IH]; [contradiction|].
  simpl. f_equal. destruct run as [|y run].
  - simpl. apply filter_ne_absent. rewrite unique_In. exact Hrest.
  - rewrite IH by discriminate. simpl. rewrite Z.eqb_refl. simpl.
    apply filter_ne_absent. rewrite unique_In. exact Hrest.
Qed.

Section Groups.

Context {obs : Type}.

Lemma group_ok_ids (g : Z * frame obs) :
  group_ok g -> id_column g.2 <> [] /\ Forall (fun x => x = g.1) (id_column g.2).
Proof.
  intros [Hne Hall]. unfold id_column. split.
  - destruct g.2; [contradiction|discriminate].
  - apply Forall_map. exact Hall.
Qed.

Lemma id_column_concat (sec : list (Z * frame obs)) :
  id_column (concat (map snd sec)) = concat (map (fun g => id_column g.2) sec).
Proof.
  unfold id_column. induction sec as [|g sec IH]; simpl; [reflexivity|].
  rewrite map_app, IH. reflexivity.
Qed.

Lemma grouped_ids_In (sec : list (Z * frame obs)) (k : Z) :
  Forall group_ok sec ->
  (In k (concat (map (fun g => id_column g.2) sec)) <-> In k (map fst sec)).
Proof.
  induction 1 as [|g sec Hg Hsec IH]; simpl; [reflexivity|].
  rewrite in_app_iff, IH.
  destruct (group_ok_ids g Hg) as [Hne Hall]. rewrite Forall_forall in Hall.
  split; (intros [H|H]; [left|right; exact H]).
  - symmetry. apply Hall, list_elem_of_In, H.
  - subst k. destruct (id_column g.2) as [|x l] eqn:E; [contradiction|].
    left. apply Hall. left.
Qed.

(** On the frame a worker receives, [unique] lists the names of the
    groups in their order ... *)
Lemma grouped_unique (part : frame obs) (sec : list (Z * frame obs)) :
  grouped part sec -> unique (id_column part) = map fst sec.
Proof.
  intros (-> & Hsorted & Hok). rewrite id_column_concat.
  induction Hok as [|g sec Hg Hsec IH]; simpl; [reflexivity|].
  simpl in Hsorted. apply StronglySorted_inv in Hsorted as [Hs Hlt].
  destruct (group_ok_ids g Hg) as [Hne Hall].
  rewrite (unique_run g.1); [f_equal; apply IH, Hs|exact Hne|exact Hall|].
  rewrite grouped_ids_In by exact Hsec. intros Hin.
  rewrite Forall_forall in Hlt. apply list_elem_of_In in Hin. specialize (Hlt _ Hin). lia.
Qed.

Lemma filter_group_other (k : Z) (g : Z * frame obs) :
  group_ok g -> g.1 <> k -> List.filter (fun r : Z * obs => r.1 =? k) g.2 = [].
Proof.
  intros [_ Hall] Hne. induction Hall as [|r l Hr _ IH]; simpl; [reflexivity|].
  rewrite Hr. destruct (g.1 =? k) eqn:E; [apply Z.eqb_eq in E; contradiction|exact IH].
Qed.

Lemma filter_group_same (g : Z * frame obs) :
  group_ok g -> List.filter (fun r : Z * obs => r.1 =? g.1) g.2 = g.2.
Proof.
  intros [_ Hall]. induction Hall as [|r l Hr _ IH]; simpl; [reflexivity|].
  rewrite Hr, Z.eqb_refl, IH. reflexivity.
Qed.

Lemma filter_absent_group (k : Z) (sec : list (Z * frame obs)) :
  Forall group_ok sec -> ~ In k (map fst sec) ->
  List.filter (fun r : Z * obs => r.1 =? k) (concat (map snd sec)) = [].
Proof.
  induction 1 as [|g sec Hg Hsec IH]; simpl; [reflexivity|]. intros Hin.
  rewrite List.filter_app, (filter_group_other k g Hg), IH; [reflexivity| |]; intuition.
Qed.

(** ... and [groupby] yields these groups again. *)
Lemma grouped_groupby (part : frame obs) (sec : list (Z * frame obs)) :
  grouped part sec -> groupby part = sec.
Proof.
  intros Hg. pose proof Hg as (-> & Hsorted & Hok). unfold groupby.
  assert (Hkeys : sorted_keys (id_column (concat (map snd sec))) = map fst sec).
  { destruct (sorted_keys_spec (id_column (concat (map snd sec)))) as [Hs Hin].
    apply increasing_ext; [exact Hs|exact Hsorted|].
    intros k. rewrite Hin, id_column_concat. apply grouped_ids_In, Hok. }
  rewrite Hkeys. clear Hkeys Hg.
  apply increasing_NoDup in Hsorted.
  induction Hok as [|g sec Hg Hsec IH]; simpl; [reflexivity|].
  simpl in Hsorted. apply NoDup_cons in Hsorted as [Hnotin Hnodup].
  f_equal.
  - rewrite List.filter_app, (filter_group_same g Hg).
    rewrite filter_absent_group, app_nil_r; [destruct g; reflexivity|exact Hsec|].
    intros Hin. apply Hnotin, list_elem_of_In, Hin.
  - rewrite <- (IH Hnodup) at 2. apply map_ext_in. intros k Hk. f_equal.
    rewrite List.filter_app, (filter_group_other k g Hg); [reflexivity|].
    intros Heq. apply Hnotin. rewrite Heq. apply list_elem_of_In, Hk.
Qed.

(** [groupby] on any frame: groups with increasing names. *)
Lemma groupby_grouped (df : frame obs) :
  StronglySorted Z.lt (map fst (groupby df)) /\ Forall group_ok (groupby df).
Proof.
  unfold groupby. destruct (sorted_keys_spec (id_column df)) as [Hs Hin].
  rewrite map_map. simpl. rewrite map_id. split; [exact Hs|].
  apply Forall_map, Forall_forall. intros k Hk. apply list_elem_of_In, Hin in Hk.
  split; simpl.
  - unfold id_column in Hk. apply in_map_iff in Hk as (r & Hr & Hk).
    intros Hnil. assert (Hf : In r (List.filter (fun r0 : Z * obs => r0.1 =? k) df)).
    { apply filter_In. split; [exact Hk|]. apply Z.eqb_eq, Hr. }
    rewrite Hnil in Hf. destruct Hf.
  - apply Forall_forall. intros r Hr. apply list_elem_of_In, filter_In in Hr as [_ Hr].
    apply Z.eqb_eq, Hr.
Qed.

End Groups.

(** ** The partition step *)

Lemma increasing_app_inv (l1 l2 : list Z) :
  StronglySorted Z.lt (l1 ++ l2) -> StronglySorted Z.lt l1 /\ StronglySorted Z.lt l2.
Proof.
  induction l1 as [|x l1 IH]; simpl; intros H; [split; [constructor|exact H]|].
  apply StronglySorted_inv in H as [Hs Hx]. destruct (IH Hs) as [H1 H2].
  split; [|exact H2]. constructor; [exact H1|].
  apply Forall_app in Hx as [Hx _]. exact Hx.
Qed.

Section Partition.

Context {obs : Type}.

Lemma section_increasing (secs : list (list (Z * frame obs))) (sec : list (Z * frame obs)) :
  StronglySorted Z.lt (map fst (concat secs)) -> In sec secs ->
  StronglySorted Z.lt (map fst sec).
Proof.
  induction secs as [|s secs IH]; simpl; [intros _ []|].
  rewrite map_app. intros H Hin. apply increasing_app_inv in H as [H1 H2].
  destruct Hin as [->|Hin]; [exact H1|apply IH; assumption].
Qed.

Lemma section_groups_ok (secs : list (list (Z * frame obs))) (sec : list (Z * frame obs)) :
  Forall group_ok (concat secs) -> In sec secs -> Forall group_ok sec.
Proof.
  induction secs as [|s secs IH]; simpl; [intros _ []|].
  intros H Hin. apply Forall_app in H as [H1 H2].
  destruct Hin as [->|Hin]; [exact H1|apply IH; assumption].
Qed.

Lemma pd_concat_ok {A : Type} (frames : list (list A)) (r : list A) :
  pd_concat frames = Ok r <-> frames <> [] /\ r = concat frames.
Proof.
  destruct frames as [|f frames]; simpl.
  - split; [discriminate|intros [H _]; contradiction].
  - split; [intros [= <-]; split; [discriminate|reflexivity]|intros [_ ->]; reflexivity].
Qed.

(** The frame of a section: there is one when there are groups and the
    section is not empty. *)
Lemma section_frame_ok (groups sec : list (Z * frame obs)) (part : frame obs) :
  (do column <- second_column groups sec; pd_concat column) = Ok part
  <-> groups <> [] /\ sec <> [] /\ part = concat (map snd sec).
Proof.
  destruct groups as [|g groups]; simpl.
  - split; [discriminate|intros [H _]; contradiction].
  - rewrite pd_concat_ok. split.
    + intros [Hne ->]. split; [discriminate|]. split; [|reflexivity].
      intros ->. apply Hne. reflexivity.
    + intros (_ & Hne & ->). split; [|reflexivity].
      destruct sec; [contradiction|discriminate].
Qed.

(** What the split returns when it returns: one frame per section of
    [np.array_split], each the concatenation of a non-empty run of the
    groups of the input. *)
Lemma partition_parts (df : frame obs) (processors : Z) (parts : list (frame obs)) :
  partition df processors = Ok parts ->
  exists secs,
    array_split (groupby df) processors = Ok secs
    /\ Forall2 (fun part sec => sec <> [] /\ grouped part sec) parts secs.
Proof.
  unfold partition. intros H. apply rbind_ok in H as (secs & Hsplit & Hm).
  exists secs. split; [exact Hsplit|].
  assert (Hsecs : concat secs = groupby df).
  { assert (HN : 1 <= processors).
    { unfold array_split in Hsplit. destruct (processors <=? 0) eqn:E; [discriminate|].
      apply Z.leb_gt in E. lia. }
    destruct (array_split_spec (groupby df) processors HN) as (s' & Hs' & _ & Hc & _).
    rewrite Hsplit in Hs'. injection Hs' as <-. exact Hc. }
  destruct (groupby_grouped df) as [Hsorted Hok]. rewrite <- Hsecs in Hsorted, Hok.
  apply mapM_Forall2 in Hm. clear Hsplit Hsecs.
  induction Hm as [|part sec parts secs Hpart _ IH]; [constructor|].
  apply section_frame_ok in Hpart as (_ & Hne & ->).
  simpl in Hsorted, Hok. rewrite map_app in Hsorted.
  apply increasing_app_inv in Hsorted as [Hs1 Hs2]. apply Forall_app in Hok as [Hok1 Hok2].
  constructor; [|apply IH; assumption].
  split; [exact Hne|].
  split; [reflexivity|]. split; assumption.
Qed.

Lemma mapM_raises_same {A B : Type} (f : A -> result B) (l : list A) (e : exn) :
  (forall a e', f a = Raise e' -> e' = e) ->
  (exists a, In a l /\ is_ok (f a) = false) ->
  mapM f l = Raise e.
Proof.
  intros Hsame. induction l as [|a l IH]; intros (a0 & Hin & Hfail); [destruct Hin|].
  simpl. destruct (f a) as [b|e'] eqn:Hfa; simpl.
  - destruct Hin as [<-|Hin]; [rewrite Hfa in Hfail; discriminate|].
    rewrite IH by eauto. reflexivity.
  - rewrite (Hsame a e' Hfa). reflexivity.
Qed.

Lemma n_groups_nil : n_groups ([] : frame obs) = 0.
Proof. reflexivity. Qed.

Lemma n_groups_zero (df : frame obs) : n_groups df = 0 <-> df = [].
Proof.
  split; [|intros ->; reflexivity].
  unfold n_groups, groupby. rewrite length_map. intros H.
  destruct df as [|r df]; [reflexivity|]. exfalso.
  destruct (sorted_keys_spec (id_column (r :: df))) as [_ Hin].
  destruct (sorted_keys (id_column (r :: df))) as [|k ks]; [|simpl in H; lia].
  apply (Hin r.1). left. reflexivity.
Qed.

(** When the split returns and how it raises: [ValueError] when the
    number of processors is not positive ([np.array_split]) or exceeds
    the number of groups of a frame that has some ([pd.concat] on an
    empty section); [IndexError] on a frame with no rows and a positive
    number of processors ([split[:, 1]] on a section of one dimension). *)
Lemma partition_raises_iff (df : frame obs) (processors : Z) :
  (partition df processors = Raise ValueError <->
   processors <= 0 \/ 0 < n_groups df < processors)
  /\ (partition df processors = Raise IndexError <->
      1 <= processors /\ n_groups df = 0)
  /\ (is_ok (partition df processors) = true <-> 1 <= processors <= n_groups df).
Proof.
  assert (Hpos : 0 <= n_groups df) by (unfold n_groups; lia).
  assert (Hcases : processors <= 0 \/ 0 < n_groups df < processors
                   \/ (1 <= processors /\ n_groups df = 0)
                   \/ 1 <= processors <= n_groups df) by lia.
  assert (Hvalue : processors <= 0 \/ 0 < n_groups df < processors ->
                   partition df processors = Raise ValueError).
  { intros [Hle|Hlt]; unfold partition.
    - unfold array_split. destruct (processors <=? 0) eqn:E; [reflexivity|lia].
    - destruct (array_split_spec (groupby df) processors ltac:(lia)) as (secs & Hs & _).
      cbv zeta. rewrite Hs. cbn [rbind].
      assert (Hne : groupby df <> []).
      { intros Hnil. unfold n_groups in Hlt. rewrite Hnil in Hlt. simpl in Hlt. lia. }
      apply mapM_raises_same.
      + intros sec e'. destruct (groupby df) as [|g gs]; [contradiction|]. simpl.
        destruct (map snd sec); simpl; [intros [= <-]; reflexivity|discriminate].
      + exists []. split; [eapply array_split_short; [|exact Hs]; unfold n_groups in Hlt; lia|].
        destruct (groupby df) as [|g gs]; [contradiction|reflexivity]. }
  assert (Hindex : 1 <= processors /\ n_groups df = 0 ->
                   partition df processors = Raise IndexError).
  { intros [HN HG]. apply n_groups_zero in HG. subst df. unfold partition.
    destruct (array_split_spec (groupby ([] : frame obs)) processors HN)
      as (secs & Hs & Hlen & _).
    cbv zeta. rewrite Hs. cbn [rbind].
    destruct secs as [|sec secs]; [simpl in Hlen; lia|]. reflexivity. }
  assert (Hok : 1 <= processors <= n_groups df -> is_ok (partition df processors) = true).
  { intros Hn. unfold partition.
    destruct (array_split_spec (groupby df) processors ltac:(lia)) as (secs & Hs & _).
    cbv zeta. rewrite Hs. cbn [rbind].
    pose proof (array_split_nonempty (groupby df) processors secs Hn Hs) as Hne.
    assert (Hg : groupby df <> []).
    { intros Hnil. unfold n_groups in Hn. rewrite Hnil in Hn. simpl in Hn. lia. }
    rewrite (mapM_ok_map _ (fun sec : list (Z * frame obs) => concat (map snd sec)) secs);
      [reflexivity|].
    intros sec Hsec. apply section_frame_ok.
    rewrite Forall_forall in Hne.
    specialize (Hne sec (proj2 (list_elem_of_In _ _) Hsec)). auto. }
  split; [|split]; split; try assumption.
  - intros H. destruct Hcases as [?|[?|[Hc|Hc]]]; auto.
    + rewrite (Hindex Hc) in H. discriminate.
    + apply Hok in Hc. rewrite H in Hc. discriminate.
  - intros H. destruct Hcases as [Hc|[Hc|[Hc|Hc]]]; [| |exact Hc|].
    + rewrite (Hvalue (or_introl Hc)) in H. discriminate.
    + rewrite (Hvalue (or_intror Hc)) in H. discriminate.
    + apply Hok in Hc. rewrite H in Hc. discriminate.
  - intros H. destruct Hcases as [Hc|[Hc|[Hc|Hc]]]; [| | |exact Hc].
    + rewrite (Hvalue (or_introl Hc)) in H. discriminate.
    + rewrite (Hvalue (or_intror Hc)) in H. discriminate.
    + rewrite (Hindex Hc) in H. discriminate.
Qed.

Lemma partition_ok_iff (df : frame obs) (processors : Z) :
  is_ok (partition df processors) = true <-> 1 <= processors <= n_groups df.
Proof. apply partition_raises_iff. Qed.

(** When the split returns, it is balanced and loses nothing: [N]
    frames, each holding [G // N] or [G // N + 1] of the [G] groups, and the
    ids of the frames, one after the other, are the ids of the input in
    increasing order, each once. *)
Lemma partition_balanced (df : frame obs) (processors : Z) (parts : list (frame obs)) :
  partition df processors = Ok parts ->
  Z.of_nat (length parts) = processors
  /\ Forall (fun part => nunique part = n_groups df / processors
                         \/ nunique part = n_groups df / processors + 1) parts
  /\ concat (map (fun part => unique (id_column part)) parts) = sorted_keys (id_column df)
  /\ NoDup (concat (map (fun part => unique (id_column part)) parts)).
Proof.
  intros Hparts.
  assert (HN : 1 <= processors <= n_groups df).
  { apply partition_ok_iff. rewrite Hparts. reflexivity. }
  destruct (partition_parts df processors parts Hparts) as (secs & Hsplit & HF).
  destruct (array_split_spec (groupby df) processors ltac:(lia)) as (s' & Hs' & Hlen & Hc & Hsz).
  rewrite Hsplit in Hs'. injection Hs' as <-.
  assert (Hids : map (fun part => unique (id_column part)) parts = map (map fst) secs).
  { clear -HF. induction HF as [|part sec parts secs [_ Hg] _ IH]; simpl; [reflexivity|].
    rewrite (grouped_unique part sec Hg), IH. reflexivity. }
  assert (Hnames : concat (map (map fst) secs) = sorted_keys (id_column df)).
  { transitivity (map fst (concat secs)).
    - clear. induction secs as [|s secs IH]; simpl; [reflexivity|].
      rewrite map_app, IH. reflexivity.
    - rewrite Hc. unfold groupby. rewrite map_map. simpl. apply map_id. }
  split; [|split; [|split]].
  - rewrite (Forall2_length _ _ _ HF). exact Hlen.
  - clear Hids Hnames Hc Hsplit Hlen Hparts. unfold n_groups.
    induction HF as [|part sec parts secs [_ Hg] _ IH]; [constructor|].
    apply Forall_cons in Hsz as [Hs Hsz]. constructor; [|apply IH, Hsz].
    unfold nunique. rewrite (grouped_unique part sec Hg), length_map.
    assert (Hdiv : Z.of_nat (length (groupby df) / Z.to_nat processors)
                   = Z.of_nat (length (groupby df)) / processors)
      by (rewrite Nat2Z.inj_div, Z2Nat.id by lia; reflexivity).
    lia.
  - rewrite Hids. exact Hnames.
  - rewrite Hids, Hnames. apply increasing_NoDup, sorted_keys_spec.
Qed.

End Partition.

(** C3, at an input the code does not handle: one group and two
    processors.  [np.array_split] returns the group and an empty section,
    and [pd.concat] raises on the empty section: no partition is produced
    where the claim expects two, of one and of no group. *)
Theorem partition_one_group_two_processors :
  array_split (groupby [(7, 1)]) 2 = Ok [[(7, [(7, 1)])]; []]
  /\ partition [(7, 1)] 2 = Raise ValueError
  /\ n_groups [(7, 1)] = 1.
Proof. repeat split; vm_compute; reflexivity. Qed.

(** C4, as the code has it.  The split raises (there is no error of its
    own for it) whenever the number of processors is not positive, with
    the [ValueError] of [np.array_split], or the input has no rows, then
    with an [IndexError] when the number of processors is positive; and
    [parallel_fit_predict] then raises that exception before the printer
    is made, the pool started or anything printed. *)
Theorem partition_fails_at_setup
    {obs pred : Type} (fit_predict : list (Z * obs) -> pred) (categorical : bool)
    (df : frame obs) (processors begin_time : Z) (schedule : list (nat * clock)) :
  processors <= 0 \/ df = [] ->
  let e := if processors <=? 0 then ValueError else IndexError in
  let r := parallel_fit_predict fit_predict categorical df processors begin_time schedule in
  partition df processors = Raise e
  /\ returned r = Some (Raise e)
  /\ workers_started r = false
  /\ run_log r = [].
Proof.
  intros H e r.
  assert (Hp : partition df processors = Raise e).
  { subst e. destruct (partition_raises_iff df processors) as (Hv & Hi & _).
    destruct (Z.leb_spec processors 0) as [Hle|Hgt].
    - apply Hv. left. exact Hle.
    - apply Hi. destruct H as [H| ->]; [lia|]. split; [lia|reflexivity]. }
  split; [exact Hp|]. subst r. unfold parallel_fit_predict. rewrite Hp. repeat split.
Qed.

Lemma partition_fails_at_setup_witness :
  let r := parallel_fit_predict (fun _ : list (Z * Z) => 0) true [] 3 100 [] in
  partition ([] : frame Z) 3 = Raise IndexError
  /\ returned r = Some (Raise IndexError)
  /\ workers_started r = false
  /\ run_log r = [].
Proof.
  apply (partition_fails_at_setup (fun _ : list (Z * Z) => 0) true [] 3 100 []).
  right. reflexivity.
Defined.

(** The split also raises with two groups for three processors: a
    positive count and an input that is not empty. *)
Lemma partition_fails_two_groups_three_processors :
  partition [(1, 10); (2, 20)] 3 = Raise ValueError
  /\ ~ (3 <= 0 \/ [(1, 10); (2, 20)] = ([] : frame Z)).
Proof.
  split; [vm_compute; reflexivity|]. intros [H|H]; [lia|discriminate].
Qed.

(** ** Merging the results *)

Lemma map_fst_concat {A B : Type} (ls : list (list (A * B))) :
  map fst (concat ls) = concat (map (map fst) ls).
Proof.
  induction ls as [|l ls IH]; simpl; [reflexivity|]. rewrite map_app, IH. reflexivity.
Qed.

(** C5, as the code has it.  The merge of the workers' results is
    [pd.concat]: with at least one worker it does not fail; it returns the
    rows of all workers in the order of the tasks, so every result of
    every worker is in it, and its keys are distinct when no id is
    reported twice.  Two results for one id are both kept. *)
Theorem merge_concatenates {pred : Type} (predictions_df_list : list (list (Z * pred))) :
  predictions_df_list <> [] ->
  pd_concat predictions_df_list = Ok (concat predictions_df_list)
  /\ (forall predictions_df row,
        In predictions_df predictions_df_list -> In row predictions_df ->
        In row (concat predictions_df_list))
  /\ (NoDup (concat (map (map fst) predictions_df_list)) ->
      NoDup (map fst (concat predictions_df_list))).
Proof.
  intros Hne. split; [|split].
  - destruct predictions_df_list; [contradiction|reflexivity].
  - intros w row Hw Hrow. apply in_concat. eauto.
  - rewrite map_fst_concat. auto.
Qed.

Lemma merge_concatenates_witness :
  pd_concat [[(1, 10)]; [(2, 20); (3, 30)]] = Ok (concat [[(1, 10)]; [(2, 20); (3, 30)]])
  /\ (forall predictions_df row,
        In predictions_df [[(1, 10)]; [(2, 20); (3, 30)]] -> In row predictions_df ->
        In row (concat [[(1, 10)]; [(2, 20); (3, 30)]]))
  /\ (NoDup (concat (map (map fst) [[(1, 10)]; [(2, 20); (3, 30)]])) ->
      NoDup (map fst (concat [[(1, 10)]; [(2, 20); (3, 30)]]))).
Proof.
  apply (merge_concatenates [[(1, 10)]; [(2, 20); (3, 30)]]). discriminate.
Defined.

(** Two workers that both report a result for id 1: the merge returns
    both rows and raises nothing. *)
Lemma merge_keeps_duplicates :
  pd_concat [[(1, 10)]; [(1, 20)]] = Ok [(1, 10); (1, 20)]
  /\ forall e, pd_concat [[(1, 10)]; [(1, 20)]] <> Raise e.
Proof. split; [reflexivity|discriminate]. Qed.

(** ** The order of a worker *)

Lemma first_index_app_absent (l1 l2 : list Z) (k : Z) :
  ~ In k l1 ->
  first_index (l1 ++ l2) k
  = match first_index l2 k with
    | Ok i => Ok (i + Z.of_nat (length l1))
    | Raise e => Raise e
    end.
Proof.
  induction l1 as [|x l1 IH]; simpl; intros Hin.
  - destruct (first_index l2 k) as [i|]; [f_equal; lia|reflexivity].
  - destruct (x =? k) eqn:E; [apply Z.eqb_eq in E; exfalso; auto|].
    rewrite IH by auto. destruct (first_index l2 k) as [i|]; simpl; [f_equal; lia|reflexivity].
Qed.

Lemma dict_get_combine_seq (vs : list Z) : forall (s n i : nat) (v : Z),
  vs !! i = Some v -> (i < n)%nat ->
  dict_get (combine (map (fun k => 0 + Z.of_nat k) (seq s n)) vs) (Z.of_nat (s + i)) = Ok v.
Proof.
  induction vs as [|v0 vs IH]; intros s n i v Hv Hi; [rewrite lookup_nil in Hv; discriminate|].
  destruct n as [|n]; [lia|]. simpl.
  destruct i as [|i]; simpl in Hv.
  - injection Hv as <-. rewrite Nat.add_0_r, Z.eqb_refl. reflexivity.
  - destruct (0 + Z.of_nat s =? Z.of_nat (s + S i)) eqn:E; [apply Z.eqb_eq in E; lia|].
    replace (s + S i)%nat with (S s + i)%nat by lia. apply IH; [exact Hv|lia].
Qed.

Lemma map_fst_combine {A B : Type} (l : list A) : forall k : list B,
  (length l <= length k)%nat -> map fst (combine l k) = l.
Proof.
  induction l as [|a l IH]; intros k Hlen; simpl; [reflexivity|].
  destruct k as [|b k]; simpl in *; [lia|]. f_equal. apply IH. lia.
Qed.

Lemma process_job_dict_keys {obs : Type} (processors : Z) (parts : list (frame obs)) :
  Z.of_nat (length parts) = processors ->
  keys (process_job_dict processors parts) = range 0 processors.
Proof.
  intros Hlen. unfold process_job_dict, keys.
  apply map_fst_combine. rewrite length_range, length_map. lia.
Qed.

Lemma updates_app (l1 l2 : list (Z * Z * clock)) : forall self,
  updates self (l1 ++ l2)
  = ((updates (updates self l1).1 l2).1, (updates self l1).2 ++ (updates (updates self l1).1 l2).2).
Proof.
  induction l1 as [|[[p j] now] l1 IH]; intros self.
  - simpl. destruct (updates self l2); reflexivity.
  - cbn [app updates]. cbv zeta. rewrite IH.
    destruct (updates (after (update self p j now)) l1) as [s1 e1]. cbn [fst snd].
    destruct (updates s1 l2) as [s2 e2]. cbn [fst snd]. rewrite app_assoc. reflexivity.
Qed.

Lemma updates_one self proc_num job_num now :
  updates self [(proc_num, job_num, now)]
  = (after (update self proc_num job_num now), log (update self proc_num job_num now) ++ []).
Proof. reflexivity. Qed.

Section Worker.

Context {obs pred : Type}.
Variable fit_predict : list (Z * obs) -> pred.

(** On the frame a worker receives the ids first appear in increasing
    order: [groupby] with [observed=True] visits the groups the split put
    into the frame, in their order. *)
Lemma groupby_observed_grouped (part : frame obs) (sec : list (Z * frame obs)) :
  grouped part sec -> groupby_observed part = sec.
Proof.
  intros Hg. pose proof (grouped_groupby part sec Hg) as Hgb.
  pose proof (grouped_unique part sec Hg) as Hu.
  assert (Hkeys : sorted_keys (id_column part) = map fst sec).
  { apply (f_equal (map fst)) in Hgb. unfold groupby in Hgb.
    rewrite map_map in Hgb. simpl in Hgb. rewrite map_id in Hgb. exact Hgb. }
  unfold groupby_observed. rewrite Hu, <- Hkeys. exact (grouped_groupby part sec Hg).
Qed.

(** On the frame a worker receives, the job number computed for a group
    is the position of the group. *)
Lemma worker_jobs_grouped (part : frame obs) (sec : list (Z * frame obs)) :
  grouped part sec -> worker_jobs true part = Ok (numbered_from 0 sec).
Proof.
  intros Hg. unfold worker_jobs, unique_to_numpy. cbv zeta. cbn [rbind]. f_equal.
  rewrite (groupby_observed_grouped part sec Hg), (grouped_unique part sec Hg).
  destruct Hg as (_ & Hsorted & _). apply increasing_NoDup in Hsorted.
  assert (Hgen : forall pre : list (Z * frame obs),
             NoDup (map fst (pre ++ sec)) ->
             map (fun g : Z * frame obs => (g.1, g.2, first_index (map fst (pre ++ sec)) g.1)) sec
             = numbered_from (length pre) sec).
  { clear Hsorted. induction sec as [|g sec IH]; intros pre Hnd; simpl; [reflexivity|].
    f_equal.
    - f_equal. rewrite map_app, first_index_app_absent.
      + simpl. rewrite Z.eqb_refl, length_map. f_equal.
      + rewrite map_app in Hnd. apply NoDup_app in Hnd as (_ & Hdisj & _).
        intros Hin. apply (Hdisj g.1 (proj2 (list_elem_of_In _ _) Hin)). left.
    - specialize (IH (pre ++ [g])). rewrite <- app_assoc in IH. simpl in IH.
      rewrite IH by exact Hnd. rewrite length_app. simpl. f_equal. lia. }
  exact (Hgen [] Hsorted).
Qed.

Lemma pass_calls_cons (proc_num : Z) (clocks : nat -> clock) (job0 first n : nat) :
  pass_calls proc_num clocks job0 first (S n)
  = (proc_num, Z.of_nat job0, clocks first)
      :: pass_calls proc_num clocks (S job0) (S first) n.
Proof.
  unfold pass_calls. cbn [seq map]. rewrite !Nat.add_0_r. f_equal.
  rewrite <- seq_shift, map_map. apply map_ext. intros i.
  replace (job0 + S i)%nat with (S job0 + i)%nat by lia.
  replace (first + S i)%nat with (S first + i)%nat by lia. reflexivity.
Qed.

(** One pass of [apply] over the groups of a worker is the sequence of
    calls of [update] with the positions of the groups, in order, up to
    the end or up to and including the first call that raises. *)
Lemma apply_pass_spec (gs : list (Z * frame obs)) :
  forall (start : nat) (proc_num : Z) (shared_printer : ParallelPrinter)
         (clocks : nat -> clock) (n : nat) (out : list event) (acc : list (Z * pred)),
    apply_pass fit_predict (numbered_from start gs) proc_num shared_printer clocks n out acc
    = let calls := pass_calls proc_num clocks start n (length gs) in
      match first_raise shared_printer calls with
      | None =>
          ((updates shared_printer calls).1, (n + length gs)%nat,
           out ++ (updates shared_printer calls).2,
           Ok (acc ++ map (fun g : Z * frame obs => (g.1, fit_predict g.2)) gs))
      | Some (m, e) =>
          ((updates shared_printer (take (S m) calls)).1, (n + S m)%nat,
           out ++ (updates shared_printer (take (S m) calls)).2,
           Raise e)
      end.
Proof.
  induction gs as [|g gs IH]; intros start proc_num shared_printer clocks n out acc.
  - simpl. rewrite Nat.add_0_r, !app_nil_r. reflexivity.
  - cbn [numbered_from apply_pass length]. unfold fit_predict_wrapper. cbv zeta.
    rewrite pass_calls_cons. cbn [first_raise]. cbv zeta.
    destruct (raised (update shared_printer proc_num (Z.of_nat start) (clocks n)))
      as [e|] eqn:Hr.
    + rewrite firstn_cons, take_0. cbn [updates]. cbv zeta. cbn [fst snd].
      rewrite app_nil_r. replace (n + 1)%nat with (S n) by lia. reflexivity.
    + rewrite IH. cbv zeta.
      destruct (first_raise _ (pass_calls proc_num clocks (S start) (S n) (length gs)))
        as [[m e]|].
      * rewrite firstn_cons. cbn [updates]. cbv zeta.
        destruct (updates _ (take (S m) _)) as [s' evs]. cbn [fst snd].
        rewrite <- app_assoc. replace (S n + S m)%nat with (n + S (S m))%nat by lia.
        reflexivity.
      * cbn [updates]. cbv zeta.
        destruct (updates _ (pass_calls proc_num clocks (S start) (S n) (length gs)))
          as [s' evs]. cbn [fst snd].
        rewrite <- !app_assoc. replace (S n + length gs)%nat with (n + S (length gs))%nat by lia.
        reflexivity.
Qed.

(** What a worker does on the frame the split hands it.  When no call of
    the first pass raises, it has called [update] with 0, 1, ...,
    jobCount-1, in this order, each once, and returns the prediction of
    every group.  When a call raises [TypeError], the groups are taken
    again from the first, and the second pass decides the outcome; any
    other exception ends the worker at the call. *)
Lemma iterative_fit_predict_calls
    (part : frame obs) (sec : list (Z * frame obs)) (proc_num : Z)
    (shared_printer : ParallelPrinter) (clocks : nat -> clock) :
  grouped part sec ->
  let w := iterative_fit_predict fit_predict true part proc_num shared_printer clocks in
  let calls1 := pass_calls proc_num clocks 0 0 (length sec) in
  match first_raise shared_printer calls1 with
  | None =>
      printer_after w = (updates shared_printer calls1).1
      /\ calls_made w = length sec
      /\ printed w = (updates shared_printer calls1).2
      /\ result_df w = Ok (map (fun g : Z * frame obs => (g.1, fit_predict g.2)) sec)
  | Some (m, TypeError) =>
      let made1 := take (S m) calls1 in
      let printer1 := (updates shared_printer made1).1 in
      let calls2 := pass_calls proc_num clocks 0 (S m) (length sec) in
      match first_raise printer1 calls2 with
      | None =>
          printer_after w = (updates shared_printer (made1 ++ calls2)).1
          /\ calls_made w = (S m + length sec)%nat
          /\ printed w = (updates shared_printer (made1 ++ calls2)).2
          /\ result_df w = Ok (map (fun g : Z * frame obs => (g.1, fit_predict g.2)) sec)
      | Some (m2, e2) =>
          printer_after w = (updates shared_printer (made1 ++ take (S m2) calls2)).1
          /\ calls_made w = (S m + S m2)%nat
          /\ printed w = (updates shared_printer (made1 ++ take (S m2) calls2)).2
          /\ result_df w = Raise e2
      end
  | Some (m, e) =>
      printer_after w = (updates shared_printer (take (S m) calls1)).1
      /\ calls_made w = S m
      /\ printed w = (updates shared_printer (take (S m) calls1)).2
      /\ result_df w = Raise e
  end.
Proof.
  intros Hg w calls1. subst w. unfold iterative_fit_predict.
  rewrite (worker_jobs_grouped part sec Hg). unfold groupby_apply.
  rewrite apply_pass_spec. cbv zeta. fold calls1.
  destruct (first_raise shared_printer calls1) as [[m e]|] eqn:H1.
  - destruct e;
      try (cbn [printer_after calls_made printed result_df app Nat.add];
           repeat split; reflexivity).
    rewrite apply_pass_spec. cbv zeta. cbn [app Nat.add].
    destruct (first_raise _ (pass_calls proc_num clocks 0 (S m) (length sec)))
      as [[m2 e2]|]; cbn [printer_after calls_made printed result_df];
      rewrite !updates_app; cbn [fst snd]; repeat split; reflexivity.
  - cbn [printer_after calls_made printed result_df app Nat.add]. repeat split; reflexivity.
Qed.

End Worker.

(** C8, at an input the code does not handle: the frame of worker 0 in a
    run on the series 1, 2, 3 with two processors, after worker 1 has
    reported its one job.  The second call of worker 0, for job 1,
    completes a row that worker 1 has no job in and raises [TypeError]
    ([nan] minus a time); [groupby.apply] catches it and applies the
    function to every group again.  Worker 0 calls [update] with the job
    numbers 0, 1, 0, 1 and then raises: the jobs are not reported in
    strictly increasing order, the counter of worker 0 stands at 4 of 2
    jobs, and both rows are reported twice. *)
Theorem worker_reports_jobs_again :
  let fit := fun x : list (Z * Z) => fold_right Z.add 0 (map snd x) in
  let part0 := [(1, 10); (2, 20); (2, 1)] in
  let clocks := fun i : nat => tick (106 + Z.of_nat i) in
  exists self0,
    partition [(1, 10); (2, 20); (2, 1); (3, 30)] 2 = Ok [part0; [(3, 30)]]
    /\ ParallelPrinter_init 2 (process_job_dict 2 [part0; [(3, 30)]]) = Ok self0
    /\ let printer :=
         after (update (after (print_notify_parallel_begin self0 100)) 1 0 (tick 105)) in
       let w := iterative_fit_predict fit true part0 0 printer clocks in
       let calls := [(0, 0, tick 106); (0, 1, tick 107); (0, 0, tick 108); (0, 1, tick 109)] in
       result_df w = Raise TypeError
       /\ calls_made w = 4%nat
       /\ printer_after w = (updates printer calls).1
       /\ printed w = (updates printer calls).2
       /\ dict_get (proc_job_completed_dict (printer_after w)) 0 = Ok 4
       /\ dict_get (proc_job_dict (printer_after w)) 0 = Ok 2
       /\ reports_of 0 (printed w) = 2%nat
       /\ reports_of 1 (printed w) = 2%nat.
Proof.
  eexists. split; [vm_compute; reflexivity|]. split; [vm_compute; reflexivity|].
  vm_compute. repeat split; reflexivity.
Qed.

(** On a frame whose ids do not come in increasing order the groups are
    visited as their ids first appear, and numbered in that order; with
    an id column that is not categorical the worker raises before it
    takes a group. *)
Example worker_jobs_unordered_frame :
  worker_jobs true [(30, 1); (10, 1); (30, 2)]
  = Ok [(30, [(30, 1); (30, 2)], Ok 0); (10, [(10, 1)], Ok 1)]
  /\ worker_jobs false [(30, 1); (10, 1); (30, 2)] = Raise AttributeError.
Proof. split; reflexivity. Qed.

(** ** The pool and the result *)

Section Pool.

Context {obs pred : Type}.
Variable fit_predict : list (Z * obs) -> pred.

Lemma first_failed_none (ws : list (worker obs pred)) :
  first_failed ws = None -> Forall (fun w => failure w = None) ws.
Proof.
  induction ws as [|w ws IH]; simpl; [constructor|].
  destruct (failure w) eqn:E; [discriminate|]. intros H. constructor; [exact E|apply IH, H].
Qed.

Lemma pool_step_first_failure (p : pool obs pred) (slot : nat) (now : clock) (e : exn) :
  first_failure p = Some e -> first_failure (pool_step fit_predict p slot now) = Some e.
Proof.
  intros Hff. unfold pool_step.
  destruct (workers p !! slot) as [w|]; [|exact Hff].
  destruct (failure w); [exact Hff|].
  destruct (todo w) as [|[[name x] job] todo']; [exact Hff|].
  destruct job as [job_num|e']; cbn [first_failure fit_predict_wrapper];
    rewrite Hff; reflexivity.
Qed.

Lemma pool_run_first_failure (schedule : list (nat * clock)) :
  forall (p : pool obs pred) (e : exn),
  first_failure p = Some e -> first_failure (pool_run fit_predict p schedule) = Some e.
Proof.
  induction schedule as [|[slot now] schedule IH]; intros p e Hff; [exact Hff|].
  simpl. apply IH, pool_step_first_failure, Hff.
Qed.

Lemma pool_step_inv (p : pool obs pred) (jss : list (list (Z * frame obs * result Z)))
    (slot : nat) (now : clock) :
  Forall2 (worker_inv fit_predict) (workers p) jss ->
  (first_failure p = None ->
   Forall (fun w => failure w = None) (workers p)) ->
  let p' := pool_step fit_predict p slot now in
  Forall2 (worker_inv fit_predict) (workers p') jss
  /\ (first_failure p' = None ->
      Forall (fun w => failure w = None) (workers p')).
Proof.
  intros HF Hnone. unfold pool_step.
  destruct (workers p !! slot) as [w|] eqn:Hw; [|auto].
  destruct (failure w) as [e|] eqn:Hfail; [auto|].
  destruct (todo w) as [|[[name x] job] todo'] eqn:Htodo; [auto|].
  destruct (Forall2_lookup_l _ _ _ _ _ HF Hw) as (js & Hjs & Hjobs & Hinv).
  destruct job as [job_num|e]; cbn [workers first_failure fit_predict_wrapper].
  - destruct (raised (update (shared_printer p) (Z.of_nat slot) job_num now)) as [e|].
    + destruct (is_TypeError e && negb (retried w)); cbn [failure].
      * split.
        -- rewrite <- (list_insert_id jss slot js Hjs).
           apply Forall2_insert; [exact HF|].
           split; [exact Hjobs|]. intros _. cbn [predictions_df todo]. rewrite Hjobs.
           reflexivity.
        -- intros Hff. destruct (first_failure p) as [e'|] eqn:Hfirst; [discriminate|].
           apply Forall_insert; [apply Hnone; reflexivity|reflexivity].
      * split.
        -- rewrite <- (list_insert_id jss slot js Hjs).
           apply Forall2_insert; [exact HF|].
           split; [exact Hjobs|]. intros Hf. cbn [failure] in Hf. discriminate.
        -- intros Hff. destruct (first_failure p); discriminate.
    + cbn [failure]. split.
      * rewrite <- (list_insert_id jss slot js Hjs).
        apply Forall2_insert; [exact HF|].
        split; [exact Hjobs|].
        intros _. cbn [predictions_df todo]. rewrite <- (Hinv Hfail), Htodo.
        unfold job_predictions. simpl. rewrite <- app_assoc. reflexivity.
      * intros Hff. destruct (first_failure p) as [e'|] eqn:Hfirst; [discriminate|].
        apply Forall_insert; [apply Hnone; reflexivity|reflexivity].
  - split.
    + rewrite <- (list_insert_id jss slot js Hjs).
      apply Forall2_insert; [exact HF|].
      split; [exact Hjobs|]. intros Hf. cbn [failure] in Hf. discriminate.
    + intros Hff. destruct (first_failure p); discriminate.
Qed.

Lemma pool_run_inv (schedule : list (nat * clock)) :
  forall (p : pool obs pred) (jss : list (list (Z * frame obs * result Z))),
  Forall2 (worker_inv fit_predict) (workers p) jss ->
  (first_failure p = None ->
   Forall (fun w => failure w = None) (workers p)) ->
  let p' := pool_run fit_predict p schedule in
  Forall2 (worker_inv fit_predict) (workers p') jss
  /\ (first_failure p' = None ->
      Forall (fun w => failure w = None) (workers p')).
Proof.
  induction schedule as [|[slot now] schedule IH]; intros p jss HF Hnone; simpl; [auto|].
  destruct (pool_step_inv p jss slot now HF Hnone) as [HF' Hnone'].
  apply IH; assumption.
Qed.

(** Whatever the schedule, when [starmap] returns results no worker has
    failed, at its start or later, and the results are the predictions
    of the groups of each frame, in the order of the tasks. *)
Lemma starmap_results (categorical : bool) (printer : ParallelPrinter)
    (list_of_splits : list (frame obs))
    (schedule : list (nat * clock)) (results : list (list (Z * pred))) :
  (starmap fit_predict categorical printer list_of_splits schedule).2 = Some (Ok results) ->
  first_failed (map (start_worker (pred := pred) categorical) list_of_splits) = None
  /\ results
     = map (fun df => job_predictions fit_predict
                        (jobs (start_worker (pred := pred) categorical df)))
           list_of_splits.
Proof.
  unfold starmap. cbv zeta. cbn [snd].
  set (ws := map (start_worker (pred := pred) categorical) list_of_splits).
  match goal with
  | |- context [pool_run fit_predict ?p0 schedule] => set (p0' := p0)
  end.
  destruct (pool_run_inv schedule p0' (map jobs ws)) as [HF Hnone].
  { subst p0' ws. cbn [workers]. clear.
    induction list_of_splits as [|df l IH]; simpl; constructor; [|exact IH].
    split; [reflexivity|]. intros _. unfold start_worker.
    destruct (worker_jobs categorical df); reflexivity. }
  { intros Hff. subst p0'. cbn [workers first_failure] in *. apply first_failed_none, Hff. }
  destruct (forallb _ _) eqn:Hfin; [|discriminate].
  destruct (first_failure (pool_run fit_predict p0' schedule)) eqn:Hff; [discriminate|].
  intros [= <-]. specialize (Hnone eq_refl).
  assert (Hstart : first_failed ws = None).
  { destruct (first_failed ws) as [e|] eqn:E; [|reflexivity].
    rewrite (pool_run_first_failure schedule p0' e eq_refl) in Hff. discriminate. }
  split; [exact Hstart|].
  unfold ws. rewrite <- (map_map (start_worker categorical)
                           (fun w => job_predictions fit_predict (jobs w))). fold ws.
  rewrite <- (map_map jobs (job_predictions fit_predict)).
  revert HF Hnone Hfin. generalize (workers (pool_run fit_predict p0' schedule)).
  generalize (map jobs ws).
  clear. intros jss ws' HF. induction HF as [|w js ws' jss Hw _ IH]; intros Hnone Hfin; simpl;
    [reflexivity|].
  apply Forall_cons in Hnone as [Hn Hnone]. simpl in Hfin.
  apply andb_true_iff in Hfin as [Hf Hfin].
  f_equal; [|apply IH; assumption].
  destruct Hw as [_ Hw]. specialize (Hw Hn). unfold finished in Hf. rewrite Hn in Hf.
  destruct (todo w); [|discriminate].
  unfold job_predictions in Hw at 1. simpl in Hw. rewrite app_nil_r in Hw. exact Hw.
Qed.

(** A run that returns a result had a categorical id column, and the
    result is the prediction of every group of the input, in increasing
    order of the ids: it does not depend on the schedule or the clock. *)
Lemma parallel_fit_predict_result (categorical : bool) (df : frame obs)
    (processors begin_time : Z)
    (schedule : list (nat * clock)) (predictions : list (Z * pred)) :
  returned (parallel_fit_predict fit_predict categorical df processors begin_time schedule)
  = Some (Ok predictions) ->
  categorical = true
  /\ predictions = map (fun g : Z * frame obs => (g.1, fit_predict g.2)) (groupby df).
Proof.
  unfold parallel_fit_predict.
  destruct (partition df processors) as [parts|] eqn:Hparts; [|discriminate].
  destruct (ParallelPrinter_init _ _) as [printer|]; [|discriminate].
  destruct (starmap _ _ _ _ _) as [[p evs] res] eqn:Hstar.
  destruct res as [[results|e]|]; cbn [returned]; try discriminate.
  intros Hret. injection Hret as Hret. apply pd_concat_ok in Hret as [_ ->].
  pose proof (starmap_results categorical
                (after (print_notify_parallel_begin printer begin_time))
                parts schedule results) as Hres.
  rewrite Hstar in Hres. destruct (Hres eq_refl) as [Hstart ->]. clear Hres.
  destruct (partition_parts df processors parts Hparts) as (secs & Hsplit & HF).
  assert (HN : 1 <= processors).
  { unfold array_split in Hsplit. destruct (processors <=? 0) eqn:E; [discriminate|].
    apply Z.leb_gt in E. lia. }
  destruct (array_split_spec (groupby df) processors HN) as (s' & Hs' & Hlen & Hc & _).
  rewrite Hsplit in Hs'. injection Hs' as <-.
  assert (Hcat : categorical = true).
  { destruct categorical; [reflexivity|].
    destruct HF as [|part sec parts secs _ _].
    - simpl in Hlen. lia.
    - simpl in Hstart. discriminate. }
  split; [exact Hcat|]. subst categorical. rewrite <- Hc.
  clear -HF. induction HF as [|part sec parts secs [_ Hg] _ IH]; cbn [map concat];
    [reflexivity|].
  rewrite map_app, <- IH. f_equal.
  unfold start_worker. rewrite (worker_jobs_grouped part sec Hg). cbn [jobs].
  unfold job_predictions.
  generalize 0%nat. clear. induction sec as [|g sec IH]; intros start; simpl; [reflexivity|].
  f_equal. apply IH.
Qed.

End Pool.

(** Two runs on the same input and processor count that both return
    give the same result, whatever their schedules and clocks. *)
Corollary runs_that_return_agree {obs pred : Type} (fit_predict : list (Z * obs) -> pred)
    (categorical1 categorical2 : bool)
    (df : frame obs) (processors t1 t2 : Z) (schedule1 schedule2 : list (nat * clock))
    (m1 m2 : list (Z * pred)) :
  returned (parallel_fit_predict fit_predict categorical1 df processors t1 schedule1)
  = Some (Ok m1) ->
  returned (parallel_fit_predict fit_predict categorical2 df processors t2 schedule2)
  = Some (Ok m2) ->
  m1 = m2.
Proof.
  intros H1 H2.
  apply parallel_fit_predict_result in H1 as [_ H1], H2 as [_ H2]. congruence.
Qed.

(** C9, at an input on which the runs differ: three series, two
    processors, so that worker 0 has two jobs and worker 1 has one.  When
    worker 1 finishes its job before worker 0 finishes its second one, the
    second [update] of worker 0 reports job 1 with [nan] for worker 1
    against a time in the row before, the subtraction raises [TypeError]
    in [print_parallel_message]; [groupby.apply] applies the function to
    the two groups again, the report of job 1 raises again and the run
    raises.  When worker 0 finishes both jobs first, the same input gives
    the result. *)
Theorem run_outcome_depends_on_schedule :
  let fit := fun x : list (Z * Z) => fold_right Z.add 0 (map snd x) in
  let df := [(1, 10); (2, 20); (2, 1); (3, 30)] in
  partition df 2 = Ok [[(1, 10); (2, 20); (2, 1)]; [(3, 30)]]
  /\ returned (parallel_fit_predict fit true df 2 100
                 [(1%nat, tick 105); (0%nat, tick 106); (0%nat, tick 107);
                  (0%nat, tick 108); (0%nat, tick 109)])
     = Some (Raise TypeError)
  /\ returned (parallel_fit_predict fit true df 2 100
                 [(0%nat, tick 105); (0%nat, tick 106); (1%nat, tick 107)])
     = Some (Ok [(1, 10); (2, 21); (3, 30)]).
Proof. repeat split; vm_compute; reflexivity. Qed.

(** * Further properties of the printer *)

(** ** When the constructor returns *)

Lemma format_raise_kind (f : fmt) : forall (args : list string) (e : exn),
  format f args = Raise e ->
  e = ValueError \/ (e = IndexError /\ (length args < n_fields f)%nat).
Proof.
  induction f as [|[s|fill a w] f IH]; intros args e; simpl; [discriminate| |].
  - destruct (format f args) as [r|e'] eqn:Hr; simpl; [discriminate|].
    intros [= <-]. apply IH, Hr.
  - destruct args as [|x args]; [intros [= <-]; right; split; [reflexivity|simpl; lia]|].
    unfold format_field. destruct (w <? 0); simpl; [intros [= <-]; left; reflexivity|].
    destruct (format f args) as [r|e'] eqn:Hr; simpl; [discriminate|].
    intros [= <-]. destruct (IH _ _ Hr) as [->|[-> Hlt]]; [left; reflexivity|].
    right. split; [reflexivity|simpl; lia].
Qed.

Lemma n_fields_app (f g : fmt) : n_fields (f ++ g) = (n_fields f + n_fields g)%nat.
Proof. induction f as [|[s|fill a w] f IH]; simpl; [reflexivity| |]; rewrite IH; reflexivity. Qed.

Lemma n_fields_times (f : fmt) (n : Z) :
  n_fields (fmt_times f n) = (Z.to_nat n * n_fields f)%nat.
Proof.
  unfold fmt_times. induction (Z.to_nat n) as [|k IH]; simpl; [reflexivity|].
  rewrite n_fields_app, IH. reflexivity.
Qed.

Lemma configure_prints_raise_kind (N : Z) (e : exn) :
  1 <= N -> configure_prints N = Raise e -> e = ValueError.
Proof.
  intros HN. unfold configure_prints. cbv zeta.
  unfold floordiv, pymod. destruct (N =? 0) eqn:E0; [apply Z.eqb_eq in E0; lia|].
  cbn [rbind].
  match goal with
  | |- rbind (format ?f ?a) _ = _ -> _ =>
      destruct (format f a) as [dv|e1] eqn:Hdv; cbn [rbind];
      [|intros [= <-]; destruct (format_raise_kind f a e1 Hdv) as [->|[_ Hlt]];
        [reflexivity|exfalso; revert Hlt;
         rewrite !n_fields_app, n_fields_times, length_replicate; simpl; lia]]
  end.
  match goal with
  | |- rbind (format ?f ?a) _ = _ -> _ =>
      destruct (format f a) as [title|e1] eqn:Ht; cbn [rbind];
      [discriminate|intros [= <-]; destruct (format_raise_kind f a e1 Ht) as [->|[_ Hlt]];
        [reflexivity|exfalso; revert Hlt;
         rewrite !n_fields_app, n_fields_times; simpl;
         rewrite length_map, length_range; lia]]
  end.
Qed.

Lemma configure_prints_negative (N : Z) :
  N < 0 -> configure_prints N = Raise IndexError.
Proof.
  intros HN. unfold configure_prints. cbv zeta.
  unfold floordiv, pymod. destruct (N =? 0) eqn:E0; [apply Z.eqb_eq in E0; lia|].
  cbn [rbind]. unfold fmt_times at 1.
  replace (Z.to_nat N) with 0%nat by lia. cbn [replicate concat app].
  destruct (Z.to_nat (N + 2)) as [|[|k]] eqn:Ek; [reflexivity| |lia].
  assert (N = -1) as -> by lia. reflexivity.
Qed.

Lemma ParallelPrinter_init_cases (N : Z) (d : dict) :
  (is_ok (ParallelPrinter_init N d) = true <-> d <> [] /\ 1 <= N <= 30)
  /\ (d = [] -> ParallelPrinter_init N d = Raise ValueError)
  /\ (d <> [] -> N = 0 -> ParallelPrinter_init N d = Raise ZeroDivisionError)
  /\ (d <> [] -> N < 0 -> ParallelPrinter_init N d = Raise IndexError)
  /\ (d <> [] -> 31 <= N -> ParallelPrinter_init N d = Raise ValueError).
Proof.
  assert (Hempty : d = [] -> ParallelPrinter_init N d = Raise ValueError)
    by (intros ->; reflexivity).
  assert (Hcfg : d <> [] -> forall e, configure_prints N = Raise e ->
                 ParallelPrinter_init N d = Raise e).
  { intros Hd e He. unfold ParallelPrinter_init.
    destruct d as [|[k v] d]; [contradiction|]. cbn [values map py_max py_min rbind].
    rewrite He. reflexivity. }
  assert (Hok : d <> [] -> is_ok (configure_prints N) = true ->
                is_ok (ParallelPrinter_init N d) = true).
  { intros Hd He. unfold ParallelPrinter_init.
    destruct d as [|[k v] d]; [contradiction|]. cbn [values map py_max py_min rbind].
    destruct (configure_prints N); [reflexivity|discriminate]. }
  assert (H0 : d <> [] -> N = 0 -> ParallelPrinter_init N d = Raise ZeroDivisionError).
  { intros Hd ->. apply Hcfg; [exact Hd|reflexivity]. }
  assert (Hneg : d <> [] -> N < 0 -> ParallelPrinter_init N d = Raise IndexError).
  { intros Hd HN. apply Hcfg; [exact Hd|]. apply configure_prints_negative, HN. }
  assert (Hbig : d <> [] -> 31 <= N -> ParallelPrinter_init N d = Raise ValueError).
  { intros Hd HN. apply Hcfg; [exact Hd|].
    destruct (configure_prints N) as [cfg|e] eqn:He.
    - assert (N <= 30); [|lia].
      apply configure_prints_returns_iff; [lia|rewrite He; reflexivity].
    - f_equal. eapply configure_prints_raise_kind; [|exact He]. lia. }
  split; [|auto]. split.
  - intros Hret. destruct d as [|kv d]; [rewrite Hempty in Hret by reflexivity; discriminate|].
    split; [discriminate|].
    assert (Hd : kv :: d <> []) by discriminate.
    destruct (Z.lt_trichotomy N 0) as [Hlt|[Heq|Hgt]].
    + rewrite Hneg in Hret by assumption. discriminate.
    + rewrite H0 in Hret by assumption. discriminate.
    + destruct (Z.leb_spec N 30); [lia|]. rewrite Hbig in Hret by (auto; lia). discriminate.
  - intros [Hd HN]. apply Hok; [exact Hd|]. apply configure_prints_returns_iff; lia.
Qed.

(** X1.  The constructor returns exactly for a job dictionary that is
    not empty and 1 to 30 processes.  It raises [ValueError] on an empty
    dictionary ([max] of nothing), [ZeroDivisionError] for 0 processes,
    [IndexError] for a negative number of processes (the divider has more
    fields than strings) and [ValueError] from 31 processes on (a process
    column narrower than its frame). *)
Theorem ParallelPrinter_init_returns_iff (N : Z) (d : dict) :
  (is_ok (ParallelPrinter_init N d) = true <-> d <> [] /\ 1 <= N <= 30)
  /\ (d = [] -> ParallelPrinter_init N d = Raise ValueError)
  /\ (d <> [] -> N = 0 -> ParallelPrinter_init N d = Raise ZeroDivisionError)
  /\ (d <> [] -> N < 0 -> ParallelPrinter_init N d = Raise IndexError)
  /\ (d <> [] -> 31 <= N -> ParallelPrinter_init N d = Raise ValueError).
Proof. exact (ParallelPrinter_init_cases N d). Qed.

(** ** Calls of [update] outside the table *)

Lemma norm_index_raise (len : nat) (i : Z) :
  i < - Z.of_nat len \/ Z.of_nat len <= i -> norm_index len i = Raise IndexError.
Proof.
  intros H. unfold norm_index.
  destruct ((0 <=? i) && (i <? Z.of_nat len)) eqn:E1; [lia|].
  destruct ((- Z.of_nat len <=? i) && (i <? 0)) eqn:E2; [lia|reflexivity].
Qed.

Lemma norm_index_negative (len : nat) (i : Z) :
  - Z.of_nat len <= i < 0 -> norm_index len i = Ok (Z.to_nat (i + Z.of_nat len)).
Proof.
  intros H. unfold norm_index.
  destruct ((0 <=? i) && (i <? Z.of_nat len)) eqn:E1; [lia|].
  destruct ((- Z.of_nat len <=? i) && (i <? 0)) eqn:E2; [reflexivity|lia].
Qed.

Lemma dict_get_not_key (d : dict) (k : Z) :
  ~ In k (keys d) -> dict_get d k = Raise KeyError.
Proof.
  induction d as [|[k' v] d IH]; simpl; [reflexivity|]. intros Hin.
  destruct (k' =? k) eqn:E; [apply Z.eqb_eq in E; exfalso; auto|]. apply IH. auto.
Qed.

(** X2.  A call [update(proc_num, job_num)] with a position outside the
    table (a job beyond [max_jobs] rows, a process beyond the [N] columns,
    counted from either end) raises [IndexError] at the assignment: the
    printer is left as it was and nothing is written. *)
Theorem update_outside_table
    (N : Z) (d : dict) (self0 : ParallelPrinter) (calls : list (Z * Z * clock))
    (proc_num job_num : Z) (now : clock) :
  keys d = range 0 N ->
  ParallelPrinter_init N d = Ok self0 ->
  job_num < - Z.max 0 (max_jobs self0) \/ Z.max 0 (max_jobs self0) <= job_num
  \/ proc_num < - N \/ N <= proc_num ->
  let self := (updates self0 calls).1 in
  update self proc_num job_num now
  = {| after := self; log := []; raised := Some IndexError |}.
Proof.
  intros Hk Hinit Hout self.
  assert (HN : 1 <= N).
  { pose proof (ParallelPrinter_init_cases N d) as [Hiff _].
    apply Hiff. rewrite Hinit. reflexivity. }
  destruct (keys_range_slots N d Hk) as [Hlen Hkeys].
  destruct (ParallelPrinter_init_wf N d self0 Hkeys Hinit) as (Hwf0 & Hd0 & _).
  destruct (updates_wf calls self0 Hwf0) as (Hwf & Hd & Hm & _). fold self in Hwf, Hd, Hm.
  unfold update, iloc_set.
  pose proof (wf_rows _ Hwf) as Hrows. pose proof (wf_columns _ Hwf) as Hcols.
  rewrite Hd, Hd0 in Hcols. rewrite Hm in Hrows.
  destruct (norm_index (length (cells (job_time_tracker self))) job_num) as [i|e] eqn:Ei.
  - cbn [rbind]. rewrite norm_index_raise; [reflexivity|].
    apply norm_index_lt in Ei as Hi.
    assert (~ (job_num < - Z.max 0 (max_jobs self0) \/ Z.max 0 (max_jobs self0) <= job_num)).
    { unfold norm_index in Ei.
      destruct ((0 <=? job_num) && (job_num <? _)) eqn:E1; [lia|].
      destruct ((- _ <=? job_num) && (job_num <? 0)) eqn:E2; [lia|discriminate]. }
    lia.
  - cbn [rbind]. unfold norm_index in Ei.
    destruct ((0 <=? job_num) && (job_num <? _)); [discriminate|].
    destruct ((- _ <=? job_num) && (job_num <? 0)); [discriminate|].
    injection Ei as <-. reflexivity.
Qed.

Lemma update_outside_table_witness :
  exists self0,
    ParallelPrinter_init 2 [(0, 3); (1, 2)] = Ok self0 /\
    let self := (updates self0 [(0, 0, tick 5)]).1 in
    update self 1 3 (tick 7) = {| after := self; log := []; raised := Some IndexError |}.
Proof.
  eexists. split; [vm_compute; reflexivity|].
  apply (update_outside_table 2 [(0, 3); (1, 2)] _ [(0, 0, tick 5)] 1 3 (tick 7)).
  - reflexivity.
  - vm_compute; reflexivity.
  - right. left. simpl. lia.
Defined.

(** X3.  A negative [proc_num] inside the table is a position for
    [iloc] but not a key of the dictionaries: the time is written into the
    column counted from the end and the call then raises [KeyError], with
    the counters of completed jobs unchanged and nothing written out. *)
Theorem update_negative_process
    (N : Z) (d : dict) (self0 : ParallelPrinter) (calls : list (Z * Z * clock))
    (proc_num job_num : Z) (now : clock) :
  keys d = range 0 N ->
  ParallelPrinter_init N d = Ok self0 ->
  - N <= proc_num < 0 ->
  0 <= job_num < max_jobs self0 ->
  let self := (updates self0 calls).1 in
  let r := update self proc_num job_num now in
  raised r = Some KeyError
  /\ log r = []
  /\ cell_at (after r) job_num (proc_num + N) = Some (VTime (now_update now))
  /\ proc_job_completed_dict (after r) = proc_job_completed_dict self.
Proof.
  intros Hk Hinit Hp Hj self r.
  destruct (keys_range_slots N d Hk) as [Hlen Hkeys].
  destruct (ParallelPrinter_init_wf N d self0 Hkeys Hinit) as (Hwf0 & Hd0 & _).
  destruct (updates_wf calls self0 Hwf0) as (Hwf & Hd & Hm & _). fold self in Hwf, Hd, Hm.
  pose proof (wf_rows _ Hwf) as Hrows. pose proof (wf_columns _ Hwf) as Hcols.
  rewrite Hd, Hd0 in Hcols. rewrite Hm in Hrows.
  assert (Hj' : 0 <= job_num < max_jobs self) by (rewrite Hm; exact Hj).
  destruct (wf_row _ _ Hwf Hj') as (row & Hrow & Hrlen & _). rewrite Hd, Hd0 in Hrlen.
  subst r. unfold update, iloc_set.
  rewrite norm_index_nonneg by lia.
  rewrite norm_index_negative by lia. cbn [rbind].
  rewrite dict_get_not_key.
  - cbn [raised log after]. repeat split; try reflexivity.
    unfold cell_at. cbn [job_time_tracker set_job_time_tracker cells].
    rewrite list_lookup_alter_eq, Hrow. simpl.
    replace (Z.of_nat (length (columns (job_time_tracker self)))) with N by lia.
    apply list_lookup_insert_eq. lia.
  - cbn [proc_job_completed_dict set_job_time_tracker].
    rewrite (wf_completed _ Hwf). intros Hin. apply (wf_keys _ Hwf) in Hin. lia.
Qed.

Lemma update_negative_process_witness :
  exists self0,
    ParallelPrinter_init 2 [(0, 3); (1, 2)] = Ok self0 /\
    let self := (updates self0 [(0, 0, tick 5)]).1 in
    let r := update self (-1) 0 (tick 7) in
    raised r = Some KeyError
    /\ log r = []
    /\ cell_at (after r) 0 (-1 + 2) = Some (VTime (now_update (tick 7)))
    /\ proc_job_completed_dict (after r) = proc_job_completed_dict self.
Proof.
  eexists. split; [vm_compute; reflexivity|].
  apply (update_negative_process 2 [(0, 3); (1, 2)] _ [(0, 0, tick 5)] (-1) 0 (tick 7)).
  - reflexivity.
  - vm_compute; reflexivity.
  - lia.
  - simpl; lia.
Defined.

(** ** Times stay *)

Lemma iloc_set_cells (df df' : DataFrame) (r c : Z) (v : pyval) :
  iloc_set df r c v = Ok df' ->
  exists i j, cells df' = alter (fun row => <[j := v]> row) i (cells df).
Proof.
  unfold iloc_set. intros H.
  apply rbind_ok in H as (i & _ & H). apply rbind_ok in H as (j & _ & [= <-]).
  exists i, j. reflexivity.
Qed.

Lemma update_tracker_cases self proc_num job_num now :
  cells (job_time_tracker (after (update self proc_num job_num now)))
  = cells (job_time_tracker self)
  \/ exists i j,
       cells (job_time_tracker (after (update self proc_num job_num now)))
       = alter (fun row => <[j := VTime (now_update now)]> row) i
               (cells (job_time_tracker self)).
Proof.
  unfold update.
  destruct (iloc_set _ _ _ _) as [df|] eqn:Hset; cbn [after]; [|left; reflexivity].
  right. apply iloc_set_cells in Hset as (i & j & Hcells). exists i, j.
  rewrite <- Hcells.
  destruct (dict_get _ proc_num) as [c|]; cbn [after]; [|reflexivity].
  destruct (row_complete _ job_num) as [[|]|]; cbn [after]; try reflexivity.
  match goal with
  | |- context [print_parallel_message ?s job_num now] =>
      destruct (print_parallel_message_tracker s job_num now) as (Ht & _)
  end.
  rewrite Ht. reflexivity.
Qed.

Lemma stamped_update_any self proc_num job_num now j p :
  stamped self j p -> stamped (after (update self proc_num job_num now)) j p.
Proof.
  intros [t Ht]. unfold stamped, cell_at in *.
  destruct (update_tracker_cases self proc_num job_num now) as [->|(i & jj & ->)];
    [eauto|].
  destruct (cells (job_time_tracker self) !! Z.to_nat j) as [row|] eqn:Hrow; [|discriminate].
  destruct (decide (i = Z.to_nat j)) as [->|Hne].
  - rewrite list_lookup_alter_eq, Hrow. simpl.
    destruct (decide (jj = Z.to_nat p)) as [->|Hne].
    + exists (now_update now). apply list_lookup_insert_eq. eapply lookup_lt_Some, Ht.
    + exists t. rewrite list_lookup_insert_ne by exact Hne. exact Ht.
  - rewrite list_lookup_alter_ne by exact Hne. rewrite Hrow. eauto.
Qed.

Lemma stamped_updates (calls : list (Z * Z * clock)) : forall self j p,
  stamped self j p -> stamped (updates self calls).1 j p.
Proof.
  induction calls as [|[[p' j'] now] calls IH]; intros self j p Hst; simpl;
    [exact Hst|].
  specialize (IH (after (update self p' j' now)) j p (stamped_update_any _ _ _ _ _ _ Hst)).
  destruct (updates (after (update self p' j' now)) calls). exact IH.
Qed.

Lemma updates_proc_job_dict (calls : list (Z * Z * clock)) : forall self,
  proc_job_dict (updates self calls).1 = proc_job_dict self.
Proof.
  induction calls as [|[[p j] now] calls IH]; intros self; simpl; [reflexivity|].
  specialize (IH (after (update self p j now))).
  destruct (updates (after (update self p j now)) calls). simpl in *.
  rewrite IH. apply update_fields.
Qed.

(** The barrier of a job index, once it holds, holds for good. *)
Lemma barrier_is_stable (self : ParallelPrinter) (calls : list (Z * Z * clock)) (K : Z) :
  barrier self K -> barrier (updates self calls).1 K.
Proof.
  intros Hbar slot n Hn Hgt. rewrite updates_proc_job_dict in Hn.
  apply stamped_updates. eapply Hbar; eauto.
Qed.

(** X4.  No call of [update], whatever its arguments and whether or not
    it raises, clears a completion time: a cell that holds a time holds a
    time after any sequence of calls. *)
Theorem times_are_never_cleared
    (self : ParallelPrinter) (calls : list (Z * Z * clock)) (job_num proc_num : Z) :
  stamped self job_num proc_num ->
  stamped (updates self calls).1 job_num proc_num.
Proof. apply stamped_updates. Qed.

Lemma times_are_never_cleared_witness :
  exists self0,
    ParallelPrinter_init 2 [(0, 3); (1, 2)] = Ok self0 /\
    stamped (updates (updates self0 [(0, 0, tick 5)]).1
                     [(0, 0, tick 9); (5, 5, tick 7); (-1, 0, tick 8)]).1 0 0.
Proof.
  eexists. split; [vm_compute; reflexivity|].
  apply times_are_never_cleared. exists 5. vm_compute. reflexivity.
Defined.

(** ** When [update] raises *)

Lemma mapM_raise_lookup {A B : Type} (f : A -> result B) (l : list A) (e : exn) :
  mapM f l = Raise e -> exists i a, l !! i = Some a /\ f a = Raise e.
Proof.
  induction l as [|a l IH]; simpl; [discriminate|].
  destruct (f a) as [b|e'] eqn:Hfa; simpl.
  - destruct (mapM f l) as [bs|e'] eqn:Hm; simpl; [discriminate|].
    intros [= <-]. destruct (IH eq_refl) as (i & a' & Hi & Ha). exists (S i), a'. auto.
  - intros [= <-]. exists 0%nat, a. auto.
Qed.

Lemma py_sub_raise (a b : pyval) (e : exn) : py_sub a b = Raise e -> e = TypeError.
Proof. destruct a, b; simpl; intros [= <-]; reflexivity. Qed.

Lemma print_jobs_completed_ok self now :
  wf self ->
  (forall args, length args = (2 + length (proc_job_dict self))%nat ->
                exists line, format (parallel_message self) args = Ok line) ->
  raised (print_jobs_completed self now) = None.
Proof.
  intros Hwf Hfmt. unfold print_jobs_completed.
  match goal with
  | |- context [mapM ?f ?l] => destruct (mapM_ok_of_lookup f l) as [job_strs Hjs]
  end.
  { intros i proc Hi. apply list_elem_of_lookup_2, list_elem_of_In in Hi.
    destruct (dict_get_key (proc_job_completed_dict self) proc) as [c ->];
      [rewrite (wf_completed _ Hwf); exact Hi|].
    destruct (dict_get_key (proc_job_dict self) proc Hi) as [n ->]. simpl. eauto. }
  rewrite Hjs.
  match goal with
  | |- context [format ?f ?a] => destruct (Hfmt a) as [line ->]
  end.
  - simpl. apply mapM_ok_length in Hjs. rewrite Hjs. unfold keys. rewrite length_map.
    reflexivity.
  - destruct (prev_print_carriage self); reflexivity.
Qed.

(** The differences of a row inside the table are computed exactly when
    no process has a cell that cannot be subtracted. *)
Lemma job_splits_raise_iff self job_num :
  wf self -> 0 <= job_num < max_jobs self ->
  (exists t0, start_time self = Some t0) ->
  (job_splits self job_num = Raise TypeError <->
   exists slot, 0 <= slot < Z.of_nat (length (proc_job_dict self))
                /\ unsubtractable self job_num slot)
  /\ (is_ok (job_splits self job_num) = true
      \/ job_splits self job_num = Raise TypeError).
Proof.
  intros Hwf Hj [t0 Hs].
  destruct (iloc_row_ok _ _ Hwf Hj) as (cur & Hcur & Hrow & Hlen & Hcells).
  assert (Hraise : forall e, job_splits self job_num = Raise e ->
            e = TypeError /\
            exists slot, 0 <= slot < Z.of_nat (length (proc_job_dict self))
                         /\ unsubtractable self job_num slot).
  { intros e. unfold job_splits, unsubtractable, prev_is_time, prev_cell, stamped, cell_at.
    rewrite Hrow. destruct (job_num =? 0) eqn:E0.
    - rewrite Hcur, Hs. cbn [rbind].
      destruct (mapM _ cur) as [diffs|e'] eqn:Hm; cbn [rbind]; [discriminate|].
      intros [= <-]. apply mapM_raise_lookup in Hm as (i & c & Hi & Hc).
      split; [eapply py_sub_raise, Hc|].
      pose proof (lookup_lt_Some _ _ _ Hi) as Hlt.
      exists (Z.of_nat i). split; [lia|]. rewrite Nat2Z.id, Hi. right.
      destruct (Forall_lookup_1 _ _ _ _ Hcells Hi) as [->|[t ->]]; [|discriminate].
      split; [intros [t [=]]|eauto].
    - assert (Hj' : 0 <= job_num - 1 < max_jobs self) by (apply Z.eqb_neq in E0; lia).
      destruct (iloc_row_ok _ _ Hwf Hj') as (prev & Hprev & Hrowp & Hlenp & Hcellsp).
      rewrite Hprev, Hcur, Hrowp. cbn [rbind].
      destruct (mapM _ (combine cur prev)) as [diffs|e'] eqn:Hm; cbn [rbind]; [discriminate|].
      intros [= <-]. apply mapM_raise_lookup in Hm as (i & [c p] & Hi & Hc).
      split; [eapply py_sub_raise, Hc|].
      change (zip cur prev !! i = Some (c, p)) in Hi.
      apply lookup_zip_with_Some in Hi as (c' & p' & [= <- <-] & Hic & Hip).
      pose proof (lookup_lt_Some _ _ _ Hic) as Hlt.
      exists (Z.of_nat i). split; [lia|]. rewrite Nat2Z.id, Hic, Hip.
      destruct (Forall_lookup_1 _ _ _ _ Hcells Hic) as [->|[t ->]];
        destruct (Forall_lookup_1 _ _ _ _ Hcellsp Hip) as [->|[t' ->]];
        simpl in Hc; try discriminate.
      + right. split; [intros [t [=]]|eauto].
      + left. split; [eauto|intros [t' [=]]]. }
  assert (Hok : forall splits, job_splits self job_num = Ok splits ->
            ~ exists slot, 0 <= slot < Z.of_nat (length (proc_job_dict self))
                           /\ unsubtractable self job_num slot).
  { intros splits Hsp (slot & Hslot & Hun).
    destruct (job_splits_lookup _ _ _ Hwf Hj Hsp) as (_ & Hall).
    destruct (Hall slot Hslot) as (c & p & x & Hc & Hp & Hsub & _).
    unfold unsubtractable, prev_is_time, stamped in Hun. rewrite Hc, Hp in Hun.
    assert (Hcn : nan_or_time c).
    { unfold cell_at in Hc. rewrite Hrow in Hc. eapply (Forall_lookup_1 _ _ _ _ Hcells Hc). }
    destruct Hcn as [->|[t ->]]; destruct p; simpl in Hsub; try discriminate.
    all: destruct Hun as [[[u Hu] Hn]|[Hn [u Hu]]]; try discriminate;
      apply Hn; eauto. }
  destruct (job_splits self job_num) as [splits|e] eqn:Hjs.
  - split; [|left; reflexivity]. split; [discriminate|].
    intros Hex. exfalso. exact (Hok splits eq_refl Hex).
  - destruct (Hraise e eq_refl) as [-> Hex]. split; [|right; reflexivity].
    split; [intros _; exact Hex|reflexivity].
Qed.

Lemma print_parallel_message_raised self job_num now :
  wf self -> 0 <= job_num < max_jobs self ->
  (exists t0, start_time self = Some t0) ->
  (forall args, length args = (2 + length (proc_job_dict self))%nat ->
                exists line, format (parallel_message self) args = Ok line) ->
  raised (print_parallel_message self job_num now)
  = match job_splits self job_num with Ok _ => None | Raise e => Some e end.
Proof.
  intros Hwf Hj Hs Hfmt. unfold print_parallel_message, message_line. cbv zeta.
  rewrite (job_splits_same_fields self) by reflexivity.
  destruct (job_splits self job_num) as [splits|e] eqn:Hsp; cbn [rbind]; [|reflexivity].
  destruct (job_splits_lookup _ _ _ Hwf Hj Hsp) as (Hlen & _).
  cbn [parallel_message max_jobs set_prev_print_carriage].
  match goal with
  | |- context [format ?f ?a] => destruct (Hfmt a) as [line ->]
  end.
  { simpl. rewrite length_map, Hlen. reflexivity. }
  cbn [raised]. apply print_jobs_completed_ok.
  - eapply wf_same_fields; [..|exact Hwf]; reflexivity.
  - exact Hfmt.
Qed.

Lemma update_raises_cases
    (N : Z) (d : dict) (self0 : ParallelPrinter) (t0 : Z)
    (calls : list (Z * Z * clock)) (proc_num job_num : Z) (now : clock) :
  1 <= N ->
  keys d = range 0 N ->
  ParallelPrinter_init N d = Ok self0 ->
  0 <= proc_num < N ->
  0 <= job_num < max_jobs self0 ->
  let self := (updates (after (print_notify_parallel_begin self0 t0)) calls).1 in
  let r := update self proc_num job_num now in
  (raised r = None \/ raised r = Some TypeError)
  /\ (raised r = Some TypeError <->
      barrier (after r) job_num
      /\ exists slot, 0 <= slot < N /\ unsubtractable (after r) job_num slot).
Proof.
  intros HN Hk Hinit Hp Hj self r.
  destruct (started_printer N d self0 t0 calls HN Hk Hinit)
    as (Hwf & Hd & Hm & Hs & Hlen & _). fold self in Hwf, Hd, Hm, Hs.
  assert (Hmsg : parallel_message self = parallel_message self0)
    by (unfold self; rewrite updates_parallel_message; reflexivity).
  assert (Hp' : 0 <= proc_num < Z.of_nat (length (proc_job_dict self)))
    by (rewrite Hd; lia).
  assert (Hj' : 0 <= job_num < max_jobs self) by (rewrite Hm; exact Hj).
  destruct (update_valid_eq self proc_num job_num now Hwf Hp' Hj')
    as (self2 & b & Hwf2 & Hcells2 & Hd2 & Hm2 & Hs2 & Hmsg2 & Hb & Hupd).
  assert (Hj2 : 0 <= job_num < max_jobs self2) by (rewrite Hm2; exact Hj').
  assert (Hlen2 : Z.of_nat (length (proc_job_dict self2)) = N) by (rewrite Hd2, Hd; exact Hlen).
  assert (Htr : job_time_tracker (after r) = job_time_tracker self2
                /\ start_time (after r) = start_time self2
                /\ proc_job_dict (after r) = proc_job_dict self2).
  { subst r. rewrite Hupd. destruct b; cbn [after]; [|auto].
    destruct (print_parallel_message_tracker self2 job_num now) as (Ht & Hpd & _ & _ & Hst).
    auto. }
  destruct Htr as (Htr & Hst & Hpd).
  assert (Hcell : forall j p, cell_at (after r) j p = cell_at self2 j p)
    by (intros; apply cell_at_cells; rewrite Htr; reflexivity).
  assert (Hprev : forall j p, prev_cell (after r) j p = prev_cell self2 j p)
    by (intros; apply prev_cell_same_fields; assumption).
  assert (Hbar : barrier (after r) job_num <-> b = true).
  { destruct (row_complete_spec self2 job_num Hwf2 Hj2) as (b' & Hb' & Hspec).
    rewrite Hb in Hb'. injection Hb' as <-. rewrite Hspec.
    unfold barrier, stamped. rewrite Hpd.
    split; intros H slot n Hn Hgt; specialize (H slot n Hn Hgt);
      [rewrite <- Hcell|rewrite Hcell]; exact H. }
  assert (Hun : (exists slot, 0 <= slot < N /\ unsubtractable (after r) job_num slot)
                <-> exists slot, 0 <= slot < Z.of_nat (length (proc_job_dict self2))
                                 /\ unsubtractable self2 job_num slot).
  { rewrite Hlen2. unfold unsubtractable, prev_is_time, stamped.
    split; intros (slot & Hslot & H); exists slot; (split; [exact Hslot|]).
    - rewrite Hcell, Hprev in H. exact H.
    - rewrite Hcell, Hprev. exact H. }
  assert (Hst2 : exists t, start_time self2 = Some t) by (rewrite Hs2, Hs; eauto).
  destruct (job_splits_raise_iff self2 job_num Hwf2 Hj2 Hst2) as [Hiff Hcases].
  assert (Hr : raised r = if b then match job_splits self2 job_num with
                                    | Ok _ => None | Raise e => Some e end
                          else None).
  { subst r. rewrite Hupd. destruct b; cbn [raised]; [|reflexivity].
    apply print_parallel_message_raised; try assumption.
    intros args Hargs. rewrite Hmsg2, Hmsg. apply (init_message_format N d); [exact Hinit|].
    rewrite Hargs. lia. }
  rewrite Hr, Hbar, Hun, <- Hiff. clear Hr.
  destruct b.
  - destruct Hcases as [Hok| ->].
    + destruct (job_splits self2 job_num) as [splits|e]; [|discriminate].
      split; [left; reflexivity|]. split; [discriminate|intros [_ [=]]].
    + split; [right; reflexivity|]. split; auto.
  - split; [left; reflexivity|]. split; [discriminate|intros [[=] _]].
Qed.

(** X5.  Between [print_notify_parallel_begin] and the end of the run, a
    call [update(proc_num, job_num)] inside the table raises nothing but
    [TypeError], and it raises it exactly when the call completes row
    [job_num] while some process has a time in that row and none in the
    row before, or none in that row and a time in the row before (for job
    0: the start time). *)
Theorem update_raises_iff
    (N : Z) (d : dict) (self0 : ParallelPrinter) (t0 : Z)
    (calls : list (Z * Z * clock)) (proc_num job_num : Z) (now : clock) :
  1 <= N ->
  keys d = range 0 N ->
  ParallelPrinter_init N d = Ok self0 ->
  0 <= proc_num < N ->
  0 <= job_num < max_jobs self0 ->
  let self := (updates (after (print_notify_parallel_begin self0 t0)) calls).1 in
  let r := update self proc_num job_num now in
  (raised r = None \/ raised r = Some TypeError)
  /\ (raised r = Some TypeError <->
      barrier (after r) job_num
      /\ exists slot, 0 <= slot < N /\ unsubtractable (after r) job_num slot).
Proof. apply update_raises_cases. Qed.

Lemma update_raises_iff_witness :
  exists self0,
    ParallelPrinter_init 2 [(0, 2); (1, 1)] = Ok self0 /\
    let self := (updates (after (print_notify_parallel_begin self0 100)) [(0, 0, tick 110); (1, 0, tick 120)]).1 in
    let r := update self 0 1 (tick 130) in
    (raised r = None \/ raised r = Some TypeError)
    /\ (raised r = Some TypeError <->
        barrier (after r) 1
        /\ exists slot, 0 <= slot < 2 /\ unsubtractable (after r) 1 slot).
Proof.
  eexists. split; [vm_compute; reflexivity|].
  apply (update_raises_iff 2 [(0, 2); (1, 1)] _ 100); try lia; vm_compute; try reflexivity.
  all: split; congruence.
Defined.

(** ** The counters and the status line *)

Lemma dict_get_dict_set (d : dict) (k v k' : Z) :
  dict_get (dict_set d k v) k' = if k' =? k then Ok v else dict_get d k'.
Proof.
  induction d as [|[k0 v0] d IH]; simpl.
  - rewrite (Z.eqb_sym k k'). destruct (k' =? k); reflexivity.
  - destruct (k0 =? k) eqn:E; simpl.
    + apply Z.eqb_eq in E as ->. rewrite (Z.eqb_sym k k'). destruct (k' =? k); reflexivity.
    + rewrite IH. destruct (k0 =? k') eqn:E'; [|reflexivity].
      apply Z.eqb_eq in E' as ->. rewrite E. reflexivity.
Qed.

Lemma fold_left_add_from (xs : list Z) :
  forall a b, fold_left Z.add xs (a + b) = a + fold_left Z.add xs b.
Proof.
  induction xs as [|x xs IH]; intros a b; cbn [fold_left]; [reflexivity|].
  rewrite <- Z.add_assoc. apply IH.
Qed.

Lemma py_sum_from (xs : list Z) : forall a, fold_left Z.add xs a = a + py_sum xs.
Proof.
  intros a. unfold py_sum. rewrite <- fold_left_add_from, Z.add_0_r. reflexivity.
Qed.

Lemma py_sum_cons (x : Z) (xs : list Z) : py_sum (x :: xs) = x + py_sum xs.
Proof. unfold py_sum at 1. cbn [fold_left]. rewrite Z.add_0_l. apply py_sum_from. Qed.

Lemma py_sum_dict_set (d : dict) (k c v : Z) :
  dict_get d k = Ok c -> py_sum (values (dict_set d k v)) = py_sum (values d) + (v - c).
Proof.
  induction d as [|[k0 v0] d IH]; simpl; [discriminate|].
  destruct (k0 =? k) eqn:E; simpl.
  - intros [= ->]. rewrite !py_sum_cons. lia.
  - intros H. rewrite !py_sum_cons, (IH H). lia.
Qed.

Lemma update_completed self proc_num job_num now :
  wf self ->
  0 <= proc_num < Z.of_nat (length (proc_job_dict self)) ->
  0 <= job_num < max_jobs self ->
  exists c,
    dict_get (proc_job_completed_dict self) proc_num = Ok c
    /\ proc_job_completed_dict (after (update self proc_num job_num now))
       = dict_set (proc_job_completed_dict self) proc_num (c + 1).
Proof.
  intros Hwf Hp Hj.
  destruct (dict_get_key (proc_job_completed_dict self) proc_num) as [c Hc].
  { rewrite (wf_completed _ Hwf). apply (wf_keys _ Hwf). exact Hp. }
  exists c. split; [exact Hc|]. unfold update. cbv zeta. unfold iloc_set.
  rewrite norm_index_nonneg by (rewrite (wf_rows _ Hwf); lia).
  rewrite norm_index_nonneg by (rewrite (wf_columns _ Hwf); lia).
  cbn [rbind proc_job_completed_dict set_job_time_tracker]. rewrite Hc.
  match goal with
  | |- context [row_complete ?s ?j] => destruct (row_complete s j) as [[|]|e]
  end; cbn [after]; try reflexivity.
  match goal with
  | |- context [print_parallel_message ?s ?j ?n] =>
      destruct (print_parallel_message_tracker s j n) as (_ & _ & -> & _)
  end.
  reflexivity.
Qed.

Lemma calls_of_cons (p : Z) (c : Z * Z * clock) (calls : list (Z * Z * clock)) :
  calls_of p (c :: calls) = (if c.1.1 =? p then 1 else 0) + calls_of p calls.
Proof. unfold calls_of. simpl. destruct (c.1.1 =? p); simpl; lia. Qed.

Lemma calls_of_app (p : Z) (l1 l2 : list (Z * Z * clock)) :
  calls_of p (l1 ++ l2) = calls_of p l1 + calls_of p l2.
Proof. unfold calls_of. rewrite List.filter_app, length_app. lia. Qed.

(** Inside the table every call adds one to the counter of its process,
    whether or not its report raises. *)
Lemma updates_completed calls : forall self,
  wf self ->
  Forall (fun c : Z * Z * clock =>
            0 <= c.1.1 < Z.of_nat (length (proc_job_dict self))
            /\ 0 <= c.1.2 < max_jobs self) calls ->
  (forall p c0, dict_get (proc_job_completed_dict self) p = Ok c0 ->
     dict_get (proc_job_completed_dict (updates self calls).1) p = Ok (c0 + calls_of p calls))
  /\ py_sum (values (proc_job_completed_dict (updates self calls).1))
     = py_sum (values (proc_job_completed_dict self)) + Z.of_nat (length calls).
Proof.
  induction calls as [|[[p j] now] calls IH]; intros self Hwf Hin.
  - simpl. split; [intros p c0 ->; unfold calls_of; simpl; f_equal; lia|lia].
  - apply Forall_cons in Hin as [[Hp Hj] Hin]. cbn [fst snd] in Hp, Hj.
    destruct (update_completed self p j now Hwf Hp Hj) as (c & Hc & Hset).
    destruct (update_fields self p j now) as (Hd & Hm & _).
    pose proof (update_wf self p j now Hwf) as Hwf'.
    destruct (IH (after (update self p j now)) Hwf') as [IH1 IH2].
    { rewrite Hd, Hm. exact Hin. }
    cbn [updates]. cbv zeta.
    destruct (updates (after (update self p j now)) calls) as [self' evs] eqn:E.
    cbn [fst] in *. split.
    + intros q c0 Hq. rewrite calls_of_cons. cbn [fst].
      destruct (p =? q) eqn:Epq.
      * apply Z.eqb_eq in Epq as <-. rewrite Hc in Hq. injection Hq as <-.
        rewrite (IH1 p (c + 1)); [f_equal; lia|].
        rewrite Hset, dict_get_dict_set, Z.eqb_refl. reflexivity.
      * rewrite (IH1 q c0); [f_equal; lia|].
        rewrite Hset, dict_get_dict_set, (Z.eqb_sym q p), Epq. exact Hq.
    + rewrite IH2, Hset, (py_sum_dict_set _ _ c) by exact Hc.
      rewrite length_cons. lia.
Qed.

Lemma py_sum_zeros (d : dict) : py_sum (values (map (fun kv : Z * Z => (kv.1, 0)) d)) = 0.
Proof. induction d as [|kv d IH]; [reflexivity|]. simpl. rewrite py_sum_cons, IH. lia. Qed.

Lemma dict_get_zeros (d : dict) (p : Z) :
  In p (keys d) -> dict_get (map (fun kv : Z * Z => (kv.1, 0)) d) p = Ok 0.
Proof.
  induction d as [|[k v] d IH]; simpl; [contradiction|].
  destruct (k =? p) eqn:E; [reflexivity|].
  intros [->|H]; [rewrite Z.eqb_refl in E; discriminate|auto].
Qed.

Lemma ParallelPrinter_init_completed N d self0 :
  ParallelPrinter_init N d = Ok self0 ->
  proc_job_completed_dict self0 = map (fun kv : Z * Z => (kv.1, 0)) d.
Proof.
  unfold ParallelPrinter_init. intros H.
  apply rbind_ok in H as (mx & _ & H). apply rbind_ok in H as (mn & _ & H).
  apply rbind_ok in H as (cfg & _ & H). injection H as <-. reflexivity.
Qed.

Lemma dict_get_first (d : dict) (k v : Z) :
  NoDup (keys d) -> In (k, v) d -> dict_get d k = Ok v.
Proof.
  induction d as [|[k0 v0] d IH]; simpl; [contradiction|].
  intros Hnd [[= -> ->]|Hin]; [rewrite Z.eqb_refl; reflexivity|].
  apply NoDup_cons in Hnd as [Hk0 Hnd].
  destruct (k0 =? k) eqn:E; [|auto].
  apply Z.eqb_eq in E as ->. exfalso. apply Hk0, list_elem_of_In.
  unfold keys. apply in_map_iff. exists (k, v). auto.
Qed.

Lemma NoDup_range (a b : Z) : NoDup (range a b).
Proof.
  unfold range. apply NoDup_fmap_2; [intros x y; lia|]. apply NoDup_seq.
Qed.

Lemma mapM_fmap {A B C : Type} (f : B -> result C) (g : A -> B) (l : list A) :
  mapM f (map g l) = mapM (fun x => f (g x)) l.
Proof. induction l as [|a l IH]; simpl; [reflexivity|]. rewrite IH. reflexivity. Qed.

(** X6.  Between [print_notify_parallel_begin] and the end of the run,
    with every call inside the table, the counter of each process is the
    number of calls it has made, whether or not a report raised.  A call
    that does not raise prints nothing, or exactly: the carriage return,
    the line of the job, and, without a newline, the status line, whose
    job field is the number of calls made so far over the number of all
    jobs and whose field for a process is its number of calls over its
    number of jobs. *)
Theorem status_line_counts_calls
    (N : Z) (d : dict) (self0 : ParallelPrinter) (t0 : Z)
    (calls : list (Z * Z * clock)) (proc_num job_num : Z) (now : clock) :
  1 <= N ->
  keys d = range 0 N ->
  ParallelPrinter_init N d = Ok self0 ->
  Forall (fun c : Z * Z * clock => 0 <= c.1.1 < N /\ 0 <= c.1.2 < max_jobs self0) calls ->
  0 <= proc_num < N ->
  0 <= job_num < max_jobs self0 ->
  let self := (updates (after (print_notify_parallel_begin self0 t0)) calls).1 in
  let r := update self proc_num job_num now in
  let history := calls ++ [(proc_num, job_num, now)] in
  (forall p, 0 <= p < N ->
     dict_get (proc_job_completed_dict (after r)) p = Ok (calls_of p history))
  /\ (raised r = None ->
      log r = []
      \/ exists line status,
           log r = [Call_print_parallel_message job_num; PrintEnd CR; PrintLn line;
                    PrintEnd status]
           /\ format (parallel_message self0)
                (str_time (now_status now)
                 :: (str_int (Z.of_nat (length history)) +:+ " / "
                     +:+ str_int (py_sum (values d)))
                 :: map (fun kv : Z * Z =>
                           str_int (calls_of kv.1 history) +:+ " / " +:+ str_int kv.2) d)
              = Ok status).
Proof.
  intros HN Hk Hinit Hcalls Hp Hj self r history.
  destruct (started_printer N d self0 t0 calls HN Hk Hinit)
    as (Hwf & Hd & Hm & Hs & Hlen & _). fold self in Hwf, Hd, Hm, Hs.
  destruct (started_printer N d self0 t0 [] HN Hk Hinit)
    as (Hwfb & Hdb & Hmb & _). cbn [updates fst] in Hwfb, Hdb, Hmb.
  set (selfb := after (print_notify_parallel_begin self0 t0)) in *.
  assert (Hafter : after r = (updates selfb history).1).
  { unfold history. rewrite updates_app, updates_one. reflexivity. }
  assert (Hhist : Forall (fun c : Z * Z * clock =>
                            0 <= c.1.1 < Z.of_nat (length (proc_job_dict selfb))
                            /\ 0 <= c.1.2 < max_jobs selfb) history).
  { rewrite Hdb, Hmb, Hlen. unfold history. apply Forall_app. split; [exact Hcalls|].
    constructor; [split; assumption|constructor]. }
  destruct (updates_completed history selfb Hwfb Hhist) as [Hcnt Hsum].
  rewrite <- Hafter in Hcnt, Hsum.
  assert (Hzero : proc_job_completed_dict selfb = map (fun kv : Z * Z => (kv.1, 0)) d)
    by (change (proc_job_completed_dict selfb) with (proc_job_completed_dict self0);
        apply (ParallelPrinter_init_completed N), Hinit).
  rewrite Hzero, py_sum_zeros, Z.add_0_l in Hsum.
  assert (Hcount : forall p, In p (keys d) ->
            dict_get (proc_job_completed_dict (after r)) p = Ok (calls_of p history)).
  { intros p Hin. rewrite (Hcnt p 0); [f_equal; lia|].
    rewrite Hzero. apply dict_get_zeros, Hin. }
  split.
  { intros p Hpr. apply Hcount. rewrite Hk. apply In_range. lia. }
  intros Hnone.
  assert (Hmsg : parallel_message self = parallel_message self0)
    by (unfold self; rewrite updates_parallel_message; reflexivity).
  assert (Hp' : 0 <= proc_num < Z.of_nat (length (proc_job_dict self)))
    by (rewrite Hd; lia).
  assert (Hj' : 0 <= job_num < max_jobs self) by (rewrite Hm; exact Hj).
  destruct (update_valid_eq self proc_num job_num now Hwf Hp' Hj')
    as (self2 & b & Hwf2 & Hcells2 & Hd2 & Hm2 & Hs2 & Hmsg2 & Hb & Hupd).
  fold r in Hupd. destruct b; [right|left; rewrite Hupd; reflexivity].
  assert (Hc2 : proc_job_completed_dict (after r) = proc_job_completed_dict self2).
  { rewrite Hupd. cbn [after].
    destruct (print_parallel_message_tracker self2 job_num now) as (_ & _ & -> & _).
    reflexivity. }
  rewrite Hc2 in Hcount, Hsum.
  rewrite Hupd in Hnone |- *. cbn [log raised] in Hnone |- *.
  revert Hnone. unfold print_parallel_message. cbv zeta.
  destruct (message_line _ job_num now) as [line|e]; cbn [log raised]; [|discriminate].
  unfold print_jobs_completed. cbv zeta.
  cbn [prev_print_carriage proc_job_dict proc_job_completed_dict parallel_message
       set_prev_print_carriage].
  assert (Hstrs : mapM (fun proc =>
                          do c <- dict_get (proc_job_completed_dict self2) proc;
                          do n <- dict_get (proc_job_dict self2) proc;
                          Ok (str_int c +:+ " / " +:+ str_int n))
                       (keys (proc_job_dict self2))
                  = Ok (map (fun kv : Z * Z =>
                               str_int (calls_of kv.1 history) +:+ " / " +:+ str_int kv.2) d)).
  { rewrite Hd2, Hd. unfold keys at 1. rewrite mapM_fmap. apply mapM_ok_map.
    intros [k v] Hin. cbn [fst snd].
    rewrite Hcount by (unfold keys; apply in_map_iff; exists (k, v); auto).
    rewrite (dict_get_first d k v); [reflexivity| |exact Hin].
    rewrite Hk. apply NoDup_range. }
  rewrite Hstrs, Hsum, Hd2, Hd, Hmsg2, Hmsg.
  match goal with
  | |- context [format ?f ?a] => destruct (format f a) as [status|e] eqn:Hfmt
  end; cbn [log raised]; [|discriminate].
  intros _. exists line, status. split; reflexivity.
Qed.

Lemma status_line_counts_calls_witness :
  exists self0,
    ParallelPrinter_init 2 [(0, 2); (1, 2)] = Ok self0 /\
    let calls := [(0, 0, tick 110); (0, 1, tick 115)] in
    let self := (updates (after (print_notify_parallel_begin self0 100)) calls).1 in
    let r := update self 1 0 (tick 120) in
    let history := calls ++ [(1, 0, tick 120)] in
    (forall p, 0 <= p < 2 ->
       dict_get (proc_job_completed_dict (after r)) p = Ok (calls_of p history))
    /\ (raised r = None ->
        log r = []
        \/ exists line status,
             log r = [Call_print_parallel_message 0; PrintEnd CR; PrintLn line;
                      PrintEnd status]
             /\ format (parallel_message self0)
                  (str_time (now_status (tick 120))
                   :: (str_int (Z.of_nat (length history)) +:+ " / "
                       +:+ str_int (py_sum (values [(0, 2); (1, 2)])))
                   :: map (fun kv : Z * Z =>
                             str_int (calls_of kv.1 history) +:+ " / " +:+ str_int kv.2)
                          [(0, 2); (1, 2)])
                = Ok status).
Proof.
  eexists. split; [vm_compute; reflexivity|].
  apply (status_line_counts_calls 2 [(0, 2); (1, 2)] _ 100); try lia; try reflexivity.
  - repeat constructor; vm_compute; congruence.
  - vm_compute. split; congruence.
Defined.

(** ** Every row is reported *)

Lemma fold_left_max_In (xs : list Z) : forall a,
  fold_left Z.max xs a = a \/ In (fold_left Z.max xs a) xs.
Proof.
  induction xs as [|x xs IH]; intros a; simpl; [left; reflexivity|].
  destruct (IH (Z.max a x)) as [H|H]; [|right; right; exact H].
  rewrite H. destruct (Z.max_spec a x) as [[_ ->]|[_ ->]]; [right; left|left]; reflexivity.
Qed.

Lemma py_max_In (xs : list Z) (m : Z) : py_max xs = Ok m -> In m xs.
Proof.
  destruct xs as [|x xs]; simpl; [discriminate|]. intros [= <-].
  destruct (fold_left_max_In xs x) as [->|H]; [left; reflexivity|right; exact H].
Qed.

Lemma ParallelPrinter_init_max N d self0 :
  ParallelPrinter_init N d = Ok self0 -> py_max (values d) = Ok (max_jobs self0).
Proof.
  unfold ParallelPrinter_init. intros H.
  apply rbind_ok in H as (mx & Hmx & H). apply rbind_ok in H as (mn & _ & H).
  apply rbind_ok in H as (cfg & _ & H). injection H as <-. exact Hmx.
Qed.

Lemma In_values_dict_get (d : dict) (m : Z) :
  NoDup (keys d) -> In m (values d) -> exists k, dict_get d k = Ok m.
Proof.
  intros Hnd Hin. unfold values in Hin. apply in_map_iff in Hin as ([k v] & <- & Hin).
  exists k. apply dict_get_first; assumption.
Qed.

(** A history that takes job index [K] from an open barrier to a
    complete one contains the report of [K]. *)
Lemma report_when_barrier_completes K calls : forall self,
  wf self ->
  Forall (valid_call (proc_job_dict self)) calls ->
  0 <= K ->
  ~ barrier self K ->
  barrier (updates self calls).1 K ->
  (1 <= reports_of K (updates self calls).2)%nat.
Proof.
  induction calls as [|[[p j] now] calls IH]; intros self Hwf Hvalid HK Hopen Hbar;
    [contradiction|].
  apply Forall_cons in Hvalid as [Hv Hvalid].
  destruct (valid_call_in_table self _ Hwf Hv) as [Hp Hj]. cbn [fst snd] in Hp, Hj.
  destruct (update_fields self p j now) as (Hd & Hm & _).
  pose proof (update_wf self p j now Hwf) as Hwf'.
  cbn [updates] in *. cbv zeta in *.
  destruct (updates (after (update self p j now)) calls) as [self' evs] eqn:E.
  cbn [fst snd] in *. rewrite reports_of_app.
  assert (Hrest : ~ barrier (after (update self p j now)) K ->
                  (1 <= reports_of K evs)%nat).
  { intros Hopen'. specialize (IH (after (update self p j now)) Hwf').
    rewrite E in IH. apply IH; [rewrite Hd; exact Hvalid|exact HK|exact Hopen'|exact Hbar]. }
  destruct (Z.eq_dec j K) as [->|Hne].
  - destruct (update_valid self p K now Hwf Hp Hj) as (_ & _ & _ & _ & b & Hb & Hlog).
    destruct Hlog as [(_ & rest & -> & _)|(-> & _ & _)].
    + unfold reports_of at 1. simpl. rewrite Z.eqb_refl. simpl. lia.
    + enough (1 <= reports_of K evs)%nat by lia. apply Hrest. intros Hbar'.
      assert (HK' : 0 <= K < max_jobs (after (update self p K now))) by (rewrite Hm; exact Hj).
      destruct (row_complete_spec _ K Hwf' HK') as (b' & Hb' & Hspec).
      rewrite Hb in Hb'. injection Hb' as <-.
      assert (false = true) by (apply Hspec; exact Hbar'). discriminate.
  - enough (1 <= reports_of K evs)%nat by lia. apply Hrest. intros Hbar'. apply Hopen.
    intros slot n Hn Hgt. rewrite <- Hd in Hn.
    pose proof (Hbar' slot n Hn Hgt) as Hst.
    assert (Hslot : 0 <= slot).
    { apply dict_get_is_key in Hn. rewrite Hd in Hn. apply (wf_keys _ Hwf) in Hn. lia. }
    apply (stamped_update self p j now K slot Hwf Hp Hj HK Hslot) in Hst
      as [Hst|[Heq _]]; [exact Hst|congruence].
Qed.

Lemma stamped_of_call calls : forall self c,
  wf self ->
  Forall (valid_call (proc_job_dict self)) calls ->
  In c calls ->
  stamped (updates self calls).1 c.1.2 c.1.1.
Proof.
  induction calls as [|[[p j] now] calls IH]; intros self c Hwf Hvalid Hin; [destruct Hin|].
  apply Forall_cons in Hvalid as [Hv Hvalid].
  destruct (valid_call_in_table self _ Hwf Hv) as [Hp Hj]. cbn [fst snd] in Hp, Hj.
  destruct (update_fields self p j now) as (Hd & _).
  pose proof (update_wf self p j now Hwf) as Hwf'.
  change (updates self ((p, j, now) :: calls)).1
    with (updates (after (update self p j now)) calls).1 || idtac.
  assert (Heq : (updates self ((p, j, now) :: calls)).1
                = (updates (after (update self p j now)) calls).1).
  { simpl. destruct (updates (after (update self p j now)) calls). reflexivity. }
  rewrite Heq. destruct Hin as [<-|Hin].
  - cbn [fst snd]. apply stamped_updates.
    apply (stamped_update self p j now j p Hwf Hp Hj); [lia|lia|right; auto].
  - apply IH; [exact Hwf'|rewrite Hd; exact Hvalid|exact Hin].
Qed.

(** X7.  On a printer made for [N >= 1] processes, a sequence of [update]
    calls in which every process reports each of its jobs, and only
    those, once, in any order, enters [print_parallel_message] exactly
    once for every row of the table. *)
Theorem every_job_reported_once
    (N : Z) (d : dict) (self0 : ParallelPrinter) (calls : list (Z * Z * clock)) (K : Z) :
  1 <= N ->
  keys d = range 0 N ->
  ParallelPrinter_init N d = Ok self0 ->
  Forall (valid_call d) calls ->
  NoDup (map fst calls) ->
  (forall p n j, dict_get d p = Ok n -> 0 <= j < n -> In (p, j) (map fst calls)) ->
  0 <= K < max_jobs self0 ->
  reports_of K (updates self0 calls).2 = 1%nat.
Proof.
  intros HN Hk Hinit Hvalid Hnodup Hall HK.
  destruct (keys_range_slots N d Hk) as [_ Hkeys].
  destruct (ParallelPrinter_init_wf N d self0 Hkeys Hinit) as (Hwf0 & Hd0 & _).
  pose proof (written_by_init N d self0 Hkeys Hinit) as Hw0.
  assert (Hle : (reports_of K (updates self0 calls).2 <= 1)%nat).
  { apply (reports_at_most_once_from K calls self0 []); try assumption.
    rewrite Hd0. exact Hvalid. }
  assert (Hge : (1 <= reports_of K (updates self0 calls).2)%nat).
  { apply report_when_barrier_completes.
    - exact Hwf0.
    - rewrite Hd0. exact Hvalid.
    - lia.
    - intros Hbar.
      destruct (In_values_dict_get d (max_jobs self0)) as [slot Hslot].
      { rewrite Hk. apply NoDup_range. }
      { apply py_max_In, (ParallelPrinter_init_max N), Hinit. }
      rewrite <- Hd0 in Hslot.
      assert (Hst : stamped self0 K slot) by (apply (Hbar slot _ Hslot); lia).
      apply Hw0 in Hst; [destruct Hst|lia|].
      apply dict_get_is_key in Hslot. apply (wf_keys _ Hwf0) in Hslot. lia.
    - intros slot n Hn Hgt. rewrite updates_proc_job_dict, Hd0 in Hn.
      assert (Hin : In (slot, K) (map fst calls)) by (apply (Hall slot n K Hn); lia).
      apply in_map_iff in Hin as ([[p j] now] & [= -> ->] & Hin).
      apply (stamped_of_call calls self0 (slot, K, now)); [exact Hwf0| |exact Hin].
      rewrite Hd0. exact Hvalid. }
  lia.
Qed.

Lemma every_job_reported_once_witness :
  exists self0,
    ParallelPrinter_init 2 [(0, 2); (1, 1)] = Ok self0 /\
    reports_of 1 (updates self0 [(1, 0, tick 5); (0, 0, tick 7); (0, 1, tick 9)]).2 = 1%nat.
Proof.
  eexists. split; [vm_compute; reflexivity|].
  apply (every_job_reported_once 2 [(0, 2); (1, 1)]).
  - lia.
  - reflexivity.
  - vm_compute; reflexivity.
  - repeat constructor; unfold valid_call; simpl; eexists; (split; [reflexivity|lia]).
  - apply (bool_decide_unpack _). vm_compute. exact I.
  - intros p n j Hn Hj. cbn [dict_get] in Hn.
    destruct (0 =? p) eqn:E0.
    + apply Z.eqb_eq in E0 as <-. injection Hn as <-.
      assert (j = 0 \/ j = 1) as [->| ->] by lia; simpl; auto.
    + destruct (1 =? p) eqn:E1; [|discriminate].
      apply Z.eqb_eq in E1 as <-. injection Hn as <-.
      assert (j = 0) as -> by lia. simpl; auto.
  - vm_compute. split; congruence.
Defined.

(** * Further properties of the modeler *)

(** ** The split *)

Lemma partition_exn_cases {obs : Type} (df : frame obs) (processors : Z) (e : exn) :
  partition df processors = Raise e ->
  e = ValueError /\ (processors <= 0 \/ 0 < n_groups df < processors)
  \/ e = IndexError /\ 1 <= processors /\ n_groups df = 0.
Proof.
  intros He.
  destruct (partition_raises_iff df processors) as (Hvalue & Hindex & Hok).
  assert (Hpos : 0 <= n_groups df) by (unfold n_groups; lia).
  assert (Hcases : processors <= 0 \/ 0 < n_groups df < processors
                   \/ (1 <= processors /\ n_groups df = 0)
                   \/ 1 <= processors <= n_groups df) by lia.
  destruct Hcases as [H|[H|[H|H]]].
  - left. split; [|auto]. apply proj2 in Hvalue. rewrite Hvalue in He by auto. congruence.
  - left. split; [|auto]. apply proj2 in Hvalue. rewrite Hvalue in He by auto. congruence.
  - right. split; [|exact H]. apply proj2 in Hindex. rewrite Hindex in He by auto.
    congruence.
  - apply Hok in H. rewrite He in H. discriminate.
Qed.

(** X8.  The split of [parallel_fit_predict] returns exactly when the
    number of processors is at least 1 and at most the number of ids of
    the input.  It raises [ValueError] exactly when the number of
    processors is 0 or less ([np.array_split]) or the input has ids, but
    fewer than processors ([pd.concat] of an empty section); it raises
    [IndexError] exactly when the input has no rows and the number of
    processors is at least 1 ([split[:, 1]] on a section of one
    dimension); it raises nothing else. *)
Theorem partition_returns_iff {obs : Type} (df : frame obs) (processors : Z) :
  (is_ok (partition df processors) = true <-> 1 <= processors <= n_groups df)
  /\ (partition df processors = Raise ValueError <->
      processors <= 0 \/ 0 < n_groups df < processors)
  /\ (partition df processors = Raise IndexError <-> 1 <= processors /\ df = [])
  /\ (forall e, partition df processors = Raise e -> e = ValueError \/ e = IndexError).
Proof.
  destruct (partition_raises_iff df processors) as (Hvalue & Hindex & Hok).
  split; [exact Hok|]. split; [exact Hvalue|]. split.
  - rewrite Hindex, n_groups_zero. reflexivity.
  - intros e He. destruct (partition_exn_cases df processors e He) as [[-> _]|[-> _]]; auto.
Qed.

(** X9.  When the split returns, it gives one frame per processor, each
    with [G // N] or [G // N + 1] of the [G] ids, and the ids of the frames
    read one after the other are the ids of the input in increasing
    order, each once: no series is lost, none is given to two workers. *)
Theorem partition_is_balanced
    {obs : Type} (df : frame obs) (processors : Z) (parts : list (frame obs)) :
  partition df processors = Ok parts ->
  Z.of_nat (length parts) = processors
  /\ Forall (fun part => nunique part = n_groups df / processors
                         \/ nunique part = n_groups df / processors + 1) parts
  /\ concat (map (fun part => unique (id_column part)) parts) = sorted_keys (id_column df)
  /\ NoDup (concat (map (fun part => unique (id_column part)) parts)).
Proof. apply partition_balanced. Qed.

Lemma partition_is_balanced_witness :
  let df := [(3, 30); (1, 10); (2, 20); (1, 11); (5, 50)] in
  let parts := [[(1, 10); (1, 11); (2, 20)]; [(3, 30); (5, 50)]] in
  Z.of_nat (length parts) = 2
  /\ Forall (fun part => nunique part = n_groups df / 2
                         \/ nunique part = n_groups df / 2 + 1) parts
  /\ concat (map (fun part => unique (id_column part)) parts) = sorted_keys (id_column df)
  /\ NoDup (concat (map (fun part => unique (id_column part)) parts)).
Proof.
  apply (partition_is_balanced [(3, 30); (1, 10); (2, 20); (1, 11); (5, 50)] 2).
  vm_compute. reflexivity.
Defined.

(** ** The run *)

Lemma ParallelPrinter_init_ok (N : Z) (d : dict) :
  d <> [] -> 1 <= N <= 30 -> exists self0, ParallelPrinter_init N d = Ok self0.
Proof.
  intros Hd HN. destruct (ParallelPrinter_init_cases N d) as [[_ Hok] _].
  destruct (ParallelPrinter_init N d) as [self0|e]; [eauto|].
  discriminate (Hok (conj Hd HN)).
Qed.

Lemma process_job_dict_nonempty {obs : Type} (df : frame obs) (processors : Z)
    (parts : list (frame obs)) :
  partition df processors = Ok parts -> process_job_dict processors parts <> [].
Proof.
  intros Hparts.
  assert (Hok : 1 <= processors <= n_groups df)
    by (apply partition_ok_iff; rewrite Hparts; reflexivity).
  destruct (partition_balanced df processors parts Hparts) as (Hlen & _).
  unfold process_job_dict. intros Hnil. apply (f_equal (@length _)) in Hnil.
  rewrite length_combine, length_range, length_map in Hnil. simpl in Hnil. lia.
Qed.

(** X10.  [parallel_fit_predict] starts its workers exactly when the
    number of processors is at least 1, at most the number of ids and at
    most 30.  Otherwise it raises with nothing printed: [ValueError] for
    0 processors or fewer, [IndexError] for an input with no rows,
    [ValueError] for an input with fewer ids than processors, and, from
    31 processors on, [RemoteError], as which the [ValueError] of the
    printer's constructor, raised in the process of the manager, reaches
    the caller. *)
Theorem workers_start_iff
    {obs pred : Type} (fit_predict : list (Z * obs) -> pred) (categorical : bool)
    (df : frame obs) (processors begin_time : Z) (schedule : list (nat * clock)) :
  let r := parallel_fit_predict fit_predict categorical df processors begin_time schedule in
  (workers_started r = true <->
   1 <= processors <= n_groups df /\ processors <= 30)
  /\ (workers_started r = false ->
      run_log r = []
      /\ returned r
         = Some (Raise (if processors <=? 0 then ValueError
                        else if n_groups df =? 0 then IndexError
                        else if n_groups df <? processors then ValueError
                        else RemoteError))).
Proof.
  intros r. subst r. unfold parallel_fit_predict.
  pose proof (partition_ok_iff df processors) as Hok.
  destruct (partition df processors) as [parts|e] eqn:Hparts.
  - assert (Hrange : 1 <= processors <= n_groups df) by (apply Hok; reflexivity).
    pose proof (process_job_dict_nonempty df processors parts Hparts) as Hne.
    destruct (ParallelPrinter_init_cases processors (process_job_dict processors parts))
      as (Hiff & _).
    destruct (ParallelPrinter_init processors (process_job_dict processors parts))
      as [printer|e] eqn:Hinit.
    + assert (H30 : processors <= 30) by (apply Hiff; reflexivity).
      destruct (starmap _ _ _ _ _) as [[printer' evs] [[res|e]|]]; cbn [workers_started];
        (split; [split; [intros _; lia|reflexivity]|discriminate]).
    + cbn [workers_started returned run_log].
      assert (H31 : 31 <= processors).
      { destruct (Z.leb_spec processors 30) as [Hle|Hgt]; [|lia].
        assert (is_ok (Raise e : result ParallelPrinter) = true)
          by (apply Hiff; split; [exact Hne|lia]).
        discriminate. }
      split; [split; [discriminate|lia]|]. intros _. split; [reflexivity|].
      destruct (Z.leb_spec processors 0); [lia|].
      destruct (Z.eqb_spec (n_groups df) 0); [lia|].
      destruct (Z.ltb_spec (n_groups df) processors); [lia|]. reflexivity.
  - cbn [workers_started returned run_log].
    split.
    + split; [discriminate|]. intros [Hr _]. apply Hok in Hr. discriminate.
    + intros _. split; [reflexivity|].
      destruct (partition_exn_cases df processors e Hparts) as [[-> H]|[-> [H1 H0]]].
      * destruct (Z.leb_spec processors 0); [reflexivity|].
        destruct (Z.eqb_spec (n_groups df) 0); [lia|].
        destruct (Z.ltb_spec (n_groups df) processors); [reflexivity|lia].
      * destruct (Z.leb_spec processors 0); [lia|].
        destruct (Z.eqb_spec (n_groups df) 0); [reflexivity|lia].
Qed.

(** X11.  [multi_fit_predict] returns predictions only with [parallelize]
    set (the serial branch raises [TypeError]: it calls
    [iterative_fit_predict] without the process number and the printer),
    on a frame whose id column is categorical (on another the workers
    raise [AttributeError]), with 1 to 30 processors and no more
    processors than ids; the result then has one row per id of the input,
    in increasing order of the ids, holding what [fit_predict] returns on
    the rows of that id, whatever the order in which the workers ran. *)
Theorem multi_fit_predict_result
    {obs pred : Type} (fit_predict : list (Z * obs) -> pred)
    (parallelize categorical : bool) (df : frame obs) (processors begin_time : Z)
    (schedule : list (nat * clock)) (predictions : list (Z * pred)) :
  returned (multi_fit_predict fit_predict parallelize categorical df processors
              begin_time schedule)
  = Some (Ok predictions) ->
  parallelize = true
  /\ categorical = true
  /\ 1 <= processors <= n_groups df /\ processors <= 30
  /\ predictions = map (fun g : Z * frame obs => (g.1, fit_predict g.2)) (groupby df).
Proof.
  unfold multi_fit_predict. destruct parallelize; [|discriminate]. cbv zeta. intros Hret.
  split; [reflexivity|].
  destruct (parallel_fit_predict_result fit_predict categorical df processors begin_time
              schedule predictions Hret) as [Hcat Hres].
  split; [exact Hcat|].
  enough (1 <= processors <= n_groups df /\ processors <= 30) as [H1 H2] by auto.
  revert Hret. unfold parallel_fit_predict.
  pose proof (partition_ok_iff df processors) as Hok.
  destruct (partition df processors) as [parts|e] eqn:Hparts; [|discriminate].
  pose proof (process_job_dict_nonempty df processors parts Hparts) as Hne.
  destruct (ParallelPrinter_init_cases processors (process_job_dict processors parts))
    as (Hiff & _).
  destruct (ParallelPrinter_init processors (process_job_dict processors parts))
    as [printer|e] eqn:Hinit; [|discriminate].
  intros _. split; [apply Hok; reflexivity|apply Hiff; reflexivity].
Qed.

Lemma multi_fit_predict_result_witness :
  let fit := fun x : list (Z * Z) => fold_right Z.add 0 (map snd x) in
  let df := [(3, 30); (1, 10); (2, 20); (2, 1)] in
  true = true
  /\ true = true
  /\ 1 <= 2 <= n_groups df /\ 2 <= 30
  /\ [(1, 10); (2, 21); (3, 30)]
     = map (fun g : Z * frame Z => (g.1, fit g.2)) (groupby df).
Proof.
  apply (multi_fit_predict_result
           (fun x : list (Z * Z) => fold_right Z.add 0 (map snd x)) true true
           [(3, 30); (1, 10); (2, 20); (2, 1)] 2 100
           [(0%nat, tick 105); (0%nat, tick 106); (1%nat, tick 107)]).
  vm_compute. reflexivity.
Defined.

(** ** Workers that report in order *)

Lemma in_order_valid (d : dict) (calls : list (Z * Z * clock)) :
  in_order d calls -> Forall (valid_call d) calls.
Proof.
  intros Hord. apply List.Forall_forall. intros c Hin.
  apply in_split in Hin as (pre & post & ->). apply (Hord pre c post eq_refl).
Qed.

Lemma in_order_prefix (d : dict) (l1 l2 : list (Z * Z * clock)) :
  in_order d (l1 ++ l2) -> in_order d l1.
Proof.
  intros Hord pre c post ->. apply (Hord pre c (post ++ l2)).
  rewrite <- app_assoc. reflexivity.
Qed.

Lemma in_order_closed (d : dict) (calls : list (Z * Z * clock)) (p j : Z) :
  in_order d calls -> In (p, j) (map fst calls) -> 0 < j ->
  In (p, j - 1) (map fst calls).
Proof.
  intros Hord Hin Hj. apply in_map_iff in Hin as ([[p' j'] now] & [= -> ->] & Hin).
  apply in_split in Hin as (pre & post & ->).
  destruct (Hord pre (p, j, now) post eq_refl) as [_ Hprev].
  rewrite map_app. apply in_or_app. left. apply Hprev. exact Hj.
Qed.

(** A row that every process has is reported without an exception when
    the processes report in order. *)
Lemma update_in_order_no_raise
    (N : Z) (d : dict) (self0 : ParallelPrinter) (t0 : Z)
    (calls : list (Z * Z * clock)) (proc_num job_num : Z) (now : clock) :
  1 <= N ->
  keys d = range 0 N ->
  ParallelPrinter_init N d = Ok self0 ->
  in_order d (calls ++ [(proc_num, job_num, now)]) ->
  (forall slot v, dict_get d slot = Ok v -> job_num < v) ->
  raised (update (updates (after (print_notify_parallel_begin self0 t0)) calls).1
                 proc_num job_num now) = None.
Proof.
  intros HN Hk Hinit Hord Hall.
  pose proof (in_order_prefix _ _ _ Hord) as Hord0.
  pose proof (in_order_valid _ _ Hord0) as Hvalid.
  destruct (Hord calls (proc_num, job_num, now) [] eq_refl) as [Hv Hlast].
  cbn [fst snd] in Hlast.
  destruct (started_printer N d self0 t0 calls HN Hk Hinit)
    as (Hwf & Hd & Hm & Hs & Hlen & Hwritten).
  specialize (Hwritten Hvalid).
  destruct (started_printer N d self0 t0 [] HN Hk Hinit)
    as (Hwfb & Hdb & _). cbn [updates fst] in Hwfb, Hdb.
  set (selfb := after (print_notify_parallel_begin self0 t0)) in *.
  set (self := (updates selfb calls).1) in *.
  assert (Hv' : valid_call (proc_job_dict self) (proc_num, job_num, now))
    by (rewrite Hd; exact Hv).
  destruct (valid_call_in_table self _ Hwf Hv') as [Hp Hj]. cbn [fst snd] in Hp, Hj.
  rewrite Hd, Hlen in Hp. rewrite Hm in Hj.
  destruct (update_raises_cases N d self0 t0 calls proc_num job_num now HN Hk Hinit Hp Hj)
    as [Hkind Hiff].
  fold selfb in Hkind, Hiff. fold self in Hkind, Hiff.
  destruct Hkind as [Hnone|Hte]; [exact Hnone|]. exfalso.
  apply Hiff in Hte as [Hbar (slot & Hslot & Hun)].
  assert (Hkey : In slot (keys d)) by (rewrite Hk; apply In_range; lia).
  destruct (dict_get_key d slot Hkey) as [v Hget].
  pose proof (Hall slot v Hget) as Hlt.
  destruct (update_fields self proc_num job_num now) as (Hd' & _ & Hs' & _).
  assert (Hst : stamped (after (update self proc_num job_num now)) job_num slot).
  { apply (Hbar slot v); [rewrite Hd', Hd; exact Hget|lia]. }
  destruct Hun as [[_ Hnp]|[Hns _]]; [|exact (Hns Hst)].
  apply Hnp. unfold prev_is_time, prev_cell.
  destruct (job_num =? 0) eqn:E0.
  { rewrite Hs', Hs. eauto. }
  apply Z.eqb_neq in E0.
  assert (Hp' : 0 <= proc_num < Z.of_nat (length (proc_job_dict self))) by (rewrite Hd; lia).
  assert (Hj' : 0 <= job_num < max_jobs self) by (rewrite Hm; exact Hj).
  assert (Hin : In (slot, job_num - 1) (map fst calls)).
  { apply (stamped_update self proc_num job_num now job_num slot Hwf Hp' Hj') in Hst
      as [Hst|[_ ->]]; [| |lia|lia].
    - apply (in_order_closed d); [exact Hord0| |lia].
      apply Hwritten; [lia|lia|exact Hst].
    - apply Hlast. lia. }
  apply in_map_iff in Hin as ([[p' j'] now'] & [= -> ->] & Hin).
  assert (Hprev : stamped self (job_num - 1) slot).
  { apply (stamped_of_call calls selfb (slot, job_num - 1, now') Hwfb); [|exact Hin].
    rewrite Hdb. exact Hvalid. }
  apply (stamped_update_any self proc_num job_num now) in Hprev.
  exact Hprev.
Qed.

(** X12.  Between [print_notify_parallel_begin] and the end of the run,
    when the processes report their jobs in order, a call of [update] for
    a job index that every process has (a job index below the job count
    of the shortest process) never raises. *)
Theorem common_rows_never_raise
    (N : Z) (d : dict) (self0 : ParallelPrinter) (t0 : Z)
    (calls : list (Z * Z * clock)) (proc_num job_num : Z) (now : clock) :
  1 <= N ->
  keys d = range 0 N ->
  ParallelPrinter_init N d = Ok self0 ->
  in_order d (calls ++ [(proc_num, job_num, now)]) ->
  (forall slot v, dict_get d slot = Ok v -> job_num < v) ->
  raised (update (updates (after (print_notify_parallel_begin self0 t0)) calls).1
                 proc_num job_num now) = None.
Proof. apply update_in_order_no_raise. Qed.

Lemma in_order_nil (d : dict) : in_order d [].
Proof. intros pre c post H. destruct pre; discriminate. Qed.

Lemma in_order_snoc (d : dict) (calls : list (Z * Z * clock)) (c : Z * Z * clock) :
  in_order d calls ->
  valid_call d c ->
  (0 < c.1.2 -> In (c.1.1, c.1.2 - 1) (map fst calls)) ->
  in_order d (calls ++ [c]).
Proof.
  intros Hord Hv Hprev pre c' post Heq.
  destruct post as [|x post] using rev_ind.
  - apply app_inj_tail in Heq as [<- <-]. auto.
  - clear IHpost. change (pre ++ c' :: post ++ [x]) with (pre ++ (c' :: post) ++ [x]) in Heq.
    rewrite app_assoc in Heq. apply app_inj_tail in Heq as [-> _].
    apply (Hord pre c' post eq_refl).
Qed.

Lemma common_rows_never_raise_witness :
  exists self0,
    ParallelPrinter_init 2 [(0, 3); (1, 2)] = Ok self0 /\
    raised (update (updates (after (print_notify_parallel_begin self0 100))
                            [(0, 0, tick 110); (1, 0, tick 112); (1, 1, tick 115)]).1
                   0 1 (tick 120)) = None.
Proof.
  eexists. split; [vm_compute; reflexivity|].
  apply (common_rows_never_raise 2 [(0, 3); (1, 2)]).
  - lia.
  - reflexivity.
  - vm_compute; reflexivity.
  - apply (in_order_snoc _ [(0, 0, tick 110); (1, 0, tick 112); (1, 1, tick 115)]);
      [apply (in_order_snoc _ [(0, 0, tick 110); (1, 0, tick 112)]);
       [apply (in_order_snoc _ [(0, 0, tick 110)]);
        [apply (in_order_snoc _ []); [apply in_order_nil| |]| |]| |]| |];
      try (exists 3; split; [reflexivity|simpl; lia]);
      try (exists 2; split; [reflexivity|simpl; lia]);
      simpl; intros; auto; lia.
  - intros slot v. cbn [dict_get].
    destruct (0 =? slot); [intros [= <-]; lia|].
    destruct (1 =? slot); [intros [= <-]; lia|discriminate].
Defined.

(** ** Runs that return *)

Lemma turns_of_snoc (s slot : nat) (now : clock) (done : list (nat * clock)) :
  turns_of s (done ++ [(slot, now)])
  = (turns_of s done + if Nat.eqb slot s then 1 else 0)%nat.
Proof.
  unfold turns_of. rewrite List.filter_app, length_app. simpl.
  destruct (Nat.eqb slot s); reflexivity.
Qed.

Lemma numbered_from_drop {obs : Type} (sec : list (Z * frame obs)) (k : nat) (g : Z * frame obs) :
  sec !! k = Some g ->
  numbered_from k (drop k sec)
  = (g.1, g.2, Ok (Z.of_nat k)) :: numbered_from (S k) (drop (S k) sec).
Proof.
  intros Hg. rewrite (drop_S _ _ _ Hg). reflexivity.
Qed.

Section Steps.

Context {obs pred : Type}.
Variable fit_predict : list (Z * obs) -> pred.
Variables (N : Z) (d : dict) (self0 : ParallelPrinter) (t0 : Z).
Variable secs : list (list (Z * frame obs)).
Hypothesis HN : 1 <= N.
Hypothesis Hk : keys d = range 0 N.
Hypothesis Hinit : ParallelPrinter_init N d = Ok self0.
Hypothesis Hsecs : Z.of_nat (length secs) = N.
Hypothesis Hjobs : forall slot sec, secs !! slot = Some sec ->
  dict_get d (Z.of_nat slot) = Ok (Z.of_nat (length sec)).

(** A turn of the worker in [slot] keeps the pool in order when the call
    of [update] it makes, if it makes one, does not raise. *)
Lemma pool_step_ok (p : pool obs pred) (done : list (nat * clock))
    (calls : list (Z * Z * clock)) (slot : nat) (now : clock) :
  pool_inv (after (print_notify_parallel_begin self0 t0)) d secs done p calls ->
  (forall sec, secs !! slot = Some sec ->
     (turns_of slot done < length sec)%nat ->
     in_order d (calls ++ [(Z.of_nat slot, Z.of_nat (turns_of slot done), now)]) ->
     raised (update (updates (after (print_notify_parallel_begin self0 t0)) calls).1
                    (Z.of_nat slot) (Z.of_nat (turns_of slot done)) now) = None) ->
  exists calls',
    pool_inv (after (print_notify_parallel_begin self0 t0)) d secs (done ++ [(slot, now)])
             (pool_step fit_predict p slot now) calls'.
Proof.
  intros (Hprinter & Hff & Hlen & Hord & Hslots & Hws) Hsafe.
  assert (Hother : forall s, s <> slot ->
            turns_of s (done ++ [(slot, now)]) = turns_of s done).
  { intros s Hs. rewrite turns_of_snoc. destruct (Nat.eqb_spec slot s); [congruence|lia]. }
  unfold pool_step.
  destruct (workers p !! slot) as [w|] eqn:Hw.
  2:{ exists calls. repeat (split; [assumption|]).
      intros s w' sec Hw' Hsec. rewrite Hother by (intros ->; congruence).
      apply (Hws s w' sec Hw' Hsec). }
  destruct (lookup_lt_is_Some_2 secs slot) as [sec Hsec];
    [rewrite <- Hlen; eapply lookup_lt_Some, Hw|].
  destruct (Hws slot w sec Hw Hsec) as (Hfail & Hretr & Hjobsw & Htodo & Hcalls).
  cbv zeta in Htodo, Hcalls. rewrite Hfail.
  destruct (Nat.lt_ge_cases (turns_of slot done) (length sec)) as [Hlt|Hge].
  - (* the worker has a group left *)
    specialize (Hsafe sec Hsec Hlt).
    rewrite Nat.min_l in Htodo, Hcalls by lia.
    set (k := turns_of slot done) in *.
    destruct (lookup_lt_is_Some_2 sec k Hlt) as [g Hg].
    rewrite (numbered_from_drop sec k g Hg) in Htodo. rewrite Htodo.
    unfold fit_predict_wrapper. cbv zeta.
    set (c := (Z.of_nat slot, Z.of_nat k, now)) in *.
    assert (Hord' : in_order d (calls ++ [c])).
    { apply in_order_snoc; [exact Hord| |].
      - exists (Z.of_nat (length sec)). split; [apply Hjobs, Hsec|]. unfold c. simpl. lia.
      - unfold c. cbn [fst snd]. intros Hpos. apply Hcalls. lia. }
    assert (Hraised : raised (update (shared_printer p) (Z.of_nat slot) (Z.of_nat k) now)
                      = None).
    { rewrite Hprinter. apply Hsafe, Hord'. }
    exists (calls ++ [c]). unfold pool_inv. cbn [shared_printer first_failure workers].
    rewrite Hff, Hraised. split; [|split; [reflexivity|split; [|split; [exact Hord'|split]]]].
    + unfold c. rewrite updates_app, updates_one. cbn [fst]. rewrite Hprinter. reflexivity.
    + rewrite length_insert. exact Hlen.
    + intros c' Hin. apply in_app_or in Hin as [Hin|[<-|[]]]; [apply Hslots, Hin|].
      exists slot. split; [reflexivity|]. eapply lookup_lt_Some, Hsec.
    + intros s w' sec' Hw' Hsec'. destruct (Nat.eq_dec s slot) as [->|Hne].
      * rewrite list_lookup_insert_eq in Hw' by (eapply lookup_lt_Some, Hw).
        injection Hw' as <-. rewrite Hsec in Hsec'. injection Hsec' as <-.
        rewrite turns_of_snoc, Nat.eqb_refl. fold k.
        rewrite Nat.min_l by lia. cbn [failure todo retried jobs].
        replace (k + 1)%nat with (S k) by lia.
        split; [reflexivity|]. split; [exact Hretr|]. split; [exact Hjobsw|].
        split; [reflexivity|].
        intros j. rewrite map_app, in_app_iff, Hcalls. unfold c. simpl.
        split; [intros [H|[[= <-]|[]]]; lia|intros H].
        destruct (Z.eq_dec j (Z.of_nat k)) as [->|Hne]; [right; left; reflexivity|left; lia].
      * rewrite list_lookup_insert_ne in Hw' by auto. rewrite Hother by exact Hne.
        destruct (Hws s w' sec' Hw' Hsec') as (Hf' & Hr' & Hj' & Ht' & Hc').
        split; [exact Hf'|]. split; [exact Hr'|]. split; [exact Hj'|]. split; [exact Ht'|].
        intros j. rewrite map_app, in_app_iff, Hc'. unfold c. simpl.
        split; [intros [H|[[= H _]|[]]]; [exact H|lia]|auto].
  - (* the worker is done *)
    rewrite Nat.min_r in Htodo by lia. rewrite drop_all in Htodo. simpl in Htodo.
    rewrite Htodo. exists calls. repeat (split; [assumption|]).
    intros s w' sec' Hw' Hsec'. destruct (Nat.eq_dec s slot) as [->|Hne].
    + rewrite Hw in Hw'. injection Hw' as <-. rewrite Hsec in Hsec'. injection Hsec' as <-.
      rewrite turns_of_snoc, Nat.eqb_refl.
      replace (Nat.min (turns_of slot done + 1) (length sec))
        with (Nat.min (turns_of slot done) (length sec)) by lia.
      apply (Hws slot w sec Hw Hsec).
    + rewrite Hother by exact Hne. apply (Hws s w' sec' Hw' Hsec').
Qed.

Lemma pool_run_ok (schedule : list (nat * clock)) :
  forall (p : pool obs pred) (done : list (nat * clock)) (calls : list (Z * Z * clock)),
  pool_inv (after (print_notify_parallel_begin self0 t0)) d secs done p calls ->
  (forall pre slot now post, schedule = pre ++ (slot, now) :: post ->
     forall (p1 : pool obs pred) calls1 sec,
       pool_inv (after (print_notify_parallel_begin self0 t0)) d secs (done ++ pre) p1 calls1 ->
       secs !! slot = Some sec ->
       (turns_of slot (done ++ pre) < length sec)%nat ->
       in_order d (calls1 ++ [(Z.of_nat slot, Z.of_nat (turns_of slot (done ++ pre)), now)]) ->
       raised (update (updates (after (print_notify_parallel_begin self0 t0)) calls1).1
                      (Z.of_nat slot) (Z.of_nat (turns_of slot (done ++ pre))) now) = None) ->
  exists calls',
    pool_inv (after (print_notify_parallel_begin self0 t0)) d secs (done ++ schedule)
             (pool_run fit_predict p schedule) calls'.
Proof.
  induction schedule as [|[slot now] schedule IH]; intros p done calls Hinv Hsafe.
  - rewrite app_nil_r. exists calls. exact Hinv.
  - destruct (pool_step_ok p done calls slot now Hinv) as [calls1 Hinv1].
    { intros sec Hsec Hlt Hord.
      pose proof (Hsafe [] slot now schedule eq_refl p calls sec) as H.
      rewrite app_nil_r in H. apply H; assumption. }
    destruct (IH _ _ _ Hinv1) as [calls2 Hinv2].
    { intros pre s t post -> p1 calls' sec Hinv' Hsec Hlt Hord.
      rewrite <- app_assoc in Hinv', Hlt, Hord |- *.
      apply (Hsafe ((slot, now) :: pre) s t post eq_refl p1 calls' sec); assumption. }
    exists calls2. rewrite <- app_assoc in Hinv2. exact Hinv2.
Qed.

(** With as many groups for every worker no call raises, whatever the
    schedule. *)
Lemma pool_run_even (n : nat) (schedule : list (nat * clock)) :
  Forall (fun sec => length sec = n) secs ->
  forall (p : pool obs pred) (done : list (nat * clock)) (calls : list (Z * Z * clock)),
  pool_inv (after (print_notify_parallel_begin self0 t0)) d secs done p calls ->
  exists calls',
    pool_inv (after (print_notify_parallel_begin self0 t0)) d secs (done ++ schedule)
             (pool_run fit_predict p schedule) calls'.
Proof.
  intros Heven p done calls Hinv. apply (pool_run_ok schedule p done calls Hinv).
  intros pre slot now post _ p1 calls1 sec _ Hsec Hlt Hord.
  apply (update_in_order_no_raise N d self0 t0 calls1 _ _ now HN Hk Hinit Hord).
  intros s v Hget. pose proof (dict_get_is_key _ _ _ Hget) as Hin.
  rewrite Hk in Hin. apply In_range in Hin.
  destruct (lookup_lt_is_Some_2 secs (Z.to_nat s)) as [sec' Hsec']; [lia|].
  pose proof (Hjobs _ _ Hsec') as Hget'. rewrite Z2Nat.id in Hget' by lia.
  rewrite Hget in Hget'. injection Hget' as ->.
  pose proof (Forall_lookup_1 _ _ _ _ Heven Hsec) as H1.
  pose proof (Forall_lookup_1 _ _ _ _ Heven Hsec') as H2. cbv beta in H1, H2. lia.
Qed.

End Steps.

Lemma array_split_even {A : Type} (ary : list A) (n : Z) (secs : list (list A)) :
  1 <= n ->
  (length ary mod Z.to_nat n = 0)%nat ->
  array_split ary n = Ok secs ->
  Forall (fun sec => length sec = (length ary / Z.to_nat n)%nat) secs.
Proof.
  intros Hn Hmod. unfold array_split. destruct (n <=? 0) eqn:E; [discriminate|].
  intros [= <-].
  destruct (section_sizes_spec (length ary) (Z.to_nat n) ltac:(lia)) as (_ & Hsum & _).
  pose proof (split_sections_lengths (section_sizes (length ary) (Z.to_nat n)) ary
                ltac:(lia)) as HF.
  eapply Forall2_Forall_l; [exact HF|].
  unfold section_sizes. rewrite Hmod. simpl.
  apply Forall_replicate. intros sec Hsec. exact Hsec.
Qed.

Lemma process_job_dict_get {obs : Type} (processors : Z) (parts : list (frame obs))
    (secs : list (list (Z * frame obs))) (slot : nat) (sec : list (Z * frame obs)) :
  Z.of_nat (length parts) = processors ->
  Forall2 (fun part sec => sec <> [] /\ grouped part sec) parts secs ->
  secs !! slot = Some sec ->
  dict_get (process_job_dict processors parts) (Z.of_nat slot) = Ok (Z.of_nat (length sec)).
Proof.
  intros Hlen HF Hsec.
  destruct (Forall2_lookup_r _ _ _ _ _ HF Hsec) as (part & Hpart & _ & Hg).
  unfold process_job_dict, range. rewrite Z.sub_0_r.
  change slot with (0 + slot)%nat at 1.
  apply dict_get_combine_seq.
  - rewrite list_lookup_fmap, Hpart. simpl. f_equal.
    unfold nunique. rewrite (grouped_unique part sec Hg), length_map. reflexivity.
  - apply lookup_lt_Some in Hpart. lia.
Qed.

Section Returns.

Context {obs pred : Type}.
Variable fit_predict : list (Z * obs) -> pred.

(** On a frame of the split with a categorical id column a worker starts
    with the groups of the frame, numbered from 0. *)
Lemma start_worker_grouped (part : frame obs) (sec : list (Z * frame obs)) :
  grouped part sec ->
  start_worker (pred := pred) true part
  = {| jobs := numbered_from 0 sec; todo := numbered_from 0 sec; predictions_df := [];
       retried := false; failure := None |}.
Proof.
  intros Hg. unfold start_worker. rewrite (worker_jobs_grouped part sec Hg). reflexivity.
Qed.

Lemma first_failed_start (parts : list (frame obs)) (secs : list (list (Z * frame obs))) :
  Forall2 (fun part sec => sec <> [] /\ grouped part sec) parts secs ->
  first_failed (map (start_worker (pred := pred) true) parts) = None.
Proof.
  induction 1 as [|part sec parts secs [_ Hg] _ IH]; [reflexivity|].
  cbn [map first_failed]. rewrite (start_worker_grouped part sec Hg). exact IH.
Qed.

(** With as many groups in every frame, [starmap] returns results under
    every schedule that gives each worker a turn for each of its groups. *)
Lemma starmap_even (processors : Z) (parts : list (frame obs))
    (secs : list (list (Z * frame obs))) (n : nat)
    (self0 : ParallelPrinter) (t0 : Z) (schedule : list (nat * clock)) :
  1 <= processors ->
  Z.of_nat (length parts) = processors ->
  Forall2 (fun part sec => sec <> [] /\ grouped part sec) parts secs ->
  Forall (fun sec => length sec = n) secs ->
  ParallelPrinter_init processors (process_job_dict processors parts) = Ok self0 ->
  (forall slot, (slot < Z.to_nat processors)%nat -> (n <= turns_of slot schedule)%nat) ->
  exists results,
    (starmap fit_predict true (after (print_notify_parallel_begin self0 t0)) parts
       schedule).2
    = Some (Ok results)
    /\ results <> [].
Proof.
  intros HN Hlen HF Heven Hinit Hturns.
  pose proof (Forall2_length _ _ _ HF) as Hlen2.
  set (d := process_job_dict processors parts) in *.
  unfold starmap. cbv zeta. cbn [snd].
  match goal with
  | |- context [pool_run fit_predict ?p0 schedule] => set (p0' := p0)
  end.
  assert (Hinv0 : pool_inv (after (print_notify_parallel_begin self0 t0)) d secs [] p0' []).
  { unfold pool_inv, p0'. cbn [shared_printer first_failure workers updates fst].
    split; [reflexivity|]. split; [apply (first_failed_start parts secs HF)|].
    split; [rewrite length_map; exact Hlen2|].
    split; [apply in_order_nil|]. split; [intros c []|].
    intros slot w sec Hw Hsec. rewrite list_lookup_fmap in Hw.
    destruct (parts !! slot) as [part|] eqn:Hpart; [|discriminate]. injection Hw as <-.
    destruct (Forall2_lookup_lr _ _ _ _ _ _ HF Hpart Hsec) as [_ Hg].
    rewrite (start_worker_grouped part sec Hg).
    unfold turns_of. simpl. rewrite drop_0. cbn [failure todo retried jobs].
    repeat (split; [reflexivity|]).
    intros j. split; [intros []|lia]. }
  destruct (pool_run_even fit_predict processors d self0 t0 secs HN
              (process_job_dict_keys processors parts Hlen) Hinit ltac:(lia)
              (fun slot sec Hsec => process_job_dict_get processors parts secs slot sec
                                      Hlen HF Hsec)
              n schedule Heven p0' [] [] Hinv0)
    as (calls & _ & Hff & Hlenw & _ & _ & Hws).
  simpl in Hws. rewrite Hff.
  assert (Hfin : forallb finished (workers (pool_run fit_predict p0' schedule)) = true).
  { apply forallb_forall. intros w Hin.
    apply list_elem_of_In, list_elem_of_lookup in Hin as [slot Hw].
    destruct (lookup_lt_is_Some_2 secs slot) as [sec Hsec];
      [rewrite <- Hlenw; eapply lookup_lt_Some, Hw|].
    destruct (Hws slot w sec Hw Hsec) as (Hfail & _ & _ & Htodo & _).
    pose proof (Forall_lookup_1 _ _ _ _ Heven Hsec) as Hsecn. cbv beta in Hsecn.
    assert (Hslot : (slot < Z.to_nat processors)%nat)
      by (apply lookup_lt_Some in Hsec; lia).
    specialize (Hturns slot Hslot).
    rewrite Nat.min_r in Htodo by lia. rewrite drop_all in Htodo.
    unfold finished. rewrite Hfail, Htodo. reflexivity. }
  rewrite Hfin. eexists. split; [reflexivity|].
  intros Hnil. apply (f_equal (@length _)) in Hnil.
  rewrite length_map, Hlenw in Hnil. simpl in Hnil. lia.
Qed.

(** With a number of ids that is a multiple of the number of processors
    (at most 30), every schedule that lets each worker finish makes
    [parallel_fit_predict] return the predictions. *)
Lemma parallel_fit_predict_even (df : frame obs) (processors begin_time : Z)
    (schedule : list (nat * clock)) :
  1 <= processors <= 30 ->
  processors <= n_groups df ->
  n_groups df mod processors = 0 ->
  (forall slot, (slot < Z.to_nat processors)%nat ->
                (Z.to_nat (n_groups df / processors) <= turns_of slot schedule)%nat) ->
  returned (parallel_fit_predict fit_predict true df processors begin_time schedule)
  = Some (Ok (map (fun g : Z * frame obs => (g.1, fit_predict g.2)) (groupby df))).
Proof.
  intros HN HG Hmod Hturns.
  enough (exists predictions,
            returned (parallel_fit_predict fit_predict true df processors begin_time
                        schedule)
            = Some (Ok predictions)) as [predictions Hret].
  { rewrite Hret. do 2 f_equal. eapply parallel_fit_predict_result, Hret. }
  unfold parallel_fit_predict.
  destruct (partition df processors) as [parts|e] eqn:Hparts.
  2:{ assert (is_ok (partition df processors) = true)
        by (apply partition_ok_iff; lia).
      rewrite Hparts in H. discriminate. }
  destruct (partition_parts df processors parts Hparts) as (secs & Hsplit & HF).
  destruct (partition_balanced df processors parts Hparts) as (Hlen & _).
  destruct (ParallelPrinter_init_ok processors (process_job_dict processors parts))
    as [self0 Hinit]; [eapply process_job_dict_nonempty, Hparts|lia|].
  rewrite Hinit.
  unfold n_groups in Hmod, Hturns.
  assert (Hmod' : (length (groupby df) mod Z.to_nat processors = 0)%nat).
  { apply Nat2Z.inj. rewrite Nat2Z.inj_mod, Z2Nat.id by lia. exact Hmod. }
  assert (Hdiv : Z.to_nat (Z.of_nat (length (groupby df)) / processors)
                 = (length (groupby df) / Z.to_nat processors)%nat).
  { apply Nat2Z.inj. rewrite Nat2Z.inj_div, !Z2Nat.id; [reflexivity|lia|].
    apply Z.div_pos; lia. }
  rewrite Hdiv in Hturns.
  pose proof (array_split_even (groupby df) processors secs ltac:(lia) Hmod' Hsplit)
    as Heven.
  destruct (starmap_even processors parts secs _ self0 begin_time schedule
              ltac:(lia) Hlen HF Heven Hinit Hturns) as (results & Hstar & Hne).
  destruct (starmap _ _ _ _ _) as [[printer evs] res]. cbn [snd] in Hstar. subst res.
  cbn [returned]. destruct results as [|r results]; [contradiction|].
  eexists. reflexivity.
Qed.

End Returns.

(** X13.  On a frame with a categorical id column, when the number of
    ids is a multiple of the number of processors (1 to 30), so that
    every worker has as many series, [parallel_fit_predict] returns under
    every schedule that lets each worker finish its series, and the
    result has the prediction of every id, in increasing order of the
    ids: no interleaving of the workers makes a report raise. *)
Theorem even_split_always_returns
    {obs pred : Type} (fit_predict : list (Z * obs) -> pred)
    (df : frame obs) (processors begin_time : Z) (schedule : list (nat * clock)) :
  1 <= processors <= 30 ->
  processors <= n_groups df ->
  n_groups df mod processors = 0 ->
  (forall slot, (slot < Z.to_nat processors)%nat ->
                (Z.to_nat (n_groups df / processors) <= turns_of slot schedule)%nat) ->
  returned (parallel_fit_predict fit_predict true df processors begin_time schedule)
  = Some (Ok (map (fun g : Z * frame obs => (g.1, fit_predict g.2)) (groupby df))).
Proof. apply parallel_fit_predict_even. Qed.

Lemma even_split_always_returns_witness :
  let fit := fun x : list (Z * Z) => fold_right Z.add 0 (map snd x) in
  let df := [(4, 40); (1, 10); (2, 20); (2, 1); (3, 30)] in
  let schedule := [(1%nat, tick 105); (0%nat, tick 106); (1%nat, tick 107);
                   (0%nat, tick 108)] in
  returned (parallel_fit_predict fit true df 2 100 schedule)
  = Some (Ok (map (fun g : Z * frame Z => (g.1, fit g.2)) (groupby df))).
Proof.
  apply (even_split_always_returns
           (fun x : list (Z * Z) => fold_right Z.add 0 (map snd x))
           [(4, 40); (1, 10); (2, 20); (2, 1); (3, 30)] 2 100
           [(1%nat, tick 105); (0%nat, tick 106); (1%nat, tick 107); (0%nat, tick 108)]).
  - lia.
  - vm_compute. congruence.
  - reflexivity.
  - intros slot Hslot. change (Z.to_nat 2) with 2%nat in Hslot.
    destruct slot as [|[|slot]]; [vm_compute; lia|vm_compute; lia|lia].
Defined.

(** ** The job numbers of a worker *)

Lemma first_index_lookup (l : list Z) (k : Z) :
  In k l -> exists i, first_index l k = Ok (Z.of_nat i) /\ l !! i = Some k.
Proof.
  induction l as [|x l IH]; simpl; [contradiction|]. intros Hin.
  destruct (x =? k) eqn:E.
  - apply Z.eqb_eq in E as ->. exists 0%nat. split; reflexivity.
  - destruct Hin as [->|Hin]; [rewrite Z.eqb_refl in E; discriminate|].
    destruct (IH Hin) as (i & -> & Hi). exists (S i). split; [simpl; f_equal; lia|exact Hi].
Qed.

Lemma NoDup_unique (l : list Z) : NoDup (unique l).
Proof.
  induction l as [|x l IH]; simpl; [constructor|].
  apply NoDup_cons. split.
  - rewrite list_elem_of_In, filter_In, Z.eqb_refl. intros [_ H]. discriminate.
  - clear -IH. induction IH as [|y ys Hy Hys IH']; simpl; [constructor|].
    destruct (negb (y =? x)); [|exact IH'].
    apply NoDup_cons. split; [|exact IH'].
    rewrite list_elem_of_In, filter_In. intros [Hin _].
    apply Hy, list_elem_of_In, Hin.
Qed.

Lemma first_index_NoDup (l : list Z) :
  NoDup l -> forall (i : nat) (k : Z), l !! i = Some k -> first_index l k = Ok (Z.of_nat i).
Proof.
  induction 1 as [|x l Hx Hnd IH]; intros i k Hi; [discriminate|].
  destruct i as [|i]; cbn [first_index].
  - injection Hi as ->. rewrite Z.eqb_refl. reflexivity.
  - cbn in Hi. destruct (Z.eqb_spec x k) as [->|Hne].
    + exfalso. apply Hx. eapply list_elem_of_lookup_2, Hi.
    + rewrite (IH i k Hi). cbn [rbind]. f_equal. lia.
Qed.

(** X14.  On every frame with a categorical id column, whatever the order
    of its rows, [iterative_fit_predict] visits the ids in the order of
    their first appearance in the frame, and the job numbers it computes
    for the groups are found (no [IndexError]), are pairwise different,
    and number the ids by first appearance: as many jobs as ids, each
    with the position of its id among the ids as they first appear, so
    that the groups are numbered 0, 1, ... as they are visited.  On a
    frame whose id column is not categorical, [unique()] gives an array,
    which has no [to_numpy], and the method raises [AttributeError]. *)
Theorem job_numbers_number_the_ids {obs : Type} (df : frame obs) :
  worker_jobs false df = Raise AttributeError
  /\ exists jobs,
       worker_jobs true df = Ok jobs
       /\ Z.of_nat (length jobs) = nunique df
       /\ NoDup (map (fun j : Z * frame obs * result Z => j.2) jobs)
       /\ Forall (fun j : Z * frame obs * result Z =>
                    exists i, j.2 = Ok (Z.of_nat i)
                              /\ unique (id_column df) !! i = Some j.1.1)
                 jobs
       /\ map (fun j : Z * frame obs * result Z => j.1.1) jobs = unique (id_column df)
       /\ map (fun j : Z * frame obs * result Z => j.2) jobs
          = map (fun i => Ok (Z.of_nat i)) (seq 0 (length jobs)).
Proof.
  split; [reflexivity|].
  eexists. split; [reflexivity|].
  pose proof (NoDup_unique (id_column df)) as Hnd.
  assert (Hnum : map (fun j : Z * frame obs * result Z => j.2)
                     (map (fun g : Z * frame obs =>
                             (g.1, g.2, first_index (unique (id_column df)) g.1))
                          (groupby_observed df))
                 = map (fun i => Ok (Z.of_nat i))
                       (seq 0 (length (unique (id_column df))))).
  { unfold groupby_observed. rewrite !map_map. cbn [fst snd].
    apply list_eq. intros i. rewrite !list_lookup_fmap.
    destruct (unique (id_column df) !! i) as [k|] eqn:Hk.
    - rewrite (lookup_seq_lt 0 _ i) by (eapply lookup_lt_Some, Hk). cbn.
      rewrite (first_index_NoDup _ Hnd i k Hk). reflexivity.
    - rewrite (lookup_seq_ge 0 _ i) by (apply lookup_ge_None, Hk). reflexivity. }
  assert (Hlen : length (map (fun g : Z * frame obs =>
                                (g.1, g.2, first_index (unique (id_column df)) g.1))
                             (groupby_observed df))
                 = length (unique (id_column df))).
  { unfold groupby_observed. rewrite !length_map. reflexivity. }
  split; [|split; [|split; [|split]]].
  - unfold nunique. rewrite Hlen. reflexivity.
  - rewrite Hnum. apply NoDup_fmap_2; [|apply NoDup_seq].
    intros i j Hij. injection Hij as Hij. lia.
  - unfold groupby_observed. rewrite map_map.
    apply Forall_map, List.Forall_forall. intros k Hk. cbn [fst snd].
    apply list_elem_of_In, list_elem_of_lookup in Hk as [i Hi]. exists i.
    split; [apply (first_index_NoDup _ Hnd i k Hi)|exact Hi].
  - unfold groupby_observed. rewrite !map_map. cbn [fst snd]. apply map_id.
  - rewrite Hlen. exact Hnum.
Qed.

(** * Paths and ids *)

Lemma str_split_cons (sep : ascii) (s : string) :
  exists x xs, str_split sep s = x :: xs.
Proof.
  destruct s as [|c s]; simpl; [eauto|].
  destruct (Ascii.eqb c sep); [eauto|]. destruct (str_split sep s); eauto.
Qed.

Lemma str_join_cons (sep : ascii) (a b : string) (l : list string) :
  str_join sep (a :: b :: l) = a +:+ String sep (str_join sep (b :: l)).
Proof. reflexivity. Qed.

Lemma str_split_join (sep : ascii) (s : string) : str_join sep (str_split sep s) = s.
Proof.
  induction s as [|c s IH]; [reflexivity|]. cbn [str_split].
  destruct (str_split_cons sep s) as (x & xs & Hx). rewrite Hx in IH |- *.
  destruct (Ascii.eqb_spec c sep) as [->|Hne].
  - rewrite str_join_cons, IH. reflexivity.
  - destruct xs as [|y xs].
    + simpl in IH |- *. rewrite IH. reflexivity.
    + rewrite str_join_cons in IH |- *. rewrite <- IH. reflexivity.
Qed.

Lemma str_split_length (sep : ascii) (s : string) :
  length (str_split sep s) = S (count_char sep s).
Proof.
  induction s as [|c s IH]; simpl; [reflexivity|].
  destruct (Ascii.eqb c sep); simpl; [rewrite IH; reflexivity|].
  destruct (str_split_cons sep s) as (x & xs & Hx). rewrite Hx in IH |- *. exact IH.
Qed.

Lemma str_split_no_sep (sep : ascii) (s : string) :
  Forall (fun x => count_char sep x = 0%nat) (str_split sep s).
Proof.
  induction s as [|c s IH]; simpl; [repeat constructor|].
  destruct (Ascii.eqb c sep) eqn:E; [constructor; [reflexivity|exact IH]|].
  destruct (str_split sep s) as [|x xs]; [repeat constructor; simpl; rewrite E; reflexivity|].
  apply Forall_cons in IH as [Hx Hxs]. constructor; [|exact Hxs].
  simpl. rewrite E, Hx. reflexivity.
Qed.

Lemma py_index_first {A : Type} (x : A) (xs : list A) : py_index (x :: xs) 0 = Ok x.
Proof.
  unfold py_index. rewrite norm_index_nonneg by (simpl; lia). reflexivity.
Qed.

Lemma py_index_last {A : Type} (l : list A) (x : A) : py_index (l ++ [x]) (-1) = Ok x.
Proof.
  unfold py_index. rewrite norm_index_negative by (rewrite length_app; simpl; lia).
  cbn [rbind]. rewrite length_app. simpl.
  replace (Z.to_nat (-1 + Z.of_nat (length l + 1))) with (length l) by lia.
  rewrite lookup_app_r by lia. rewrite Nat.sub_diag. reflexivity.
Qed.

Lemma str_join_length_last (sep : ascii) (l : list string) (x : string) :
  (String.length x + length l <= String.length (str_join sep (l ++ [x])))%nat.
Proof.
  induction l as [|y l IH]; [simpl; lia|].
  rewrite <- app_comm_cons.
  destruct (l ++ [x]) as [|z zs] eqn:E; [destruct l; discriminate|].
  rewrite str_join_cons, string_length_append. cbn [String.length length]. lia.
Qed.

Lemma str_append_assoc (a b c : string) : (a +:+ b) +:+ c = a +:+ (b +:+ c).
Proof.
  induction a as [|x a IH]; [reflexivity|].
  change (String x ((a +:+ b) +:+ c) = String x (a +:+ b +:+ c)). rewrite IH. reflexivity.
Qed.

Lemma count_char_append (c : ascii) (s1 s2 : string) :
  count_char c (s1 +:+ s2) = (count_char c s1 + count_char c s2)%nat.
Proof. induction s1 as [|x s1 IH]; simpl; [reflexivity|]. rewrite IH. lia. Qed.

Lemma directory_and_name_parts (file_path : string) :
  exists first file_name,
    get_file_directory file_path = Ok (first +:+ "/")
    /\ get_file_name file_path = Ok file_name
    /\ count_char "/" file_name = 0%nat
    /\ (exists before, file_path = before +:+ file_name)
    /\ ((first +:+ "/") +:+ file_name = file_path <-> count_char "/" file_path = 1%nat).
Proof.
  unfold get_file_directory, get_file_name, str_rsplit.
  pose proof (str_split_join "/" file_path) as Hjoin.
  pose proof (str_split_length "/" file_path) as Hlen.
  pose proof (str_split_no_sep "/" file_path) as Hno.
  destruct (str_split_cons "/" file_path) as (a & rest & Hsplit).
  rewrite Hsplit in *. rewrite py_index_first. cbn [rbind].
  destruct rest as [|b rest _] using rev_ind.
  - (* no separator *)
    change [a] with ([] ++ [a]). rewrite py_index_last. simpl in Hjoin. subst a.
    exists file_path, file_path.
    split; [reflexivity|]. split; [reflexivity|].
    split; [apply Forall_cons in Hno as [H _]; exact H|].
    split; [exists EmptyString; reflexivity|].
    simpl in Hlen. split; [|intros H; lia].
    intros H. apply (f_equal String.length) in H.
    rewrite !string_length_append in H. simpl in H. lia.
  - rewrite app_comm_cons, py_index_last.
    exists a, b. split; [reflexivity|]. split; [reflexivity|].
    split.
    { apply Forall_cons in Hno as [_ Hno]. apply Forall_app in Hno as [_ Hb].
      apply Forall_cons in Hb as [Hb _]. exact Hb. }
    split.
    { clear Hlen Hno. rewrite <- Hjoin. clear Hjoin Hsplit.
      revert a. induction rest as [|c rest IH]; intros a.
      - exists (a +:+ "/"). simpl. rewrite str_append_assoc. reflexivity.
      - destruct (IH c) as [before Hb]. exists (a +:+ String "/" before).
        change (str_join "/" (a :: (c :: rest) ++ [b]))
          with (a +:+ String "/" (str_join "/" (c :: rest ++ [b]))).
        rewrite Hb. rewrite str_append_assoc. reflexivity. }
    rewrite length_cons, length_app in Hlen. simpl in Hlen.
    destruct rest as [|c rest].
    + simpl in Hjoin, Hlen. split; [intros _; lia|intros _].
      rewrite <- Hjoin. rewrite str_append_assoc. reflexivity.
    + split; [|intros H; simpl in Hlen; lia].
      intros H. exfalso. rewrite <- Hjoin in H. apply (f_equal String.length) in H.
      change (str_join "/" (a :: (c :: rest) ++ [b]))
        with (a +:+ String "/" (str_join "/" ((c :: rest) ++ [b]))) in H.
      pose proof (str_join_length_last "/" (c :: rest) b) as Hge.
      rewrite !string_length_append in H. simpl in H, Hge.
      simpl in H. lia.
Qed.

(** X15.  [get_file_directory] and [get_file_name] never raise; the name is
    the text after the last ['/'] (it holds no ['/'] and the path ends
    with it); and directory and name put together give the path back
    exactly when the path holds one ['/']: with none the directory is the
    path itself followed by ['/'], with more the directory is only the
    first component. *)
Theorem directory_and_name (file_path : string) :
  exists file_directory file_name,
    get_file_directory file_path = Ok file_directory
    /\ get_file_name file_path = Ok file_name
    /\ count_char "/" file_name = 0%nat
    /\ (exists before, file_path = before +:+ file_name)
    /\ (file_directory +:+ file_name = file_path <-> count_char "/" file_path = 1%nat).
Proof.
  destruct (directory_and_name_parts file_path) as (first & file_name & H).
  exists (first +:+ "/"), file_name. exact H.
Qed.

Lemma rsplit_last_none (sep : ascii) (s : string) :
  count_char sep s = 0%nat -> rsplit_last sep s = None.
Proof.
  induction s as [|c s IH]; simpl; [reflexivity|].
  destruct (Ascii.eqb c sep); [discriminate|]. intros H. rewrite (IH H). reflexivity.
Qed.

Lemma rsplit_last_append (sep : ascii) (a b : string) :
  count_char sep b = 0%nat -> rsplit_last sep (a +:+ String sep b) = Some (a, b).
Proof.
  intros Hb. induction a as [|c a IH].
  - change (rsplit_last sep (String sep b) = Some (EmptyString, b)). simpl.
    rewrite (rsplit_last_none sep b Hb), Ascii.eqb_refl. reflexivity.
  - change (rsplit_last sep (String c (a +:+ String sep b)) = Some (String c a, b)).
    simpl. rewrite IH. reflexivity.
Qed.

Lemma rsplit_last_parts (sep : ascii) (s a b : string) :
  rsplit_last sep s = Some (a, b) -> s = a +:+ String sep b.
Proof.
  revert a. induction s as [|c s IH]; intros a; simpl; [discriminate|].
  destruct (rsplit_last sep s) as [[a' b']|].
  - intros [= <- <-]. rewrite (IH a' eq_refl). reflexivity.
  - destruct (Ascii.eqb_spec c sep) as [->|]; [|discriminate].
    intros [= <- <-]. reflexivity.
Qed.

Lemma str_split_none (sep : ascii) (s : string) :
  count_char sep s = 0%nat -> str_split sep s = [s].
Proof.
  induction s as [|c s IH]; simpl; [reflexivity|].
  destruct (Ascii.eqb c sep); [discriminate|]. intros H. rewrite (IH H). reflexivity.
Qed.

(** X16.  The id formatting of the reader never raises and keeps the text
    before the last ['_'] (an id without ['_'] is kept whole).  It undoes
    the suffixes [main] appends to the ids of the submission: for an id
    read as [x + '_validation'] the reader gives [x], and [main] writes
    [x + '_validation'] again, and [x + '_evaluation'] for the second
    half. *)
Theorem ids_round_trip :
  (forall val, exists x rest, format_id val = Ok x /\ val = x +:+ rest)
  /\ (forall val, count_char "_" val = 0%nat -> format_id val = Ok val)
  /\ (forall x, format_id (validation_id x) = Ok x
                /\ format_id (evaluation_id x) = Ok x).
Proof.
  split; [|split].
  - intros val. unfold format_id, str_rsplit1.
    destruct (rsplit_last "_" val) as [[a b]|] eqn:E.
    + exists a, (String "_" b). split; [apply py_index_first|].
      apply rsplit_last_parts, E.
    + exists val, EmptyString. split; [apply py_index_first|].
      clear. induction val as [|c v IH]; [reflexivity|].
      change (String c v = String c (v +:+ EmptyString)). rewrite <- IH. reflexivity.
  - intros val H. unfold format_id, str_rsplit1.
    rewrite (rsplit_last_none _ _ H). apply py_index_first.
  - intros x. unfold format_id, str_rsplit1, validation_id, evaluation_id.
    change "_validation"%string with (String "_" "validation").
    change "_evaluation"%string with (String "_" "evaluation").
    rewrite !rsplit_last_append by reflexivity. split; apply py_index_first.
Qed.

(** X17.  The day label of a column, [str(x).split('_')[1]], is found
    exactly when the label holds a ['_'] (it is [IndexError] otherwise),
    and for a label ['d_' + n] whose [n] holds no ['_'] it is [n]. *)
Theorem day_label_number :
  (forall x, is_ok (format_d x) = true <-> (1 <= count_char "_" x)%nat)
  /\ (forall x, count_char "_" x = 0%nat -> format_d x = Raise IndexError)
  /\ (forall n, count_char "_" n = 0%nat -> format_d ("d_" +:+ n) = Ok n).
Proof.
  assert (Hnone : forall x, count_char "_" x = 0%nat -> format_d x = Raise IndexError).
  { intros x H. unfold format_d. rewrite (str_split_none _ _ H). reflexivity. }
  split; [|split; [exact Hnone|]].
  - intros x. split.
    + intros Hok. destruct (count_char "_" x) eqn:E; [|lia].
      rewrite (Hnone x E) in Hok. discriminate.
    + intros Hge. unfold format_d, py_index.
      pose proof (str_split_length "_" x) as Hlen.
      rewrite norm_index_nonneg by lia. cbn [rbind].
      destruct (lookup_lt_is_Some_2 (str_split "_" x) (Z.to_nat 1)) as [y ->]; [lia|].
      reflexivity.
  - intros n H. unfold format_d.
    change ("d_" +:+ n) with (String "d" (String "_" n)). cbn [str_split].
    change (Ascii.eqb "d" "_") with false. rewrite Ascii.eqb_refl.
    rewrite (str_split_none _ _ H). reflexivity.
Qed.

Lemma str_split_append (sep : ascii) (x y : string) :
  str_split sep (x +:+ String sep y) = str_split sep x ++ str_split sep y.
Proof.
  induction x as [|c x IH].
  - change (str_split sep (String sep y) = [EmptyString] ++ str_split sep y).
    simpl. rewrite Ascii.eqb_refl. reflexivity.
  - change (str_split sep (String c (x +:+ String sep y))
            = str_split sep (String c x) ++ str_split sep y).
    cbn [str_split]. rewrite IH.
    destruct (Ascii.eqb c sep); [reflexivity|].
    destruct (str_split_cons sep x) as (a & l & ->). reflexivity.
Qed.

Lemma get_file_name_append (x y : string) :
  count_char "/" y = 0%nat -> get_file_name (x +:+ String "/" y) = Ok y.
Proof.
  intros Hy. unfold get_file_name.
  rewrite str_split_append, (str_split_none _ _ Hy). apply py_index_last.
Qed.

(** X18.  The path [read] saves the sample to is always found, its file
    name is ['sample_'] followed by the file name of the path read, and it
    is never the path read: the sample cannot overwrite the input. *)
Theorem sample_is_another_file (file_path : string) :
  exists sample file_name,
    sample_path file_path = Ok sample
    /\ get_file_name file_path = Ok file_name
    /\ get_file_name sample = Ok ("sample_" +:+ file_name)
    /\ sample <> file_path.
Proof.
  destruct (directory_and_name_parts file_path)
    as (first & file_name & Hdir & Hname & Hno & _).
  unfold sample_path. rewrite Hdir, Hname. cbn [rbind].
  eexists. exists file_name. split; [reflexivity|]. split; [reflexivity|].
  assert (Hsample : get_file_name ((first +:+ "/") +:+ "sample_" +:+ file_name)
                    = Ok ("sample_" +:+ file_name)).
  { rewrite str_append_assoc.
    change ("/" +:+ "sample_" +:+ file_name) with (String "/" ("sample_" +:+ file_name)).
    apply get_file_name_append. rewrite count_char_append, Hno. reflexivity. }
  split; [exact Hsample|].
  intros Heq. rewrite Heq, Hname in Hsample. injection Hsample as Hs.
  apply (f_equal String.length) in Hs. rewrite string_length_append in Hs.
  simpl in Hs. lia.
Qed.

(** ** Runs that raise *)

(** While a process that has the job has not reported it, the row is not
    complete and the call prints and raises nothing. *)
Lemma update_open_barrier_no_raise
    (N : Z) (d : dict) (self0 : ParallelPrinter) (t0 : Z)
    (calls : list (Z * Z * clock)) (proc_num job_num : Z) (now : clock) (slot v : Z) :
  1 <= N ->
  keys d = range 0 N ->
  ParallelPrinter_init N d = Ok self0 ->
  in_order d (calls ++ [(proc_num, job_num, now)]) ->
  dict_get d slot = Ok v -> job_num < v -> slot <> proc_num ->
  ~ In (slot, job_num) (map fst calls) ->
  raised (update (updates (after (print_notify_parallel_begin self0 t0)) calls).1
                 proc_num job_num now) = None.
Proof.
  intros HN Hk Hinit Hord Hget Hlt Hne Hnotin.
  pose proof (in_order_prefix _ _ _ Hord) as Hord0.
  pose proof (in_order_valid _ _ Hord0) as Hvalid.
  destruct (Hord calls (proc_num, job_num, now) [] eq_refl) as [Hv _].
  destruct (started_printer N d self0 t0 calls HN Hk Hinit)
    as (Hwf & Hd & Hm & Hs & Hlen & Hwritten).
  specialize (Hwritten Hvalid).
  set (self := (updates (after (print_notify_parallel_begin self0 t0)) calls).1) in *.
  assert (Hv' : valid_call (proc_job_dict self) (proc_num, job_num, now))
    by (rewrite Hd; exact Hv).
  destruct (valid_call_in_table self _ Hwf Hv') as [Hp Hj]. cbn [fst snd] in Hp, Hj.
  assert (Hp0 : 0 <= proc_num < N) by (rewrite Hd, Hlen in Hp; exact Hp).
  assert (Hj0 : 0 <= job_num < max_jobs self0) by (rewrite Hm in Hj; exact Hj).
  destruct (update_raises_cases N d self0 t0 calls proc_num job_num now HN Hk Hinit Hp0 Hj0)
    as [Hkind Hiff].
  fold self in Hkind, Hiff.
  destruct Hkind as [Hnone|Hte]; [exact Hnone|]. exfalso.
  apply Hiff in Hte as [Hbar _].
  destruct (update_fields self proc_num job_num now) as (Hd' & _).
  assert (Hst : stamped (after (update self proc_num job_num now)) job_num slot).
  { apply (Hbar slot v); [rewrite Hd', Hd; exact Hget|lia]. }
  assert (Hslot : 0 <= slot).
  { apply dict_get_is_key in Hget. rewrite Hk in Hget. apply In_range in Hget. lia. }
  apply (stamped_update self proc_num job_num now job_num slot Hwf Hp Hj) in Hst
    as [Hst|[_ Heq]]; [|congruence|lia|exact Hslot].
  apply Hnotin, Hwritten; [lia|exact Hslot|exact Hst].
Qed.

(** The call that completes a row raises when a process with no such job
    has reported the job before. *)
Lemma update_raises_when
    (N : Z) (d : dict) (self0 : ParallelPrinter) (t0 : Z)
    (calls : list (Z * Z * clock)) (proc_num job_num : Z) (now : clock) (short : Z) :
  1 <= N ->
  keys d = range 0 N ->
  ParallelPrinter_init N d = Ok self0 ->
  in_order d (calls ++ [(proc_num, job_num, now)]) ->
  (forall slot v, dict_get d slot = Ok v -> job_num < v ->
                  slot = proc_num \/ In (slot, job_num) (map fst calls)) ->
  dict_get d short = Ok job_num ->
  In (short, job_num - 1) (map fst calls) ->
  raised (update (updates (after (print_notify_parallel_begin self0 t0)) calls).1
                 proc_num job_num now) = Some TypeError.
Proof.
  intros HN Hk Hinit Hord Hall Hshort Hprev.
  pose proof (in_order_prefix _ _ _ Hord) as Hord0.
  pose proof (in_order_valid _ _ Hord0) as Hvalid.
  destruct (Hord calls (proc_num, job_num, now) [] eq_refl) as [Hv _].
  destruct (started_printer N d self0 t0 calls HN Hk Hinit)
    as (Hwf & Hd & Hm & Hs & Hlen & Hwritten).
  specialize (Hwritten Hvalid).
  destruct (started_printer N d self0 t0 [] HN Hk Hinit)
    as (Hwfb & Hdb & _). cbn [updates fst] in Hwfb, Hdb.
  set (selfb := after (print_notify_parallel_begin self0 t0)) in *.
  set (self := (updates selfb calls).1) in *.
  assert (Hv' : valid_call (proc_job_dict self) (proc_num, job_num, now))
    by (rewrite Hd; exact Hv).
  destruct (valid_call_in_table self _ Hwf Hv') as [Hp Hj]. cbn [fst snd] in Hp, Hj.
  assert (Hp0 : 0 <= proc_num < N) by (rewrite Hd, Hlen in Hp; exact Hp).
  assert (Hj0 : 0 <= job_num < max_jobs self0) by (rewrite Hm in Hj; exact Hj).
  destruct (update_raises_cases N d self0 t0 calls proc_num job_num now HN Hk Hinit Hp0 Hj0)
    as [_ Hiff].
  fold selfb in Hiff. fold self in Hiff. apply Hiff. clear Hiff.
  destruct (update_fields self proc_num job_num now) as (Hd' & _).
  assert (Hstamp : forall slot j now', In (slot, j, now') calls ->
            stamped (after (update self proc_num job_num now)) j slot).
  { intros slot j now' Hin. apply stamped_update_any.
    apply (stamped_of_call calls selfb (slot, j, now') Hwfb); [|exact Hin].
    rewrite Hdb. exact Hvalid. }
  assert (Hrange : forall slot v, dict_get d slot = Ok v -> 0 <= slot < N).
  { intros slot v Hget. apply dict_get_is_key in Hget. rewrite Hk in Hget.
    apply In_range in Hget. exact Hget. }
  split.
  - intros slot v Hget Hgt. rewrite Hd', Hd in Hget.
    destruct (Hall slot v Hget ltac:(lia)) as [->|Hin].
    + apply (stamped_update self proc_num job_num now job_num proc_num Hwf Hp Hj);
        [lia|lia|right; auto].
    + apply in_map_iff in Hin as ([[p' j'] now'] & [= -> ->] & Hin).
      apply (Hstamp slot job_num now' Hin).
  - exists short. split; [apply (Hrange _ _ Hshort)|]. right.
    destruct Hv as (n & Hn & Hjn). cbn [fst snd] in Hn, Hjn.
    assert (Hne : short <> proc_num) by (intros ->; rewrite Hshort in Hn; injection Hn; lia).
    split.
    + intros Hst.
      apply (stamped_update self proc_num job_num now job_num short Hwf Hp Hj) in Hst
        as [Hst|[_ Heq]]; [|congruence|lia|apply (Hrange _ _ Hshort)].
      apply Hwritten in Hst; [|lia|apply (Hrange _ _ Hshort)].
      apply in_map_iff in Hst as ([[p' j'] now'] & [= -> ->] & Hin).
      pose proof (proj1 (List.Forall_forall _ _) Hvalid _ Hin) as (n' & Hn' & Hjn').
      cbn [fst snd] in Hn', Hjn'. rewrite Hshort in Hn'. injection Hn' as <-. lia.
    + apply in_map_iff in Hprev as ([[p' j'] now'] & [= -> ->] & Hin).
      pose proof (proj1 (List.Forall_forall _ _) Hvalid _ Hin) as (n' & Hn' & Hjn').
      cbn [fst snd] in Hn', Hjn'.
      unfold prev_is_time, prev_cell.
      destruct (job_num =? 0) eqn:E0; [apply Z.eqb_eq in E0; lia|].
      apply (Hstamp short (job_num - 1) now' Hin).
Qed.

Lemma turns_of_app (s : nat) (l1 l2 : list (nat * clock)) :
  turns_of s (l1 ++ l2) = (turns_of s l1 + turns_of s l2)%nat.
Proof. unfold turns_of. rewrite List.filter_app, length_app. reflexivity. Qed.

Lemma turns_of_replicate (s slot : nat) (now : clock) (m : nat) :
  turns_of s (replicate m (slot, now)) = if Nat.eqb slot s then m else 0%nat.
Proof.
  unfold turns_of. induction m as [|m IH]; simpl; [destruct (Nat.eqb slot s); reflexivity|].
  destruct (Nat.eqb slot s) eqn:E; simpl; rewrite IH; reflexivity.
Qed.

Lemma turns_of_others (s : nat) (l : list (nat * clock)) :
  Forall (fun sc : nat * clock => sc.1 <> s) l -> turns_of s l = 0%nat.
Proof.
  unfold turns_of. induction 1 as [|sc l Hsc _ IH]; simpl; [reflexivity|].
  destruct (Nat.eqb_spec sc.1 s); [contradiction|exact IH].
Qed.

Section Uneven.

Context {obs pred : Type}.
Variable fit_predict : list (Z * obs) -> pred.
Variables (N : Z) (d : dict) (self0 : ParallelPrinter) (t0 : Z).
Variable secs : list (list (Z * frame obs)).
Hypothesis HN : 1 <= N.
Hypothesis Hk : keys d = range 0 N.
Hypothesis Hinit : ParallelPrinter_init N d = Ok self0.
Hypothesis Hsecs : Z.of_nat (length secs) = N.
Hypothesis Hjobs : forall slot sec, secs !! slot = Some sec ->
  dict_get d (Z.of_nat slot) = Ok (Z.of_nat (length sec)).
Variable q : nat.
Variable sec0 : list (Z * frame obs).
Variable short : nat.
Variable short_sec : list (Z * frame obs).
Hypothesis Hq : (1 <= q)%nat.
Hypothesis Hsec0 : secs !! 0%nat = Some sec0.
Hypothesis Hlen0 : length sec0 = S q.
Hypothesis Hbounds : Forall (fun sec => (q <= length sec <= S q)%nat) secs.
Hypothesis Hshort : secs !! short = Some short_sec.
Hypothesis Hshort_len : length short_sec = q.

Lemma uneven_counts (slot v : Z) :
  dict_get d slot = Ok v ->
  exists s sec, slot = Z.of_nat s /\ secs !! s = Some sec /\ v = Z.of_nat (length sec)
                /\ (q <= length sec <= S q)%nat.
Proof.
  intros Hget. pose proof (dict_get_is_key _ _ _ Hget) as Hin.
  rewrite Hk in Hin. apply In_range in Hin.
  destruct (lookup_lt_is_Some_2 secs (Z.to_nat slot)) as [sec Hsec]; [lia|].
  pose proof (Hjobs _ _ Hsec) as Hget'. rewrite Z2Nat.id in Hget' by lia.
  rewrite Hget in Hget'. injection Hget' as ->.
  exists (Z.to_nat slot), sec. split; [lia|]. split; [exact Hsec|]. split; [reflexivity|].
  exact (Forall_lookup_1 _ _ _ _ Hbounds Hsec).
Qed.

(** The other workers first, then worker 0 up to its last job: nothing
    raises. *)
Lemma pool_run_uneven_prefix (others : list (nat * clock)) (now : clock) (p0 : pool obs pred) :
  pool_inv (after (print_notify_parallel_begin self0 t0)) d secs [] p0 [] ->
  Forall (fun sc : nat * clock => sc.1 <> 0%nat) others ->
  exists calls,
    pool_inv (after (print_notify_parallel_begin self0 t0)) d secs
             (others ++ replicate q (0%nat, now))
             (pool_run fit_predict p0 (others ++ replicate q (0%nat, now))) calls.
Proof.
  intros Hinv0 Hothers.
  apply (pool_run_ok fit_predict d self0 t0 secs Hjobs
           (others ++ replicate q (0%nat, now)) p0 [] [] Hinv0).
  intros pre slot t post Heq p1 calls1 sec Hinv1 Hsec Hlt Hord. cbn [app] in *.
  destruct (Nat.eq_dec slot 0%nat) as [->|Hne].
  - (* a turn of worker 0: a row every worker has *)
    assert (Hturn : (turns_of 0 pre < q)%nat).
    { pose proof (f_equal (turns_of 0%nat) Heq) as Ht.
      rewrite !turns_of_app, (turns_of_others 0%nat others Hothers), turns_of_replicate in Ht.
      change ((0%nat, t) :: post) with ([(0%nat, t)] ++ post) in Ht.
      rewrite turns_of_app in Ht. unfold turns_of at 3 in Ht. simpl in Ht. lia. }
    apply (update_in_order_no_raise N d self0 t0 calls1 _ _ t HN Hk Hinit Hord).
    intros s v Hget. destruct (uneven_counts s v Hget) as (_ & sec' & _ & _ & -> & Hb). lia.
  - (* a turn of another worker: worker 0 has not reported anything *)
    assert (Hpre : turns_of 0%nat pre = 0%nat).
    { apply turns_of_others. symmetry in Heq.
      apply app_eq_app in Heq as [l [[-> Hl]|[Ho Hl]]].
      - exfalso.
        assert (Hin : In (slot, t) (replicate q (0%nat, now)))
          by (rewrite Hl; apply in_or_app; right; left; reflexivity).
        apply list_elem_of_In, elem_of_replicate in Hin as [[= ->] _]. contradiction.
      - rewrite Ho in Hothers. apply Forall_app in Hothers as [H _]. exact H. }
    destruct Hinv1 as (_ & _ & Hlenw & _ & _ & Hws).
    destruct (lookup_lt_is_Some_2 (workers p1) 0%nat) as [w0 Hw0];
      [rewrite Hlenw; eapply lookup_lt_Some, Hsec0|].
    destruct (Hws 0%nat w0 sec0 Hw0 Hsec0) as (_ & _ & _ & _ & Hcalls0).
    cbv zeta in Hcalls0. rewrite Hpre in Hcalls0. simpl in Hcalls0.
    pose proof (Forall_lookup_1 _ _ _ _ Hbounds Hsec) as Hb. cbv beta in Hb.
    apply (update_open_barrier_no_raise N d self0 t0 calls1 _ _ t 0 (Z.of_nat (S q))
             HN Hk Hinit Hord).
    + rewrite <- Hlen0. apply (Hjobs 0%nat sec0 Hsec0).
    + lia.
    + lia.
    + intros Hin. apply Hcalls0 in Hin. lia.
Qed.

Lemma pool_run_app (p : pool obs pred) (l1 l2 : list (nat * clock)) :
  pool_run fit_predict p (l1 ++ l2)
  = pool_run fit_predict (pool_run fit_predict p l1) l2.
Proof. unfold pool_run. apply fold_left_app. Qed.

(** The second pass of worker 0 over the groups every worker has:
    nothing raises. *)
Lemma pool_retry (now : clock) (ws1 : list (worker obs pred))
    (calls1 : list (Z * Z * clock)) (k : nat) :
  (forall j, 0 <= j < Z.of_nat q -> In (0, j) (map fst calls1)) ->
  (k <= q)%nat ->
  forall p,
  retry_inv (after (print_notify_parallel_begin self0 t0)) d sec0 ws1 calls1 0 p ->
  exists calls',
    retry_inv (after (print_notify_parallel_begin self0 t0)) d sec0 ws1 calls' k
              (pool_run fit_predict p (replicate k (0%nat, now)))
    /\ (forall c, In c (map fst calls1) -> In c (map fst calls')).
Proof.
  intros Hfirst. induction k as [|k IH]; intros Hk' p Hinv.
  - exists calls1. split; [exact Hinv|auto].
  - destruct (IH ltac:(lia) p Hinv) as (calls' & Hinv' & Hincl).
    rewrite replicate_S_end, pool_run_app.
    set (pk := pool_run fit_predict p (replicate k (0%nat, now))) in *.
    destruct Hinv' as (Hprinter & Hff & Hord & Hlenw & (w & Hw & Hfail & Hretr & Htodo) & Hrest).
    destruct (lookup_lt_is_Some_2 sec0 k) as [g Hg]; [lia|].
    rewrite (numbered_from_drop sec0 k g Hg) in Htodo.
    set (c := (0, Z.of_nat k, now)).
    assert (Hord' : in_order d (calls' ++ [c])).
    { apply in_order_snoc; [exact Hord| |].
      - exists (Z.of_nat (S q)). split; [rewrite <- Hlen0; apply (Hjobs 0%nat sec0 Hsec0)|].
        unfold c. simpl. lia.
      - unfold c. cbn [fst snd]. intros Hpos. apply Hincl, Hfirst. lia. }
    assert (Hraised : raised (update (shared_printer pk) (Z.of_nat 0) (Z.of_nat k) now)
                      = None).
    { rewrite Hprinter.
      apply (update_in_order_no_raise N d self0 t0 calls' _ _ now HN Hk Hinit Hord').
      intros s v Hget. destruct (uneven_counts s v Hget) as (_ & sec' & _ & _ & -> & Hb).
      lia. }
    exists (calls' ++ [c]). split.
    + cbn [pool_run fold_left fst snd]. unfold pool_step. rewrite Hw, Hfail, Htodo.
      unfold fit_predict_wrapper. cbv zeta. rewrite Hraised, Hff.
      unfold retry_inv. cbn [shared_printer first_failure workers failure].
      split; [|split; [reflexivity|split; [exact Hord'|split; [|split]]]].
      * unfold c. rewrite updates_app, updates_one. cbn [fst]. rewrite Hprinter.
        reflexivity.
      * rewrite length_insert. exact Hlenw.
      * eexists. split; [apply list_lookup_insert_eq; eapply lookup_lt_Some, Hw|].
        cbn [failure retried todo]. auto.
      * intros slot Hne. rewrite list_lookup_insert_ne by auto. apply Hrest, Hne.
    + intros c' Hin. rewrite map_app. apply in_or_app. left. apply Hincl, Hin.
Qed.

(** Then worker 0 reports its last job, which the shortest worker does
    not have: the report raises [TypeError].  [apply] starts over:
    worker 0 reports its jobs again, the last report raises [TypeError]
    again, and every worker is done. *)
Lemma pool_run_uneven (others : list (nat * clock)) (now : clock) (p0 : pool obs pred) :
  pool_inv (after (print_notify_parallel_begin self0 t0)) d secs [] p0 [] ->
  Forall (fun sc : nat * clock => sc.1 <> 0%nat) others ->
  (forall slot sec, slot <> 0%nat -> secs !! slot = Some sec ->
                    (length sec <= turns_of slot others)%nat) ->
  let p := pool_run fit_predict p0
             ((others ++ replicate (S q) (0%nat, now)) ++ replicate (S q) (0%nat, now)) in
  forallb finished (workers p) = true /\ first_failure p = Some TypeError.
Proof.
  intros Hinv0 Hothers Hturns p. subst p.
  destruct (pool_run_uneven_prefix others now p0 Hinv0 Hothers)
    as (calls & Hprinter & Hff & Hlenw & Hord & Hslots & Hws).
  assert (Hrun : pool_run fit_predict p0
                   ((others ++ replicate (S q) (0%nat, now)) ++ replicate (S q) (0%nat, now))
                 = pool_run fit_predict
                     (pool_run fit_predict
                        (pool_run fit_predict
                           (pool_run fit_predict p0 (others ++ replicate q (0%nat, now)))
                           [(0%nat, now)])
                        (replicate q (0%nat, now)))
                     [(0%nat, now)]).
  { rewrite !replicate_S_end, app_assoc, !pool_run_app. reflexivity. }
  rewrite Hrun. clear Hrun.
  set (p1 := pool_run fit_predict p0 (others ++ replicate q (0%nat, now))) in *.
  set (done := others ++ replicate q (0%nat, now)) in *.
  assert (Hturn0 : turns_of 0%nat done = q).
  { unfold done. rewrite turns_of_app, (turns_of_others 0%nat others Hothers), turns_of_replicate.
    reflexivity. }
  assert (Hturn : forall slot sec, slot <> 0%nat -> secs !! slot = Some sec ->
            Nat.min (turns_of slot done) (length sec) = length sec).
  { intros slot sec Hne Hsec. unfold done. rewrite turns_of_app.
    pose proof (Hturns slot sec Hne Hsec). lia. }
  assert (Hshort0 : short <> 0%nat).
  { intros ->. rewrite Hsec0 in Hshort. injection Hshort as ->. lia. }
  destruct (lookup_lt_is_Some_2 (workers p1) 0%nat) as [w0 Hw0];
    [rewrite Hlenw; eapply lookup_lt_Some, Hsec0|].
  destruct (Hws 0%nat w0 sec0 Hw0 Hsec0) as (Hfail0 & Hretr0 & Hjobs0 & Htodo0 & Hcalls0).
  cbv zeta in Htodo0, Hcalls0.
  rewrite Hturn0, Nat.min_l in Htodo0, Hcalls0 by lia.
  destruct (lookup_lt_is_Some_2 sec0 q) as [g Hg]; [lia|].
  rewrite (numbered_from_drop sec0 q g Hg) in Htodo0.
  (* the report of the last job of worker 0 raises on every history that
     holds the calls made so far *)
  assert (Hraises : forall H : list (Z * Z * clock),
            in_order d H ->
            (forall c, In c (map fst calls) -> In c (map fst H)) ->
            in_order d (H ++ [(0, Z.of_nat q, now)])
            /\ raised (update (updates (after (print_notify_parallel_begin self0 t0)) H).1
                              0 (Z.of_nat q) now) = Some TypeError).
  { intros H HordH Hincl.
    assert (HordH' : in_order d (H ++ [(0, Z.of_nat q, now)])).
    { apply in_order_snoc; [exact HordH| |].
      - exists (Z.of_nat (S q)). split; [rewrite <- Hlen0; apply (Hjobs 0%nat sec0 Hsec0)|].
        simpl. lia.
      - cbn [fst snd]. intros _. apply Hincl, Hcalls0. lia. }
    split; [exact HordH'|].
    apply (update_raises_when N d self0 t0 H _ _ now (Z.of_nat short) HN Hk Hinit HordH').
    - intros slot v Hget Hlt.
      destruct (uneven_counts slot v Hget) as (s & sec & -> & Hsec & -> & Hb).
      destruct (Nat.eq_dec s 0%nat) as [->|Hne]; [left; reflexivity|right].
      destruct (lookup_lt_is_Some_2 (workers p1) s) as [w Hw];
        [rewrite Hlenw; eapply lookup_lt_Some, Hsec|].
      destruct (Hws s w sec Hw Hsec) as (_ & _ & _ & _ & Hc). cbv zeta in Hc.
      rewrite (Hturn s sec Hne Hsec) in Hc. apply Hincl, Hc. lia.
    - rewrite <- Hshort_len. apply (Hjobs short short_sec Hshort).
    - destruct (lookup_lt_is_Some_2 (workers p1) short) as [w Hw];
        [rewrite Hlenw; eapply lookup_lt_Some, Hshort|].
      destruct (Hws short w short_sec Hw Hshort) as (_ & _ & _ & _ & Hc). cbv zeta in Hc.
      rewrite (Hturn short short_sec Hshort0 Hshort) in Hc. apply Hincl, Hc. lia. }
  (* the first pass ends *)
  destruct (Hraises calls Hord (fun c H => H)) as [Hord1 Hraised1].
  set (calls1 := calls ++ [(0, Z.of_nat q, now)]) in *.
  set (p2 := pool_run fit_predict p1 [(0%nat, now)]).
  assert (Hinv2 : retry_inv (after (print_notify_parallel_begin self0 t0)) d sec0
                            (workers p1) calls1 0 p2).
  { unfold p2. cbn [pool_run fold_left fst snd]. unfold pool_step.
    rewrite Hw0, Hfail0, Htodo0. unfold fit_predict_wrapper. cbv zeta.
    change (Z.of_nat 0) with 0. rewrite Hprinter, Hraised1, Hretr0, Hff.
    cbn [is_TypeError andb negb]. unfold retry_inv.
    cbn [shared_printer first_failure workers failure].
    split; [|split; [reflexivity|split; [exact Hord1|split; [|split]]]].
    - unfold calls1. rewrite updates_app, updates_one. reflexivity.
    - apply length_insert.
    - eexists. split; [apply list_lookup_insert_eq; eapply lookup_lt_Some, Hw0|].
      cbn [failure retried todo]. rewrite drop_0. auto.
    - intros slot Hne. apply list_lookup_insert_ne. auto. }
  (* the second pass *)
  destruct (pool_retry now (workers p1) calls1 q) with (p := p2)
    as (calls2 & (Hprinter2 & Hff2 & Hord2 & Hlenw2 & (w & Hw & Hfail & Hretr & Htodo) & Hrest)
        & Hincl2); [|lia|exact Hinv2|].
  { intros j Hj. unfold calls1. rewrite map_app. apply in_or_app. left.
    apply Hcalls0, Hj. }
  set (p3 := pool_run fit_predict p2 (replicate q (0%nat, now))) in *.
  rewrite (numbered_from_drop sec0 q g Hg) in Htodo.
  destruct (Hraises calls2 Hord2) as [_ Hraised2].
  { intros c Hin. apply Hincl2. unfold calls1. rewrite map_app. apply in_or_app. auto. }
  cbn [pool_run fold_left fst snd]. unfold pool_step. rewrite Hw, Hfail, Htodo.
  unfold fit_predict_wrapper. cbv zeta.
  change (Z.of_nat 0) with 0. rewrite Hprinter2, Hraised2, Hretr, Hff2.
  cbn [is_TypeError andb negb workers first_failure failure]. split; [|reflexivity].
  apply forallb_forall. intros w' Hin.
  apply list_elem_of_In, list_elem_of_lookup in Hin as [slot Hw'].
  destruct (Nat.eq_dec slot 0%nat) as [->|Hne].
  - rewrite list_lookup_insert_eq in Hw' by (eapply lookup_lt_Some, Hw).
    injection Hw' as <-. reflexivity.
  - rewrite list_lookup_insert_ne in Hw' by auto. rewrite (Hrest slot Hne) in Hw'.
    destruct (lookup_lt_is_Some_2 secs slot) as [sec Hsec];
      [rewrite <- Hlenw; eapply lookup_lt_Some, Hw'|].
    destruct (Hws slot w' sec Hw' Hsec) as (Hfail' & _ & _ & Htodo' & _). cbv zeta in Htodo'.
    rewrite (Hturn slot sec Hne Hsec), drop_all in Htodo'.
    unfold finished. rewrite Hfail', Htodo'. reflexivity.
Qed.

End Uneven.

Lemma array_split_uneven {A : Type} (ary : list A) (n : Z) (secs : list (list A)) :
  1 <= n <= Z.of_nat (length ary) ->
  (length ary mod Z.to_nat n <> 0)%nat ->
  array_split ary n = Ok secs ->
  let q := (length ary / Z.to_nat n)%nat in
  (1 <= q)%nat
  /\ (exists sec0, secs !! 0%nat = Some sec0 /\ length sec0 = S q)
  /\ Forall (fun sec => (q <= length sec <= S q)%nat) secs
  /\ exists short sec, secs !! short = Some sec /\ length sec = q.
Proof.
  intros Hn Hmod Hsplit q.
  destruct (array_split_spec ary n ltac:(lia)) as (secs' & Hs & _ & _ & Hsz).
  rewrite Hsplit in Hs. injection Hs as <-.
  revert Hsplit. unfold array_split. destruct (n <=? 0) eqn:E; [discriminate|].
  intros [= <-].
  destruct (section_sizes_spec (length ary) (Z.to_nat n) ltac:(lia)) as (_ & Hsum & _).
  pose proof (split_sections_lengths (section_sizes (length ary) (Z.to_nat n)) ary
                ltac:(lia)) as HF.
  pose proof (Nat.mod_upper_bound (length ary) (Z.to_nat n) ltac:(lia)) as Hup.
  set (r := (length ary mod Z.to_nat n)%nat) in *.
  assert (Hsizes : section_sizes (length ary) (Z.to_nat n)
                   = replicate r (S q) ++ replicate (Z.to_nat n - r) q) by reflexivity.
  rewrite Hsizes in HF.
  split; [|split; [|split]].
  - unfold q. apply Nat.div_le_lower_bound; lia.
  - destruct (Forall2_lookup_r _ _ _ 0%nat (S q) HF) as (sec0 & Hsec0 & Hlen0).
    { rewrite lookup_app_l by (rewrite length_replicate; lia).
      apply lookup_replicate_2. lia. }
    eauto.
  - eapply Forall_impl; [exact Hsz|]. intros sec Hs. cbv beta in Hs |- *. unfold q. lia.
  - destruct (Forall2_lookup_r _ _ _ r q HF) as (sec & Hsec & Hlen).
    { rewrite lookup_app_r by (rewrite length_replicate; lia).
      rewrite length_replicate, Nat.sub_diag. apply lookup_replicate_2. lia. }
    eauto.
Qed.

Lemma others_first_nonzero (m : nat) (now : clock) (l : list nat) :
  Forall (fun sc : nat * clock => sc.1 <> 0%nat)
         (flat_map (fun i => replicate m (S i, now)) l).
Proof.
  apply List.Forall_forall. intros sc Hin. apply in_flat_map in Hin as (i & _ & Hin).
  apply list_elem_of_In, elem_of_replicate in Hin as [-> _]. simpl. lia.
Qed.

Lemma others_first_turns (m : nat) (now : clock) (l : list nat) (slot : nat) :
  In slot l ->
  (m <= turns_of (S slot) (flat_map (fun i => replicate m (S i, now)) l))%nat.
Proof.
  induction l as [|i l IH]; [contradiction|]. cbn [flat_map]. rewrite turns_of_app.
  intros [->|Hin].
  - rewrite turns_of_replicate, Nat.eqb_refl. lia.
  - specialize (IH Hin). lia.
Qed.

Section Raises.

Context {obs pred : Type}.
Variable fit_predict : list (Z * obs) -> pred.

(** With a number of ids that is no multiple of the number of
    processors, the schedule that lets worker 0 finish last makes its
    last report raise, in its first pass and in its second. *)
Lemma parallel_fit_predict_uneven (df : frame obs) (processors begin_time : Z) (now : clock) :
  1 <= processors <= 30 ->
  processors <= n_groups df ->
  n_groups df mod processors <> 0 ->
  let q := Z.to_nat (n_groups df / processors) in
  let schedule :=
    (flat_map (fun i => replicate (S q) (S i, now)) (seq 0 (Z.to_nat processors - 1))
     ++ replicate (S q) (0%nat, now)) ++ replicate (S q) (0%nat, now) in
  returned (parallel_fit_predict fit_predict true df processors begin_time schedule)
  = Some (Raise TypeError).
Proof.
  intros HN HG Hmod q schedule.
  unfold parallel_fit_predict.
  destruct (partition df processors) as [parts|e] eqn:Hparts.
  2:{ assert (is_ok (partition df processors) = true)
        by (apply partition_ok_iff; lia).
      rewrite Hparts in H. discriminate. }
  destruct (partition_parts df processors parts Hparts) as (secs & Hsplit & HF).
  destruct (partition_balanced df processors parts Hparts) as (Hlen & _).
  destruct (ParallelPrinter_init_ok processors (process_job_dict processors parts))
    as [self0 Hinit]; [eapply process_job_dict_nonempty, Hparts|lia|].
  rewrite Hinit.
  unfold n_groups in HG, Hmod, q.
  assert (Hmod' : (length (groupby df) mod Z.to_nat processors <> 0)%nat).
  { intros H. apply Hmod. apply (f_equal Z.of_nat) in H.
    rewrite Nat2Z.inj_mod, Z2Nat.id in H by lia. exact H. }
  assert (Hdiv : q = (length (groupby df) / Z.to_nat processors)%nat).
  { unfold q. apply Nat2Z.inj. rewrite Nat2Z.inj_div, !Z2Nat.id; [reflexivity|lia|].
    apply Z.div_pos; lia. }
  destruct (array_split_uneven (groupby df) processors secs ltac:(lia) Hmod' Hsplit)
    as (Hq & (sec0 & Hsec0 & Hlen0) & Hbounds & (short & short_sec & Hshort & Hshort_len)).
  rewrite <- Hdiv in Hq, Hlen0, Hbounds, Hshort_len.
  pose proof (Forall2_length _ _ _ HF) as Hlen2.
  set (d := process_job_dict processors parts) in *.
  unfold starmap. cbv zeta.
  match goal with
  | |- context [pool_run fit_predict ?p0 schedule] => set (p0' := p0)
  end.
  assert (Hinv0 : pool_inv (after (print_notify_parallel_begin self0 begin_time)) d secs []
                           p0' []).
  { unfold pool_inv, p0'. cbn [shared_printer first_failure workers updates fst].
    split; [reflexivity|]. split; [apply (first_failed_start parts secs HF)|].
    split; [rewrite length_map; exact Hlen2|].
    split; [apply in_order_nil|]. split; [intros c []|].
    intros slot w sec Hw Hsec. rewrite list_lookup_fmap in Hw.
    destruct (parts !! slot) as [part|] eqn:Hpart; [|discriminate]. injection Hw as <-.
    destruct (Forall2_lookup_lr _ _ _ _ _ _ HF Hpart Hsec) as [_ Hg].
    rewrite (start_worker_grouped part sec Hg).
    unfold turns_of. simpl. rewrite drop_0. cbn [failure todo retried jobs].
    repeat (split; [reflexivity|]).
    intros j. split; [intros []|lia]. }
  destruct (pool_run_uneven fit_predict processors d self0 begin_time secs ltac:(lia)
              (process_job_dict_keys processors parts Hlen) Hinit ltac:(lia)
              (fun slot sec Hsec => process_job_dict_get processors parts secs slot sec
                                      Hlen HF Hsec)
              q sec0 short short_sec Hq Hsec0 Hlen0 Hbounds Hshort Hshort_len
              (flat_map (fun i => replicate (S q) (S i, now))
                        (seq 0 (Z.to_nat processors - 1)))
              now p0' Hinv0 (others_first_nonzero _ _ _))
    as [Hfin Hff].
  { intros slot sec Hne Hsec.
    pose proof (Forall_lookup_1 _ _ _ _ Hbounds Hsec) as Hb. cbv beta in Hb.
    apply lookup_lt_Some in Hsec.
    destruct slot as [|slot]; [contradiction|].
    pose proof (others_first_turns (S q) now (seq 0 (Z.to_nat processors - 1)) slot) as Ht.
    specialize (Ht ltac:(apply in_seq; lia)). lia. }
  fold schedule in Hfin, Hff. rewrite Hfin, Hff. reflexivity.
Qed.

End Raises.

(** X19.  On a frame with a categorical id column, when the number of ids
    is no multiple of the number of processors (1 to 30, at most the
    number of ids), some schedule of the workers makes
    [parallel_fit_predict] raise [TypeError]: a schedule in which the
    other workers finish before worker 0, whose last report then meets
    [nan] for a worker that has one series fewer, in its first pass over
    its groups and again in the second pass [groupby.apply] makes. *)
Theorem uneven_split_can_raise
    {obs pred : Type} (fit_predict : list (Z * obs) -> pred)
    (df : frame obs) (processors begin_time : Z) :
  1 <= processors <= 30 ->
  processors <= n_groups df ->
  n_groups df mod processors <> 0 ->
  exists schedule,
    returned (parallel_fit_predict fit_predict true df processors begin_time schedule)
    = Some (Raise TypeError).
Proof.
  intros HN HG Hmod. eexists.
  apply (parallel_fit_predict_uneven fit_predict df processors begin_time (tick 0) HN HG Hmod).
Qed.

Lemma uneven_split_can_raise_witness :
  exists schedule,
    returned (parallel_fit_predict (fun x : list (Z * Z) => fold_right Z.add 0 (map snd x))
                true [(1, 10); (2, 20); (2, 1); (3, 30)] 2 100 schedule)
    = Some (Raise TypeError).
Proof.
  apply (uneven_split_can_raise
           (fun x : list (Z * Z) => fold_right Z.add 0 (map snd x))
           [(1, 10); (2, 20); (2, 1); (3, 30)] 2 100).
  - lia.
  - vm_compute. congruence.
  - vm_compute. congruence.
Defined.
